(** * Project/task tracker back end: a shallow embedding and its properties

    The development follows the two source files of the service.

    - [Routes] embeds [projectTaskRoutes.js] (the owner-scoped revision, the
      first one in the file): the two Mongoose models [Project] and [Task]
      and the ten route handlers.
    - [Auth] embeds the OAuth part of [index.js]: the Google verify callback,
      the LinkedIn initiate and callback routes, and the session middleware
      that surrounds them.

    Values that the JavaScript code passes around untyped are kept as the
    code has them: request bodies are JSON objects ([gmap string jsval]),
    stored documents are field maps, collections are lists in insertion
    order, and every [await] that can reject is a computation in the error
    monad [result], whose [Throw] is what the handler's [catch] receives. *)

From Stdlib Require Import ZArith Ascii String.
From stdpp Require Import gmap strings list.

Open Scope Z_scope.
Open Scope string_scope.
Open Scope list_scope.

(** ** JavaScript values *)

(** A BSON ObjectId, written as its canonical hexadecimal string. *)
Definition ObjectId : Type := string.

(** A JavaScript [Date], in milliseconds since the epoch. *)
Definition Date : Type := Z.

(** The values that reach the handlers: JSON scalars from a parsed body or a
    query string, an [ObjectId] instance (only [req.user._id] is one), and
    [JObj] for an array or an object, whose content the model leaves
    opaque. Numbers are kept as integers. *)
Inductive jsval : Type :=
  | JNull
  | JBool (b : bool)
  | JNum (n : Z)
  | JStr (s : string)
  | JOid (o : ObjectId)
  | JObj.

#[global] Instance jsval_eq_dec : EqDecision jsval.
Proof. solve_decision. Defined.

(** JavaScript truthiness, as used by [if (x)] and [x || y]. *)
Definition truthy (v : jsval) : bool :=
  match v with
  | JNull => false
  | JBool b => b
  | JNum n => negb (Z.eqb n 0)
  | JStr s => negb (String.eqb s "")
  | JOid _ | JObj => true
  end.

(** ** Errors and the error monad *)

Inductive Err : Type :=
  | TypeError                          (* property read on [undefined] *)
  | CastError (path : string)          (* a query or update value does not cast *)
  | ValidationError (paths : list string)
  | InvalidAtomicUpdate (op : string)  (* a [$]-key in an update document *)
  | DuplicateKey                       (* E11000 on [_id] *)
  | ImmutableField.                    (* an update would change [_id] *)

Inductive result (A : Type) : Type :=
  | Ok (a : A)
  | Throw (e : Err).
Arguments Ok {A} a.
Arguments Throw {A} e.

(** [result] with stdpp's monad notation: [x ← r; k] runs [k] on the value of
    [r] and passes a [Throw] on. *)
#[global] Instance result_bind : MBind result := λ A B k r,
  match r with
  | Ok a => k a
  | Throw e => Throw e
  end.

(** ** The Mongoose layer *)

Module Routes.

(** The library functions the handlers rely on and whose exact behaviour
    depends on the installed Mongoose and BSON versions: the identifier test
    [mongoose.Types.ObjectId.isValid] and the per-type casts of schema
    paths ([None] is a cast failure). *)
Class Mongoose : Type := {
  isValid : jsval → bool;
  castString : jsval → option string;
  castNumber : jsval → option Z;
  castDate : jsval → option Date;
  castObjectId : jsval → option ObjectId;
}.

Inductive SchemaType : Type := TString | TNumber | TDate | TObjectId.

Record Path : Type := { ptype : SchemaType; required : bool }.

Definition Schema : Type := list (string * Path).

Definition optional (t : SchemaType) : Path := {| ptype := t; required := false |}.
Definition mandatory (t : SchemaType) : Path := {| ptype := t; required := true |}.

(** [projectSchema] and [taskSchema], path by path. Both are declared with
    [{ timestamps: true }], which adds the two date paths of [timestamps]. *)
Definition projectSchema : Schema :=
  [ ("name", mandatory TString);
    ("description", optional TString);
    ("startDate", optional TDate);
    ("endDate", optional TDate);
    ("owner", mandatory TObjectId) ].

Definition taskSchema : Schema :=
  [ ("project", mandatory TObjectId);
    ("name", mandatory TString);
    ("description", optional TString);
    ("duration", optional TNumber);
    ("startDate", optional TDate);
    ("endDate", optional TDate);
    ("owner", mandatory TObjectId) ].

Definition timestamps : Schema :=
  [ ("createdAt", optional TDate); ("updatedAt", optional TDate) ].

(** Stored field values. *)
Inductive value : Type :=
  | VNull
  | VStr (s : string)
  | VNum (n : Z)
  | VDate (d : Date)
  | VOid (o : ObjectId).

#[global] Instance value_eq_dec : EqDecision value.
Proof. solve_decision. Defined.

(** A stored document: its [_id] and its other paths. *)
Record Doc : Type := { doc_id : ObjectId; fields : gmap string value }.

#[global] Instance Doc_eq_dec : EqDecision Doc.
Proof. solve_decision. Defined.

Definition owner (d : Doc) : option value := fields d !! "owner".

Section Model.
Context `{M : Mongoose}.

(** Casting a value to the type of a path. [null] is stored as it is and an
    [ObjectId] instance is its own cast; everything else is the library's. *)
Definition cast (t : SchemaType) (v : jsval) : option value :=
  match v with
  | JNull => Some VNull
  | _ =>
    match t with
    | TString => VStr <$> castString v
    | TNumber => VNum <$> castNumber v
    | TDate => VDate <$> castDate v
    | TObjectId =>
      match v with
      | JOid o => Some (VOid o)
      | _ => VOid <$> castObjectId v
      end
    end
  end.

(** The [required] validator: [null] and [undefined] fail on every path,
    the empty string fails as well. *)
Definition isEmpty (w : value) : bool :=
  match w with
  | VNull => true
  | VStr s => String.eqb s ""
  | _ => false
  end.

(** Casting the paths of [sch] that an object supplies; keys outside the
    schema are dropped (strict mode). *)
Fixpoint castPaths (sch : Schema) (obj : gmap string jsval)
  : result (gmap string value) :=
  match sch with
  | [] => Ok ∅
  | (k, p) :: sch' =>
    rest ← castPaths sch' obj;
    match obj !! k with
    | None => Ok rest
    | Some v =>
      match cast (ptype p) v with
      | Some w => Ok (<[k := w]> rest)
      | None => Throw (CastError k)
      end
    end
  end.

(** Validation of a new document at [save]: a path fails when its value does
    not cast, or when it is required and empty; all failing paths are
    reported together. *)
Definition pathFails (obj : gmap string jsval) (kp : string * Path) : bool :=
  match obj !! kp.1 with
  | None => required kp.2
  | Some v =>
    match cast (ptype kp.2) v with
    | None => true
    | Some w => required kp.2 && isEmpty w
    end
  end.

Definition validate (sch : Schema) (obj : gmap string jsval)
  : result (gmap string value) :=
  match List.filter (pathFails obj) sch with
  | [] => castPaths sch obj
  | bad => Throw (ValidationError bad.*1)
  end.

(** The request-independent inputs of a handler: the clock and the
    identifier the driver generates for a new document. *)
Record Env : Type := { now : Date; newId : ObjectId }.

(** [_id] of a new document: the supplied one when the object has it,
    a generated one otherwise. *)
Definition docId (env : Env) (obj : gmap string jsval) : result ObjectId :=
  match obj !! "_id" with
  | None => Ok (newId env)
  | Some v =>
    match cast TObjectId v with
    | Some (VOid o) => Ok o
    | _ => Throw (ValidationError ["_id"])
    end
  end.

(** The [timestamps] hook of [save]: [createdAt] is set unless the document
    brings one, [updatedAt] follows it. *)
Definition stamp (env : Env) (flds : gmap string value) : gmap string value :=
  let created :=
    match flds !! "createdAt" with
    | Some w => if isEmpty w then VDate (now env) else w
    | None => VDate (now env)
    end in
  <["updatedAt" := created]> (<["createdAt" := created]> flds).

(** [new Model(obj)] followed by [save()]. *)
Definition create (sch : Schema) (env : Env) (coll : list Doc)
    (obj : gmap string jsval) : result (list Doc * Doc) :=
  flds ← validate (sch ++ timestamps) obj;
  id ← docId env obj;
  let d := {| doc_id := id; fields := stamp env flds |} in
  if bool_decide (id ∈ (doc_id <$> coll)) then Throw DuplicateKey
  else Ok (coll ++ [d], d).

(** *** Queries *)

(** A query filter, as the object literal the handler writes. *)
Definition Filter : Type := list (string * jsval).

Fixpoint lookupPath (sch : Schema) (k : string) : option Path :=
  match sch with
  | [] => None
  | (k', p) :: sch' => if decide (k' = k) then Some p else lookupPath sch' k
  end.

Definition pathType (sch : Schema) (k : string) : option SchemaType :=
  if decide (k = "_id") then Some TObjectId
  else ptype <$> lookupPath (sch ++ timestamps) k.

(** Casting a filter to the schema; a condition on an unknown path is
    dropped. Every condition is an equality on the cast value: the filters
    of the handlers carry identifiers and strings. An array or an operator
    object ([JObj]), of which Mongoose makes a [$in] or an operator
    condition, is cast here as a value. *)
Fixpoint castFilter (sch : Schema) (f : Filter) : result (list (string * value)) :=
  match f with
  | [] => Ok []
  | (k, v) :: f' =>
    rest ← castFilter sch f';
    match pathType sch k with
    | None => Ok rest
    | Some t =>
      match cast t v with
      | Some w => Ok ((k, w) :: rest)
      | None => Throw (CastError k)
      end
    end
  end.

Definition getPath (d : Doc) (k : string) : option value :=
  if decide (k = "_id") then Some (VOid (doc_id d)) else fields d !! k.

(** Equality match of one condition; [null] also matches a missing path. *)
Definition matches1 (d : Doc) (kw : string * value) : bool :=
  match getPath d kw.1 with
  | Some x => bool_decide (x = kw.2)
  | None => bool_decide (kw.2 = VNull)
  end.

Definition matches (cf : list (string * value)) (d : Doc) : bool :=
  forallb (matches1 d) cf.

Definition find (sch : Schema) (coll : list Doc) (f : Filter)
  : result (list Doc) :=
  cf ← castFilter sch f;
  Ok (List.filter (matches cf) coll).

Definition findOne (sch : Schema) (coll : list Doc) (f : Filter)
  : result (option Doc) :=
  cf ← castFilter sch f;
  Ok (List.find (matches cf) coll).

Definition findById (sch : Schema) (coll : list Doc) (id : jsval)
  : result (option Doc) :=
  findOne sch coll [("_id", id)].

Fixpoint removeFirst (P : Doc → bool) (coll : list Doc) : list Doc :=
  match coll with
  | [] => []
  | d :: c => if P d then c else d :: removeFirst P c
  end.

Definition findOneAndDelete (sch : Schema) (coll : list Doc) (f : Filter)
  : result (list Doc * option Doc) :=
  cf ← castFilter sch f;
  Ok (removeFirst (matches cf) coll, List.find (matches cf) coll).

Definition deleteMany (sch : Schema) (coll : list Doc) (f : Filter)
  : result (list Doc) :=
  cf ← castFilter sch f;
  Ok (List.filter (λ d, negb (matches cf d)) coll).

(** *** Updates *)

(** A key that starts with [$] is an update operator. With a scalar value
    Mongoose rejects it; operator documents (object values) are outside
    this model, which rejects them as well. *)
Definition isOperator (k : string) : bool :=
  match k with
  | String "$"%char _ => true
  | _ => false
  end.

(** An update body without operator keys: each of its keys is the name of
    a field. The statements about what an update does to a document are
    made for these bodies; a body with an operator key is an operator
    document, which Mongoose hands to the database as such. *)
Definition plainUpdate (upd : gmap string jsval) : bool :=
  forallb (λ kv : string * jsval, negb (isOperator kv.1)) (map_to_list upd).

(** The update validators of [runValidators: true] look at the paths that
    the update sets. *)
Definition updateFails (sets : gmap string value) (kp : string * Path) : bool :=
  required kp.2 &&
  match sets !! kp.1 with
  | Some w => isEmpty w
  | None => false
  end.

(** A plain update object becomes a [$set] of its schema paths; the
    timestamp paths are not among them. *)
Definition castUpdate (sch : Schema) (upd : gmap string jsval)
  : result (gmap string value) :=
  match List.find (λ kv : string * jsval, isOperator kv.1) (map_to_list upd) with
  | Some kv => Throw (InvalidAtomicUpdate kv.1)
  | None =>
    sets ← castPaths sch upd;
    match List.filter (updateFails sets) sch with
    | [] => Ok sets
    | bad => Throw (ValidationError bad.*1)
    end
  end.

Definition idUpdate (upd : gmap string jsval) : result (option value) :=
  match upd !! "_id" with
  | None => Ok None
  | Some v =>
    match cast TObjectId v with
    | Some w => Ok (Some w)
    | None => Throw (CastError "_id")
    end
  end.

(** The stored document after the [$set], with [updatedAt] moved to the
    time of the update. *)
Definition applyUpdate (env : Env) (sets : gmap string value) (d : Doc) : Doc :=
  {| doc_id := doc_id d;
     fields := <["updatedAt" := VDate (now env)]> (sets ∪ fields d) |}.

Fixpoint updateFirst (P : Doc → bool) (g : Doc → Doc) (coll : list Doc)
  : list Doc :=
  match coll with
  | [] => []
  | d :: c => if P d then g d :: c else d :: updateFirst P g c
  end.

(** [findOneAndUpdate(filter, update, { new: true, runValidators: true })]:
    filter and update are cast and validated before the collection is
    touched; the first matching document is updated and returned in its new
    form. *)
Definition findOneAndUpdate (sch : Schema) (env : Env) (coll : list Doc)
    (f : Filter) (upd : gmap string jsval) : result (list Doc * option Doc) :=
  cf ← castFilter sch f;
  sets ← castUpdate sch upd;
  newid ← idUpdate upd;
  match List.find (matches cf) coll with
  | None => Ok (coll, None)
  | Some d =>
    if match newid with
       | Some w => bool_decide (w = VOid (doc_id d))
       | None => true
       end
    then Ok (updateFirst (matches cf) (applyUpdate env sets) coll,
             Some (applyUpdate env sets d))
    else Throw ImmutableField
  end.

(** [d] carries the identifier [oid] and belongs to [u]. *)
Definition ownedBy (u oid : ObjectId) (d : Doc) : Prop :=
  doc_id d = oid ∧ owner d = Some (VOid u).

(** A schema whose [owner] path is an identifier, as both schemas have it. *)
Definition ownerPath (sch : Schema) : Prop :=
  pathType sch "owner" = Some TObjectId.

(** The cast form of the filter [{ _id: id, owner: req.user._id }]. *)
Definition idOwner (oid u : ObjectId) : list (string * value) :=
  [("_id", VOid oid); ("owner", VOid u)].

(** The invariant of a MongoDB collection: [_id] is unique. *)
Definition uniqueIds (coll : list Doc) : Prop := NoDup (doc_id <$> coll).

(** *** Requests, responses and the database *)

(** What a handler reads of the request: [req.user._id] when Passport has
    attached a user, [req.params.id], [req.query.project] and [req.body]. *)
Record Request : Type := {
  user : option ObjectId;
  params_id : string;
  query_project : option jsval;
  body : gmap string jsval;
}.

Record DB : Type := { projects : list Doc; tasks : list Doc }.

(** A task as [populate('project', 'name')] returns it: with the [_id] and
    [name] of its project, or [null] when the project is gone. *)
Record Populated : Type := { task : Doc; project_ref : option Doc }.

Inductive Message : Type :=
  | Text (s : string)
  | ErrMessage (e : Err).   (* [err.message] *)

Inductive Json : Type :=
  | JDoc (d : Doc)
  | JDocs (ds : list Doc)
  | JTask (t : Populated)
  | JTasks (ts : list Populated)
  | JError (m : Message)
  | JMessage (s : string).

Record Response : Type := { status : Z; json : Json }.

Definition respond (code : Z) (j : Json) : Response :=
  {| status := code; json := j |}.

(** The [catch] block shared by all handlers. *)
Definition internalError (e : Err) : Response :=
  respond 500 (JError (ErrMessage e)).

(** [req.user._id]: a [TypeError] when no user is attached. *)
Definition userId (r : Request) : result ObjectId :=
  match user r with
  | Some u => Ok u
  | None => Throw TypeError
  end.

(** [req.user ? { owner: req.user._id } : {}] *)
Definition ownerFilter (r : Request) : Filter :=
  match user r with
  | Some u => [("owner", JOid u)]
  | None => []
  end.

Definition populate (ps : list Doc) (t : Doc) : Populated :=
  {| task := t;
     project_ref :=
       match fields t !! "project" with
       | Some (VOid p) =>
         (λ d, {| doc_id := doc_id d;
                  fields := filter (λ kv : string * value, kv.1 = "name") (fields d) |})
         <$> List.find (λ d, bool_decide (doc_id d = p)) ps
       | _ => None
       end |}.

(** The object literal built from the destructured body of [POST /tasks]:
    a key that the body lacks stays [undefined]. *)
Fixpoint pick (keys : list string) (b : gmap string jsval) : gmap string jsval :=
  match keys with
  | [] => ∅
  | k :: keys' =>
    match b !! k with
    | Some v => <[k := v]> (pick keys' b)
    | None => pick keys' b
    end
  end.

(** *** The route handlers *)

(** [POST /projects] *)
Definition createProject (env : Env) (db : DB) (r : Request) : DB * Response :=
  match
    u ← userId r;
    create projectSchema env (projects db) (<["owner" := JOid u]> (body r))
  with
  | Ok (ps, saved) =>
    ({| projects := ps; tasks := tasks db |}, respond 201 (JDoc saved))
  | Throw e => (db, internalError e)
  end.

(** [GET /projects] *)
Definition listProjects (db : DB) (r : Request) : DB * Response :=
  match find projectSchema (projects db) (ownerFilter r) with
  | Ok ps => (db, respond 200 (JDocs ps))
  | Throw e => (db, internalError e)
  end.

(** [GET /projects/:id] *)
Definition getProject (db : DB) (r : Request) : DB * Response :=
  match findById projectSchema (projects db) (JStr (params_id r)) with
  | Ok None => (db, respond 404 (JError (Text "Project not found")))
  | Ok (Some p) => (db, respond 200 (JDoc p))
  | Throw e => (db, internalError e)
  end.

(** [PUT /projects/:id] *)
Definition updateProject (env : Env) (db : DB) (r : Request) : DB * Response :=
  match
    u ← userId r;
    findOneAndUpdate projectSchema env (projects db)
      [("_id", JStr (params_id r)); ("owner", JOid u)] (body r)
  with
  | Ok (_, None) =>
    (db, respond 404
           (JError (Text "Project not found or you do not own this project")))
  | Ok (ps, Some p) =>
    ({| projects := ps; tasks := tasks db |}, respond 200 (JDoc p))
  | Throw e => (db, internalError e)
  end.

(** [DELETE /projects/:id] *)
Definition deleteProject (db : DB) (r : Request) : DB * Response :=
  match
    u ← userId r;
    findOneAndDelete projectSchema (projects db)
      [("_id", JStr (params_id r)); ("owner", JOid u)]
  with
  | Ok (_, None) =>
    (db, respond 404
           (JError (Text "Project not found or you do not own this project")))
  | Ok (ps, Some _) =>
    let db1 := {| projects := ps; tasks := tasks db |} in
    match deleteMany taskSchema (tasks db) [("project", JStr (params_id r))] with
    | Ok ts =>
      ({| projects := ps; tasks := ts |},
       respond 200 (JMessage "Project and associated tasks deleted successfully"))
    | Throw e => (db1, internalError e)
    end
  | Throw e => (db, internalError e)
  end.

(** [POST /tasks]. A body without [project] leaves it [undefined], which
    [ObjectId.isValid] rejects. *)
Definition createTask (env : Env) (db : DB) (r : Request) : DB * Response :=
  let invalid := (db, respond 400 (JError (Text "Invalid project id"))) in
  match body r !! "project" with
  | None => invalid
  | Some project =>
    if negb (isValid project) then invalid
    else
      match
        u ← userId r;
        parentProject ← findOne projectSchema (projects db)
          [("_id", project); ("owner", JOid u)];
        Ok (u, parentProject)
      with
      | Ok (_, None) =>
        (db, respond 404
               (JError (Text "Parent project not found or you do not own this project")))
      | Ok (u, Some _) =>
        match
          create taskSchema env (tasks db)
            (<["owner" := JOid u]>
               (pick ["project"; "name"; "description"; "duration";
                      "startDate"; "endDate"] (body r)))
        with
        | Ok (ts, saved) =>
          ({| projects := projects db; tasks := ts |}, respond 201 (JDoc saved))
        | Throw e => (db, internalError e)
        end
      | Throw e => (db, internalError e)
      end
  end.

(** The filter of [GET /tasks]: the owner filter, narrowed to one project
    when the query string names one. *)
Definition taskFilter (r : Request) : Filter :=
  match query_project r with
  | Some v => if truthy v then ownerFilter r ++ [("project", v)] else ownerFilter r
  | None => ownerFilter r
  end.

(** [GET /tasks] *)
Definition listTasks (db : DB) (r : Request) : DB * Response :=
  match find taskSchema (tasks db) (taskFilter r) with
  | Ok ts => (db, respond 200 (JTasks (populate (projects db) <$> ts)))
  | Throw e => (db, internalError e)
  end.

(** [GET /tasks/:id] *)
Definition getTask (db : DB) (r : Request) : DB * Response :=
  match
    u ← userId r;
    findOne taskSchema (tasks db) [("_id", JStr (params_id r)); ("owner", JOid u)]
  with
  | Ok None =>
    (db, respond 404 (JError (Text "Task not found or you do not own this task")))
  | Ok (Some t) => (db, respond 200 (JTask (populate (projects db) t)))
  | Throw e => (db, internalError e)
  end.

(** [PUT /tasks/:id] *)
Definition updateTask (env : Env) (db : DB) (r : Request) : DB * Response :=
  match
    u ← userId r;
    findOneAndUpdate taskSchema env (tasks db)
      [("_id", JStr (params_id r)); ("owner", JOid u)] (body r)
  with
  | Ok (_, None) =>
    (db, respond 404 (JError (Text "Task not found or you do not own this task")))
  | Ok (ts, Some t) =>
    ({| projects := projects db; tasks := ts |}, respond 200 (JDoc t))
  | Throw e => (db, internalError e)
  end.

(** [DELETE /tasks/:id] *)
Definition deleteTask (db : DB) (r : Request) : DB * Response :=
  match
    u ← userId r;
    findOneAndDelete taskSchema (tasks db)
      [("_id", JStr (params_id r)); ("owner", JOid u)]
  with
  | Ok (_, None) =>
    (db, respond 404 (JError (Text "Task not found or you do not own this task")))
  | Ok (ts, Some _) =>
    ({| projects := projects db; tasks := ts |},
     respond 200 (JMessage "Task deleted successfully"))
  | Throw e => (db, internalError e)
  end.

(** *** The access filter as the specification words it

    The specification describes one access filter, [{owner: currentUserId}]
    or [{}] without a user, applied by every handler. These two handlers
    are Get-by-id of a Project and Delete of a Task written that way, to be
    compared with [getProject] and [deleteTask]. *)
Definition specGetProject (db : DB) (r : Request) : DB * Response :=
  match
    findOne projectSchema (projects db)
      (("_id", JStr (params_id r)) :: ownerFilter r)
  with
  | Ok None => (db, respond 404 (JError (Text "Project not found")))
  | Ok (Some p) => (db, respond 200 (JDoc p))
  | Throw e => (db, internalError e)
  end.

Definition specDeleteTask (db : DB) (r : Request) : DB * Response :=
  match
    findOneAndDelete taskSchema (tasks db)
      (("_id", JStr (params_id r)) :: ownerFilter r)
  with
  | Ok (_, None) =>
    (db, respond 404 (JError (Text "Task not found or you do not own this task")))
  | Ok (ts, Some _) =>
    ({| projects := projects db; tasks := ts |},
     respond 200 (JMessage "Task deleted successfully"))
  | Throw e => (db, internalError e)
  end.

(** *** Ownership of the addressed document *)

(** The request names, by [req.params.id] and [req.user._id], a document of
    [coll]. *)
Definition owned (coll : list Doc) (r : Request) : Prop :=
  ∃ u oid d,
    user r = Some u ∧ castObjectId (JStr (params_id r)) = Some oid ∧
    d ∈ coll ∧ ownedBy u oid d.

(** The update document of the request passes casting and the update
    validators. *)
Definition accepted (sch : Schema) (r : Request) : Prop :=
  (∃ sets, castUpdate sch (body r) = Ok sets) ∧
  (∃ newid, idUpdate (body r) = Ok newid).

(** The contract of a conditional write to [coll] whose outcome is [out].
    It succeeds only on a document the requester owns, and a 404 leaves the
    database as it was. The answer is 500, with the database as it was,
    when no user is attached, when the identifier does not cast, and when
    the rest of a request that is [inScope] is not [wellFormed]; it is 404
    with [msg] when all that is in order and no document of the requester
    has the identifier. *)
Definition conditional (coll : list Doc) (inScope wellFormed : Prop)
    (msg : string) (db : DB) (r : Request) (out : DB * Response) : Prop :=
  (status out.2 = 200 → owned coll r) ∧
  (status out.2 = 404 → out.1 = db) ∧
  (user r = None → out = (db, internalError TypeError)) ∧
  (is_Some (user r) → castObjectId (JStr (params_id r)) = None →
   out = (db, internalError (CastError "_id"))) ∧
  (is_Some (user r) → is_Some (castObjectId (JStr (params_id r))) →
   inScope → ¬ wellFormed → ∃ e, out = (db, internalError e)) ∧
  (is_Some (user r) → is_Some (castObjectId (JStr (params_id r))) →
   inScope → wellFormed → ¬ owned coll r →
   out = (db, respond 404 (JError (Text msg)))).

(** The owner filter of the list handlers, as a test on documents: with a
    user attached only that user's documents pass, without one all do. *)
Definition visible (r : Request) (d : Doc) : bool :=
  match user r with
  | Some u => bool_decide (owner d = Some (VOid u))
  | None => true
  end.

(** *** Partial updates *)




(** A task that refers to the project [oid]. *)
Definition refersTo (oid : ObjectId) (t : Doc) : Prop :=
  fields t !! "project" = Some (VOid oid).

#[global] Instance refersTo_dec oid t : Decision (refersTo oid t).
Proof. unfold refersTo. apply _. Defined.

End Model.

(** *** A concrete library instance

    [plainCasts] accepts exactly the values that already have the shape of
    the path: a 24-digit hexadecimal string for an identifier, a string for a
    string path, a number for a number path and a number of milliseconds
    for a date. It is the instance the examples run on. *)

Definition isHexDigit (c : ascii) : bool :=
  let n := nat_of_ascii c in
  ((48 <=? n) && (n <=? 57) || (97 <=? n) && (n <=? 102))%nat.

Fixpoint allHex (s : string) : bool :=
  match s with
  | EmptyString => true
  | String c s' => isHexDigit c && allHex s'
  end.

Definition isHex24 (s : string) : bool :=
  (String.length s =? 24)%nat && allHex s.

Definition plainCasts : Mongoose := {|
  isValid v :=
    match v with
    | JStr s => isHex24 s
    | JOid _ => true
    | _ => false
    end;
  castString v := match v with JStr s => Some s | _ => None end;
  castNumber v := match v with JNum n => Some n | _ => None end;
  castDate v := match v with JNum n => Some n | _ => None end;
  castObjectId v :=
    match v with
    | JStr s => if isHex24 s then Some s else None
    | JOid o => Some o
    | _ => None
    end;
|}.

(** The same casts with [ObjectId.isValid] as the driver has it for
    numbers: every number passes. The query cast of a number goes through
    its decimal form; this instance takes no such form for an identifier,
    as is the case of every number whose decimal form has neither 12 nor 24
    characters. *)
Definition numberCasts : Mongoose := {|
  isValid v :=
    match v with
    | JNum _ => true
    | JStr s => isHex24 s
    | JOid _ => true
    | _ => false
    end;
  castString v := match v with JStr s => Some s | _ => None end;
  castNumber v := match v with JNum n => Some n | _ => None end;
  castDate v := match v with JNum n => Some n | _ => None end;
  castObjectId v :=
    match v with
    | JStr s => if isHex24 s then Some s else None
    | JOid o => Some o
    | _ => None
    end;
|}.

End Routes.

(** ** The routes before ownership

    [projectTaskRoutes.js] as it was before documents had an owner: the
    schemas lack the [owner] path and the handlers address documents by
    [_id] alone. *)

Module Unscoped.
Import Routes.

Definition projectSchema : Schema :=
  [ ("name", mandatory TString);
    ("description", optional TString);
    ("startDate", optional TDate);
    ("endDate", optional TDate) ].

Definition taskSchema : Schema :=
  [ ("project", mandatory TObjectId);
    ("name", mandatory TString);
    ("description", optional TString);
    ("duration", optional TNumber);
    ("startDate", optional TDate);
    ("endDate", optional TDate) ].

Section Model.
Context `{M : Mongoose}.

(** [POST /projects] *)
Definition createProject (env : Env) (db : DB) (r : Request) : DB * Response :=
  match create projectSchema env (projects db) (body r) with
  | Ok (ps, saved) =>
    ({| projects := ps; tasks := tasks db |}, respond 201 (JDoc saved))
  | Throw e => (db, internalError e)
  end.

(** [GET /projects] *)
Definition listProjects (db : DB) (r : Request) : DB * Response :=
  match find projectSchema (projects db) [] with
  | Ok ps => (db, respond 200 (JDocs ps))
  | Throw e => (db, internalError e)
  end.

(** [GET /projects/:id] *)
Definition getProject (db : DB) (r : Request) : DB * Response :=
  match findById projectSchema (projects db) (JStr (params_id r)) with
  | Ok None => (db, respond 404 (JError (Text "Project not found")))
  | Ok (Some p) => (db, respond 200 (JDoc p))
  | Throw e => (db, internalError e)
  end.

(** [findByIdAndUpdate(id, update, options)] *)
Definition findByIdAndUpdate (sch : Schema) (env : Env) (coll : list Doc)
    (id : jsval) (upd : gmap string jsval) : result (list Doc * option Doc) :=
  findOneAndUpdate sch env coll [("_id", id)] upd.

(** [findByIdAndDelete(id)] *)
Definition findByIdAndDelete (sch : Schema) (coll : list Doc) (id : jsval)
  : result (list Doc * option Doc) :=
  findOneAndDelete sch coll [("_id", id)].

(** [PUT /projects/:id] *)
Definition updateProject (env : Env) (db : DB) (r : Request) : DB * Response :=
  match
    findByIdAndUpdate projectSchema env (projects db) (JStr (params_id r)) (body r)
  with
  | Ok (_, None) => (db, respond 404 (JError (Text "Project not found")))
  | Ok (ps, Some p) =>
    ({| projects := ps; tasks := tasks db |}, respond 200 (JDoc p))
  | Throw e => (db, internalError e)
  end.

(** [DELETE /projects/:id] *)
Definition deleteProject (db : DB) (r : Request) : DB * Response :=
  match findByIdAndDelete projectSchema (projects db) (JStr (params_id r)) with
  | Ok (_, None) => (db, respond 404 (JError (Text "Project not found")))
  | Ok (ps, Some _) =>
    let db1 := {| projects := ps; tasks := tasks db |} in
    match deleteMany taskSchema (tasks db) [("project", JStr (params_id r))] with
    | Ok ts =>
      ({| projects := ps; tasks := ts |},
       respond 200 (JMessage "Project and associated tasks deleted successfully"))
    | Throw e => (db1, internalError e)
    end
  | Throw e => (db, internalError e)
  end.

(** [POST /tasks] *)
Definition createTask (env : Env) (db : DB) (r : Request) : DB * Response :=
  let invalid := (db, respond 400 (JError (Text "Invalid project id"))) in
  match body r !! "project" with
  | None => invalid
  | Some project =>
    if negb (isValid project) then invalid
    else
      match findById projectSchema (projects db) project with
      | Ok None =>
        (db, respond 404 (JError (Text "Parent project not found")))
      | Ok (Some _) =>
        match
          create taskSchema env (tasks db)
            (pick ["project"; "name"; "description"; "duration";
                   "startDate"; "endDate"] (body r))
        with
        | Ok (ts, saved) =>
          ({| projects := projects db; tasks := ts |}, respond 201 (JDoc saved))
        | Throw e => (db, internalError e)
        end
      | Throw e => (db, internalError e)
      end
  end.

(** The filter of [GET /tasks]. *)
Definition taskFilter (r : Request) : Filter :=
  match query_project r with
  | Some v => if truthy v then [("project", v)] else []
  | None => []
  end.

(** [GET /tasks] *)
Definition listTasks (db : DB) (r : Request) : DB * Response :=
  match find taskSchema (tasks db) (taskFilter r) with
  | Ok ts => (db, respond 200 (JTasks (populate (projects db) <$> ts)))
  | Throw e => (db, internalError e)
  end.

(** [GET /tasks/:id] *)
Definition getTask (db : DB) (r : Request) : DB * Response :=
  match findById taskSchema (tasks db) (JStr (params_id r)) with
  | Ok None => (db, respond 404 (JError (Text "Task not found")))
  | Ok (Some t) => (db, respond 200 (JTask (populate (projects db) t)))
  | Throw e => (db, internalError e)
  end.

(** [PUT /tasks/:id] *)
Definition updateTask (env : Env) (db : DB) (r : Request) : DB * Response :=
  match
    findByIdAndUpdate taskSchema env (tasks db) (JStr (params_id r)) (body r)
  with
  | Ok (_, None) => (db, respond 404 (JError (Text "Task not found")))
  | Ok (ts, Some t) =>
    ({| projects := projects db; tasks := ts |}, respond 200 (JDoc t))
  | Throw e => (db, internalError e)
  end.

(** [DELETE /tasks/:id] *)
Definition deleteTask (db : DB) (r : Request) : DB * Response :=
  match findByIdAndDelete taskSchema (tasks db) (JStr (params_id r)) with
  | Ok (_, None) => (db, respond 404 (JError (Text "Task not found")))
  | Ok (ts, Some _) =>
    ({| projects := projects db; tasks := ts |},
     respond 200 (JMessage "Task deleted successfully"))
  | Throw e => (db, internalError e)
  end.

End Model.

(** *** Comparing the two revisions *)

(** Every document of the collection belongs to [u]. *)
Definition allOwnedBy (u : ObjectId) (coll : list Doc) : Prop :=
  ∀ d, d ∈ coll → owner d = Some (VOid u).

(** A document without its [owner] path, and the database, the response
    bodies and the outcomes seen that way. *)
Definition disown (d : Doc) : Doc :=
  {| doc_id := doc_id d; fields := delete "owner" (fields d) |}.

Definition erase (db : DB) : DB :=
  {| projects := disown <$> projects db; tasks := disown <$> tasks db |}.

Definition erasePopulated (t : Populated) : Populated :=
  {| task := disown (task t); project_ref := project_ref t |}.

Definition eraseJson (j : Json) : Json :=
  match j with
  | JDoc d => JDoc (disown d)
  | JDocs ds => JDocs (disown <$> ds)
  | JTask t => JTask (erasePopulated t)
  | JTasks ts => JTasks (erasePopulated <$> ts)
  | JError m => JError m
  | JMessage m => JMessage m
  end.

Definition eraseResponse (resp : Response) : Response :=
  {| status := status resp; json := eraseJson (json resp) |}.

(** The responses of the two revisions correspond: the same status and
    body up to the [owner] path, or a 404 in both (its wording differs). *)
Definition corresponds (a b : Response) : Prop :=
  eraseResponse a = b ∨ status a = 404 ∧ status b = 404.

Definition simulates (a b : DB * Response) : Prop :=
  erase a.1 = b.1 ∧ corresponds a.2 b.2.

(** The ten routes of the router, and a sequence of requests served one
    after the other by either revision. *)
Inductive Route : Type :=
  | PostProject | GetProjects | GetProject | PutProject | DeleteProject
  | PostTask | GetTasks | GetTask | PutTask | DeleteTask.

Section Router.
Context `{M : Mongoose}.



Fixpoint run (serve : Route → Env → DB → Request → DB * Response)
    (db : DB) (calls : list (Route * Env * Request)) : DB * list Response :=
  match calls with
  | [] => (db, [])
  | (rt, env, r) :: rest =>
    let '(db1, resp) := serve rt env db r in
    let '(db2, resps) := run serve db1 rest in
    (db2, resp :: resps)
  end.

End Router.

End Unscoped.

(** ** The OAuth part of [index.js] *)

Module Auth.

(** A stored identity: a document of the [User] model. *)
Record User : Type := {
  user_id : ObjectId;
  socialId : string;
  name : option string;
  email : option string;
  platform : string;
  profilePicture : option string;
  createdAt : Date;
  lastLogin : Date;
}.

(** The session keys the service uses: the pending LinkedIn state and the
    user id that Passport's [req.login] serializes into the session. *)
Record Session : Type := {
  linkedInState : option string;
  passport_user : option ObjectId;
}.

#[global] Instance Session_eq_dec : EqDecision Session.
Proof. solve_decision. Defined.

Definition emptySession : Session :=
  {| linkedInState := None; passport_user := None |}.

(** The session store (keyed by session id) and the identity collection. *)
Record World : Type := {
  sessions : gmap string Session;
  users : list User;
}.

(** A request as the route sees it, after the session middleware has set
    [req.sessionID] and loaded [req.session]: the id of the cookie when the
    store has a record of it, an id without a record otherwise. A query
    parameter is absent, a string, or (repeated or bracketed keys) an array
    or object. *)
Record Request : Type := {
  sessionID : string;
  session : Session;
  q_code : option jsval;
  q_state : option jsval;
  q_error : option jsval;
  q_error_description : option jsval;
}.

(** The OpenID userinfo document of LinkedIn. *)
Record LinkedInProfile : Type := {
  sub : string;
  li_name : option string;
  li_email : option string;
  picture : option string;
}.

(** The profile Passport's Google strategy hands to the verify callback. *)
Record GoogleProfile : Type := {
  g_id : string;
  displayName : option string;
  emails : list string;
  photos : list string;
}.

(** Everything outside the process: the clock, generated identifiers, the
    random state, the two LinkedIn endpoints ([None] when [axios] rejects),
    the id that the session gets when [req.login] regenerates it, and which
    calls of the session store report an error: the [destroy] of that
    regeneration, the [save] that ends [req.login], and the route's own
    [req.session.save]. A call that reports an error has changed nothing in
    the store. *)
Record Env : Type := {
  now : Date;
  newId : ObjectId;
  randomState : string;
  accessToken : option jsval → option (option string);
  userinfo : option string → option LinkedInProfile;
  newSessionID : string;
  destroyFails : bool;
  loginSaveFails : bool;
  saveFails : bool;
}.

(** [req.login] calls back with an error. *)
Definition loginFails (env : Env) : bool :=
  destroyFails env || loginSaveFails env.

Inductive Response : Type :=
  | RedirectProfile                      (* [FRONTEND_URL/profile] *)
  | RedirectError (code : string)        (* [FRONTEND_URL?error=code] *)
  | RedirectProviderError (error : jsval) (description : option jsval)
  | RedirectLinkedIn (state : string).   (* LinkedIn's authorization URL *)

(** [a || b] on strings that may be [undefined]. *)
Definition orElse (a b : option string) : option string :=
  match a with
  | Some s => if String.eqb s "" then b else a
  | None => b
  end.

(** [user.save()] of a document that is already stored. *)
Definition saveUser (u : User) (us : list User) : list User :=
  (λ x, if decide (user_id x = user_id u) then u else x) <$> us.

(** *** The Google verify callback *)

Definition googleVerify (env : Env) (profile : GoogleProfile) (us : list User)
  : result (list User * User) :=
  match List.find (λ u, bool_decide (socialId u = g_id profile)) us with
  | None =>
    match emails profile with
    | [] => Throw TypeError
    | e :: _ =>
      let user :=
        {| user_id := newId env;
           socialId := g_id profile;
           name := displayName profile;
           email := Some e;
           platform := "google";
           profilePicture := orElse (head (photos profile)) (Some "");
           createdAt := now env;
           lastLogin := now env |} in
      Ok (us ++ [user], user)
    end
  | Some found =>
    let user :=
      {| user_id := user_id found;
         socialId := socialId found;
         name := name found;
         email := email found;
         platform := platform found;
         profilePicture := profilePicture found;
         createdAt := createdAt found;
         lastLogin := now env |} in
    Ok (saveUser user us, user)
  end.

(** *** The LinkedIn routes *)

(** The create-or-update step of the callback. *)
Definition linkedinUpsert (env : Env) (profileData : LinkedInProfile)
    (us : list User) : list User * User :=
  match
    List.find (λ u, bool_decide (socialId u = sub profileData)
                    && bool_decide (platform u = "linkedin")) us
  with
  | None =>
    let user :=
      {| user_id := newId env;
         socialId := sub profileData;
         name := li_name profileData;
         email := li_email profileData;
         platform := "linkedin";
         profilePicture := orElse (picture profileData) (Some "");
         createdAt := now env;
         lastLogin := now env |} in
    (us ++ [user], user)
  | Some found =>
    let user :=
      {| user_id := user_id found;
         socialId := socialId found;
         name := li_name profileData;
         email := li_email profileData;
         platform := platform found;
         profilePicture := orElse (picture profileData) (profilePicture found);
         createdAt := createdAt found;
         lastLogin := now env |} in
    (saveUser user us, user)
  end.

(** [state !== verifySession.linkedInState] *)
Definition strictNeq (state : option jsval) (stored : option string) : bool :=
  match state, stored with
  | None, None => false
  | Some (JStr a), Some b => negb (String.eqb a b)
  | _, _ => true
  end.

Definition setState (st : option string) (s : Session) : Session :=
  {| linkedInState := st; passport_user := passport_user s |}.

(** [req.session.save()]: the session is written under the given id. *)
Definition store (sid : string) (s : Session) (w : World) : World :=
  {| sessions := <[sid := s]> (sessions w); users := users w |}.

(** [store.destroy(sid)] *)
Definition destroy (sid : string) (w : World) : World :=
  {| sessions := delete sid (sessions w); users := users w |}.

(** The session of a request while it is served: [req.sessionID],
    [req.session], and whether the session is as a [save()] called in this
    request left it (then the session middleware does not write it again
    when the response ends). *)
Record Live : Type := {
  live_id : string;
  live_session : Session;
  saved : bool;
}.

(** The session as the middleware hands it to the route. With
    [resave: true] a loaded session counts as unsaved. *)
Definition loaded (r : Request) : Live :=
  {| live_id := sessionID r; live_session := session r; saved := false |}.

(** [req.login(user, done)] as Passport has it since the version whose
    [req.logout] takes a callback: the session is regenerated (the record
    of the old id is destroyed; the request gets a new id and an empty
    session, whatever [destroy] reports), then the serialized user is
    written into the new session and the session is saved. The third
    component tells whether [done] gets an error. The new session was not
    loaded by the middleware, so it counts as unsaved to the end. *)
Definition login (env : Env) (user : User) (sid : string) (w : World)
  : World * Live * bool :=
  if destroyFails env then
    (w, {| live_id := newSessionID env; live_session := emptySession;
           saved := false |}, true)
  else
    let w1 := destroy sid w in
    let s := {| linkedInState := None; passport_user := Some (user_id user) |} in
    let live := {| live_id := newSessionID env; live_session := s;
                   saved := false |} in
    if loginSaveFails env then (w1, live, true)
    else (store (newSessionID env) s w1, live, false).

(** A route leaves the store, the session of the request and the
    response. *)
Definition Outcome : Type := World * Live * Response.

(** [GET /auth/linkedin] *)
Definition linkedinInitiate (env : Env) (w : World) (r : Request) : Outcome :=
  let state := randomState env in
  let s := setState (Some state) (session r) in
  let live := {| live_id := sessionID r; live_session := s; saved := true |} in
  if saveFails env then (w, live, RedirectError "auth_init_failed")
  else (store (sessionID r) s w, live, RedirectLinkedIn state).

(** [GET /auth/linkedin/callback] *)
Definition linkedinCallback (env : Env) (w : World) (r : Request) : Outcome :=
  if from_option truthy false (q_error r) then
    (w, loaded r,
     RedirectProviderError (default JNull (q_error r)) (q_error_description r))
  else
    match sessions w !! sessionID r with
    | None => (w, loaded r, RedirectError "no_session")
    | Some verifySession =>
      if strictNeq (q_state r) (linkedInState verifySession) then
        (w, loaded r, RedirectError "invalid_state")
      else
        match accessToken env (q_code r) ≫= userinfo env with
        | None => (w, loaded r, RedirectError "auth_failed")
        | Some profileData =>
          let '(us, user) := linkedinUpsert env profileData (users w) in
          let w1 := {| sessions := sessions w; users := us |} in
          let '(w2, live, failed) := login env user (sessionID r) w1 in
          if failed then (w2, live, RedirectError "login_failed")
          else if saveFails env then (w2, live, RedirectError "session_error")
          else
            (store (live_id live) (live_session live) w2,
             {| live_id := live_id live;
                live_session := setState None (live_session live);
                saved := false |},
             RedirectProfile)
        end
    end.

(** *** The session middleware around a route

    The service installs [express-session] with [resave: true] and
    [saveUninitialized: true]: when the response ends, the session of the
    request is written to the store under the id the request then has,
    unless it is as a [save()] of this request left it, whether or not that
    [save()] reported an error. *)
Definition commit {R : Type} (o : World * Live * R) : World * R :=
  let '(w, live, resp) := o in
  (if saved live then w else store (live_id live) (live_session live) w, resp).

(** The session object at the start of a request: the stored record of the
    session id, or a new empty session. *)
Definition loadSession (w : World) (sid : string) : Session :=
  default emptySession (sessions w !! sid).

Definition serveInitiate (env : Env) (w : World) (r : Request) : World * Response :=
  commit (linkedinInitiate env w r).

Definition serveCallback (env : Env) (w : World) (r : Request) : World * Response :=
  commit (linkedinCallback env w r).

(** The request as the session middleware hands it to the route: its
    session object is the one loaded from the store. *)
Definition arrive (w : World) (r : Request) : Request :=
  {| sessionID := sessionID r;
     session := loadSession w (sessionID r);
     q_code := q_code r;
     q_state := q_state r;
     q_error := q_error r;
     q_error_description := q_error_description r |}.

(** No state is stored under a session id: the store has no record of
    it, or a record without [linkedInState]. *)
Definition stateless (w : World) (sid : string) : Prop :=
  ∀ s, sessions w !! sid = Some s → linkedInState s = None.

(** A sequence of callback requests, served one after the other. *)
Fixpoint callbacks (w : World) (attempts : list (Env * Request))
  : World * list Response :=
  match attempts with
  | [] => (w, [])
  | (env, r) :: rest =>
    let '(w1, resp) := serveCallback env w (arrive w r) in
    let '(w2, resps) := callbacks w1 rest in
    (w2, resp :: resps)
  end.

End Auth.

(** ** The rest of [index.js]: identities in the session, profile, logout
    and the Google callback *)

Module Account.
Import Auth.

(** [passport.serializeUser]: the session keeps the identifier of the
    user. *)
Definition serializeUser (u : User) : ObjectId := user_id u.

(** [passport.deserializeUser]: [User.findById(id)], [null] when no
    identity carries the identifier. *)
Definition deserializeUser (us : list User) (id : ObjectId) : option User :=
  List.find (λ u, bool_decide (user_id u = id)) us.

(** [req.user], as [passport.session()] derives it from the session of the
    request. *)
Definition requestUser (w : World) (r : Request) : option User :=
  passport_user (session r) ≫= deserializeUser (users w).

(** The body of a 200 answer of [GET /profile]. *)
Record ProfileJson : Type := {
  pj_name : option string;
  pj_email : option string;
  pj_profilePicture : option string;
  pj_platform : string;
  pj_lastLogin : Date;
}.

Inductive Reply : Type :=
  | Unauthorized                 (* 401 [{ error: 'Unauthorized' }] *)
  | ProfileOf (j : ProfileJson)  (* 200 *)
  | LoggedOut                    (* 200, with the session cookie cleared *)
  | Failed (error : string).     (* 500 [{ error }] *)

(** [GET /profile]: [req.isAuthenticated()] holds when [req.user] is set. *)
Definition getProfile (w : World) (r : Request) : Reply :=
  match requestUser w r with
  | None => Unauthorized
  | Some u =>
    ProfileOf {| pj_name := name u;
                 pj_email := email u;
                 pj_profilePicture := profilePicture u;
                 pj_platform := platform u;
                 pj_lastLogin := lastLogin u |}
  end.

(** How the two calls of [GET /logout] end. The route does not determine
    what a failing [req.logout] or [req.session.destroy] leaves in the
    session store: [remaining] is the store at that point. *)
Inductive LogoutRun : Type :=
  | LogoutError (remaining : gmap string Session)
  | DestroyError (remaining : gmap string Session)
  | Destroyed.

(** [GET /logout]. A destroyed session is removed from the store and is not
    written back when the response ends. *)
Definition logout (run : LogoutRun) (w : World) (r : Request) : World * Reply :=
  match run with
  | LogoutError remaining =>
    ({| sessions := remaining; users := users w |}, Failed "Logout error")
  | DestroyError remaining =>
    ({| sessions := remaining; users := users w |}, Failed "Session destroy error")
  | Destroyed =>
    ({| sessions := delete (sessionID r) (sessions w); users := users w |},
     LoggedOut)
  end.

(** What the Google strategy obtains on the callback request: the
    authorization is refused ([fail]), the exchange breaks ([error]), or
    the profile arrives. *)
Inductive Exchange : Type :=
  | Denied
  | Broken
  | Granted (profile : GoogleProfile).

Inductive GoogleReply : Type :=
  | Home                         (* [failureRedirect: '/'] *)
  | ServerError                  (* the error middleware, 500 *)
  | Frontend (resp : Response).

(** [GET /auth/google/callback]: [passport.authenticate('google')] runs the
    verify callback on the profile and logs the returned user in with
    [req.login]; an error of either goes to the error middleware. The
    route then saves the session and redirects. *)
Definition googleCallback (env : Env) (exchange : Exchange)
    (w : World) (r : Request) : World * Live * GoogleReply :=
  match exchange with
  | Denied => (w, loaded r, Home)
  | Broken => (w, loaded r, ServerError)
  | Granted profile =>
    match googleVerify env profile (users w) with
    | Throw _ => (w, loaded r, ServerError)
    | Ok (us, user) =>
      let w1 := {| sessions := sessions w; users := us |} in
      let '(w2, live, failed) := login env user (sessionID r) w1 in
      if failed then (w2, live, ServerError)
      else if saveFails env then
        (w2, live, Frontend (RedirectError "session_error"))
      else
        (store (live_id live) (live_session live) w2, live,
         Frontend RedirectProfile)
    end
  end.

(** The route with the session middleware around it. *)
Definition serveGoogle (env : Env) (exchange : Exchange)
    (w : World) (r : Request) : World * GoogleReply :=
  commit (googleCallback env exchange w r).

(** *** Invariants of the identity collection *)

(** No two identities share their [_id]. *)
Definition distinctIds (us : list User) : Prop := NoDup (user_id <$> us).

(** No two identities share the pair of [socialId] and [platform]. *)
Definition identityKey (u : User) : string * string := (socialId u, platform u).

Definition distinctIdentities (us : list User) : Prop :=
  NoDup (identityKey <$> us).

End Account.

(** ** Sample data *)

Module Sample.
Import Routes.

Definition alice : ObjectId := "aaaaaaaaaaaaaaaaaaaaaaaa".
Definition bob : ObjectId := "bbbbbbbbbbbbbbbbbbbbbbbb".
Definition projectId : ObjectId := "0123456789abcdef01234567".
Definition taskId : ObjectId := "89abcdef0123456789abcdef".
Definition freshId : ObjectId := "ffffffffffffffffffffffff".

Definition aliceProject : Doc :=
  {| doc_id := projectId;
     fields := {[ "name" := VStr "Site"; "description" := VStr "Landing page";
                  "owner" := VOid alice;
                  "createdAt" := VDate 1000; "updatedAt" := VDate 1000 ]} |}.

Definition aliceTask : Doc :=
  {| doc_id := taskId;
     fields := {[ "project" := VOid projectId; "name" := VStr "Draft";
                  "duration" := VNum 2; "owner" := VOid alice;
                  "createdAt" := VDate 1100; "updatedAt" := VDate 1100 ]} |}.

Definition db1 : DB := {| projects := [aliceProject]; tasks := [aliceTask] |}.

Definition emptyDb : DB := {| projects := []; tasks := [] |}.

Definition at2000 : Env := {| now := 2000; newId := freshId |}.
Definition at3000 : Env := {| now := 3000; newId := freshId |}.

Definition request (u : option ObjectId) (id : string)
    (b : gmap string jsval) : Request :=
  {| user := u; params_id := id; query_project := None; body := b |}.

(** Bob asks for Alice's project by its id. *)
Definition bobReads : Request := request (Some bob) projectId ∅.

(** A request without a user names Alice's task. *)
Definition anonymous : Request := request None taskId ∅.

(** The body of the test "should return error if project name is missing". *)
Definition missingName : Request :=
  request (Some alice) "" {[ "description" := JStr "Missing Name" ]}.

(** Alice renames her project. *)
Definition rename : Request :=
  request (Some alice) projectId {[ "name" := JStr "Shop" ]}.

(** Alice's project after the renaming at time [t]. *)
Definition renamed (t : Date) : Doc :=
  {| doc_id := projectId;
     fields := {[ "name" := VStr "Shop"; "description" := VStr "Landing page";
                  "owner" := VOid alice;
                  "createdAt" := VDate 1000; "updatedAt" := VDate t ]} |}.

Definition db2 (t : Date) : DB :=
  {| projects := [renamed t]; tasks := [aliceTask] |}.

(** Bob tries the same on Alice's project. *)
Definition bobRenames : Request :=
  request (Some bob) projectId {[ "name" := JStr "Shop" ]}.

(** Bob sends a start date that is none, for Alice's project. *)
Definition bobMisdates : Request :=
  request (Some bob) projectId {[ "startDate" := JStr "invalid-date" ]}.

(** The identifier of the test "should handle invalid project ID format". *)
Definition malformed : Request :=
  request (Some alice) "invalid-id-format" {[ "name" := JStr "Shop" ]}.

(** Alice deletes her project, then lists its tasks and reads its task. *)
Definition aliceDeletes : Request := request (Some alice) projectId ∅.

Definition aliceLists : Request :=
  {| user := Some alice; params_id := "";
     query_project := Some (JStr projectId); body := ∅ |}.

Definition aliceReadsTask : Request := request (Some alice) taskId ∅.

(** Bodies that claim an owner of their own. *)
Definition claimsOwner : Request :=
  request (Some alice) ""
    {[ "name" := JStr "Mine"; "owner" := JStr bob ]}.

Definition mine : Doc :=
  {| doc_id := freshId;
     fields := {[ "name" := VStr "Mine"; "owner" := VOid alice;
                  "createdAt" := VDate 2000; "updatedAt" := VDate 2000 ]} |}.

(** Task bodies: no usable [project], and a project Bob does not own. *)
Definition badProject : Request :=
  request (Some alice) "" {[ "project" := JStr "nope"; "name" := JStr "T" ]}.

Definition bobsTask : Request :=
  request (Some bob) "" {[ "project" := JStr projectId; "name" := JStr "T" ]}.

(** Task bodies whose [project] passes [ObjectId.isValid]: the id of
    Alice's project sent without a user, and a number sent by Alice. *)
Definition anonymousTask : Request :=
  request None "" {[ "project" := JStr projectId; "name" := JStr "T" ]}.

Definition numberProject : Request :=
  request (Some alice) "" {[ "project" := JNum 5; "name" := JStr "T" ]}.

Import Auth.

Definition sid : string := "session-1".

Definition mallory : LinkedInProfile :=
  {| sub := "li-7"; li_name := Some "Mallory"; li_email := Some "m@example.org";
     picture := None |}.

(** A provider that accepts the code [code-7] and returns Mallory's
    profile for the token it issues. *)
Definition provider : Env :=
  {| now := 5000; newId := freshId; randomState := "9f86d081884c7d65";
     accessToken c :=
       match c with
       | Some (JStr code) =>
         if String.eqb code "code-7" then Some (Some "token-7") else None
       | _ => None
       end;
     userinfo t :=
       match t with
       | Some token => if String.eqb token "token-7" then Some mallory else None
       | None => None
       end;
     newSessionID := "session-2";
     destroyFails := false;
     loginSaveFails := false;
     saveFails := false |}.

(** A session that exists but on which no flow was initiated. *)
Definition idle : World :=
  {| sessions := {[ sid := emptySession ]}; users := [] |}.

(** A callback with a code and without [state]. *)
Definition noState : Request :=
  {| sessionID := sid; session := emptySession;
     q_code := Some (JStr "code-7"); q_state := None;
     q_error := None; q_error_description := None |}.

(** A session with a pending state, and the callback that presents it. *)
Definition pendingSession : Session :=
  {| linkedInState := Some "9f86d081884c7d65"; passport_user := None |}.

Definition pending : World :=
  {| sessions := {[ sid := pendingSession ]}; users := [] |}.

Definition goodCallback : Request :=
  {| sessionID := sid; session := pendingSession;
     q_code := Some (JStr "code-7"); q_state := Some (JStr "9f86d081884c7d65");
     q_error := None; q_error_description := None |}.

(** Mallory's identity, and a store in which [sid] is bound to it. *)
Definition malloryUser : User :=
  {| user_id := freshId; socialId := "li-7"; name := Some "Mallory";
     email := Some "m@example.org"; platform := "linkedin";
     profilePicture := Some ""; createdAt := 5000; lastLogin := 5000 |}.

Definition loggedIn : World :=
  {| sessions :=
       {[ sid := {| linkedInState := None; passport_user := Some freshId |} ]};
     users := [malloryUser] |}.

(** The store after [goodCallback] with its session regenerated. *)
Definition afterLogin : World :=
  {| sessions :=
       {[ "session-2" :=
            {| linkedInState := None; passport_user := Some freshId |} ]};
     users := [malloryUser] |}.

(** The browser after the login: it presents the new session id and the
    state that was consumed. *)
Definition replayNew : Request :=
  {| sessionID := "session-2"; session := emptySession;
     q_code := Some (JStr "code-7"); q_state := Some (JStr "9f86d081884c7d65");
     q_error := None; q_error_description := None |}.

(** An identity created by the LinkedIn path, and a Google profile with
    the same subject id. *)
Definition linkedinUser : User :=
  {| user_id := alice; socialId := "42"; name := Some "Old Name";
     email := Some "old@example.org"; platform := "linkedin";
     profilePicture := Some ""; createdAt := 1000; lastLogin := 1000 |}.

Definition googleProfile : GoogleProfile :=
  {| g_id := "42"; displayName := Some "New Name";
     emails := ["new@example.org"]; photos := ["https://example.org/p.png"] |}.

End Sample.

(** ** Further requests *)

Module Cases.
Import Routes Sample.

(** Alice adds a task to her project; the second body has no name. *)
Definition aliceAddsTask : Request :=
  request (Some alice) ""
    {[ "project" := JStr projectId; "name" := JStr "Review";
       "duration" := JNum 3 ]}.

Definition namelessTask : Request :=
  request (Some alice) "" {[ "project" := JStr projectId ]}.

(** The task that [aliceAddsTask] creates at time 2000. *)
Definition review : Doc :=
  {| doc_id := freshId;
     fields := {[ "project" := VOid projectId; "name" := VStr "Review";
                  "duration" := VNum 3; "owner" := VOid alice;
                  "createdAt" := VDate 2000; "updatedAt" := VDate 2000 ]} |}.

(** Alice reads the document with the generated identifier. *)
Definition aliceReadsFresh : Request := request (Some alice) freshId ∅.


(** Alice names Bob as the owner of her project. *)
Definition aliceGivesAway : Request :=
  request (Some alice) projectId {[ "owner" := JStr bob ]}.

(** Alice moves her task to a project that does not exist. *)
Definition aliceMovesTask : Request :=
  request (Some alice) taskId {[ "project" := JStr freshId ]}.

(** A listing with a [project] parameter that is no identifier. *)
Definition listsBadProject : Request :=
  {| user := Some alice; params_id := "";
     query_project := Some (JStr "nope"); body := ∅ |}.


Import Auth.

(** The request that starts the LinkedIn flow on an idle session. *)
Definition startFlow : Request :=
  {| sessionID := sid; session := emptySession;
     q_code := None; q_state := None;
     q_error := None; q_error_description := None |}.

(** A callback that presents a state issued earlier. *)
Definition staleCallback : Request :=
  {| sessionID := sid; session := pendingSession;
     q_code := Some (JStr "code-7"); q_state := Some (JStr "0123456789abcdef");
     q_error := None; q_error_description := None |}.

(** A provider whose profile is accepted, with the save that ends
    [req.login] failing. *)
Definition failingLogin : Env :=
  {| now := now provider; newId := newId provider;
     randomState := randomState provider;
     accessToken := accessToken provider; userinfo := userinfo provider;
     newSessionID := newSessionID provider;
     destroyFails := false; loginSaveFails := true; saveFails := false |}.

(** A Google profile without an e-mail address. *)
Definition bareProfile : GoogleProfile :=
  {| g_id := "77"; displayName := Some "No Mail"; emails := []; photos := [] |}.

(** The identity the Google path creates for [googleProfile]. *)
Definition googleUser : User :=
  {| user_id := freshId; socialId := "42"; name := Some "New Name";
     email := Some "new@example.org"; platform := "google";
     profilePicture := Some "https://example.org/p.png";
     createdAt := 5000; lastLogin := 5000 |}.

End Cases.

(** * Properties *)

(** ** The error monad *)

Lemma bind_Ok_inv {A B} (r : result A) (k : A → result B) (b : B) :
  r ≫= k = Ok b → ∃ a, r = Ok a ∧ k a = Ok b.
Proof. destruct r as [a|e]; simpl; [eauto | discriminate]. Qed.

Lemma bind_Throw_inv {A B} (r : result A) (k : A → result B) (e : Err) :
  r ≫= k = Throw e → r = Throw e ∨ ∃ a, r = Ok a ∧ k a = Throw e.
Proof. destruct r as [a|e']; simpl; [eauto | intros [= ->]; auto]. Qed.

Lemma bind_Ok {A B} (a : A) (k : A → result B) : Ok a ≫= k = k a.
Proof. reflexivity. Qed.

(** ** The document store *)

Module RouteFacts.
Import Routes.

Section Facts.
Context `{M : Mongoose}.

#[local] Arguments cast : simpl never.

Lemma projectSchema_owner : ownerPath projectSchema.
Proof. reflexivity. Qed.

Lemma taskSchema_owner : ownerPath taskSchema.
Proof. reflexivity. Qed.

Lemma cast_oid t o : t = TObjectId → cast t (JOid o) = Some (VOid o).
Proof. by intros ->. Qed.

Lemma cast_id_string s :
  cast TObjectId (JStr s) = VOid <$> castObjectId (JStr s).
Proof. reflexivity. Qed.

(** *** Casting *)

Lemma castPaths_supplied sch obj m k w :
  castPaths sch obj = Ok m → m !! k = Some w → is_Some (obj !! k).
Proof.
  revert m. induction sch as [|[k' p] sch IH]; simpl; intros m H Hk.
  - injection H as <-. by rewrite lookup_empty in Hk.
  - apply bind_Ok_inv in H as (rest & Hrest & H).
    destruct (obj !! k') as [v|] eqn:Hv.
    + destruct (cast (ptype p) v) as [w'|]; [|done].
      injection H as <-.
      destruct (decide (k' = k)) as [->|Hne]; [by eauto|].
      rewrite lookup_insert_ne in Hk by done. eauto.
    + injection H as <-. eauto.
Qed.

Lemma castPaths_lookup sch obj m k p v :
  castPaths sch obj = Ok m → lookupPath sch k = Some p → obj !! k = Some v →
  ∃ w, cast (ptype p) v = Some w ∧ m !! k = Some w.
Proof.
  revert m. induction sch as [|[k' p'] sch IH]; simpl; intros m H Hp Hv; [done|].
  apply bind_Ok_inv in H as (rest & Hrest & H).
  destruct (decide (k' = k)) as [->|Hne].
  - injection Hp as ->. rewrite Hv in H.
    destruct (cast (ptype p) v) as [w|]; [|done].
    injection H as <-. exists w. by rewrite lookup_insert_eq.
  - destruct (IH rest Hrest Hp Hv) as (w & Hc & Hw). exists w. split; [done|].
    destruct (obj !! k') as [v'|].
    + destruct (cast (ptype p') v'); [|done]. injection H as <-.
      by rewrite lookup_insert_ne.
    + by injection H as <-.
Qed.

Lemma validate_Ok sch obj m :
  validate sch obj = Ok m → castPaths sch obj = Ok m.
Proof. unfold validate. by destruct (List.filter _ _). Qed.

Lemma validate_fails sch obj kp :
  kp ∈ sch → pathFails obj kp = true → ∃ e, validate sch obj = Throw e.
Proof.
  intros Hin Hf. unfold validate.
  destruct (List.filter (pathFails obj) sch) as [|x l] eqn:E; [|by eauto].
  assert (In kp (List.filter (pathFails obj) sch)) as Hkp.
  { apply filter_In. split; [by apply list_elem_of_In|done]. }
  rewrite E in Hkp. destruct Hkp.
Qed.

Lemma stamp_lookup env flds k :
  k ≠ "createdAt" → k ≠ "updatedAt" → stamp env flds !! k = flds !! k.
Proof.
  intros H1 H2. unfold stamp.
  rewrite lookup_insert_ne by done. by rewrite lookup_insert_ne.
Qed.

(** What [create] returns is what it stored, under an identifier that was
    free, and its schema paths are the casts of the object's. *)
Lemma create_Ok sch env coll obj coll' d :
  create sch env coll obj = Ok (coll', d) →
  coll' = coll ++ [d] ∧ (doc_id d ∉ (doc_id <$> coll)) ∧
  ∃ flds, castPaths (sch ++ timestamps) obj = Ok flds ∧ fields d = stamp env flds.
Proof.
  unfold create. intros H.
  apply bind_Ok_inv in H as (flds & Hflds & H).
  apply bind_Ok_inv in H as (id & Hid & H).
  case_bool_decide as Hdup; [done|]. injection H as <- <-.
  repeat split; [done|]. exists flds. split; [by apply validate_Ok|done].
Qed.

Lemma lookupPath_app_l sch sch' k p :
  lookupPath sch k = Some p → lookupPath (sch ++ sch') k = Some p.
Proof.
  induction sch as [|[k' p'] sch IH]; simpl; [done|].
  by destruct (decide (k' = k)).
Qed.

Lemma create_owner sch env coll obj coll' d u :
  ownerPath sch →
  obj !! "owner" = Some (JOid u) →
  create sch env coll obj = Ok (coll', d) →
  owner d = Some (VOid u).
Proof.
  intros Hsch Hobj H. apply create_Ok in H as (_ & _ & flds & Hflds & Hd).
  unfold ownerPath, pathType in Hsch. simpl in Hsch.
  destruct (lookupPath (sch ++ timestamps) "owner") as [p|] eqn:Hp; [|done].
  injection Hsch as Ht.
  destruct (castPaths_lookup _ _ _ _ _ _ Hflds Hp Hobj) as (w & Hw & Hl).
  rewrite (cast_oid _ _ Ht) in Hw. injection Hw as <-.
  unfold owner. rewrite Hd. by rewrite stamp_lookup.
Qed.

(** *** Filters on identifier and owner *)

Lemma castFilter_id_owner sch v u :
  ownerPath sch →
  castFilter sch [("_id", v); ("owner", JOid u)] =
  match cast TObjectId v with
  | Some w => Ok [("_id", w); ("owner", VOid u)]
  | None => Throw (CastError "_id")
  end.
Proof.
  intros Hsch. simpl. rewrite Hsch. simpl.
  change (pathType sch "_id") with (Some TObjectId).
  by destruct (cast TObjectId v).
Qed.

Lemma matches_id_owner w u d :
  matches [("_id", w); ("owner", VOid u)] d = true ↔
  w = VOid (doc_id d) ∧ owner d = Some (VOid u).
Proof.
  unfold matches, matches1, getPath, owner. simpl.
  rewrite !andb_true_iff.
  destruct (fields d !! "owner") as [x|]; rewrite !bool_decide_eq_true.
  - split; [intros ([= ->] & -> & _) | intros (-> & [= ->])]; done.
  - split; [intros (_ & [=] & _) | intros (_ & [=])].
Qed.

Lemma matches_ownedBy oid u d :
  matches (idOwner oid u) d = true ↔ ownedBy u oid d.
Proof.
  unfold idOwner. rewrite matches_id_owner. unfold ownedBy.
  split; [intros ([= ->] & ?) | intros (-> & ?)]; done.
Qed.

Lemma find_None_iff (P : Doc → bool) coll :
  List.find P coll = None ↔ ∀ d, d ∈ coll → P d = false.
Proof.
  split.
  - intros H d Hd. apply (find_none _ _ H). by apply list_elem_of_In.
  - intros H. induction coll as [|d c IH]; simpl; [done|].
    rewrite (H d) by left. apply IH. intros d' Hd'. apply H. by right.
Qed.

Lemma find_Some_elem (P : Doc → bool) coll d :
  List.find P coll = Some d → d ∈ coll ∧ P d = true.
Proof. intros H. apply find_some in H as [H1 H2]. by rewrite list_elem_of_In. Qed.

Lemma no_owned_no_match oid u coll :
  (∀ d, d ∈ coll → ¬ ownedBy u oid d) →
  List.find (matches (idOwner oid u)) coll = None.
Proof.
  intros H. apply find_None_iff. intros d Hd.
  apply not_true_is_false. rewrite matches_ownedBy. by apply H.
Qed.

(** *** The first matching document *)

Lemma find_split (P : Doc → bool) coll d :
  List.find P coll = Some d →
  ∃ l1 l2, coll = l1 ++ d :: l2 ∧ (∀ x, x ∈ l1 → P x = false) ∧ P d = true.
Proof.
  induction coll as [|x c IH]; simpl; [done|].
  destruct (P x) eqn:Hx.
  - intros [= ->]. exists [], c. repeat split; [|done]. by intros y Hy%elem_of_nil.
  - intros (l1 & l2 & -> & Hl1 & Hd)%IH. exists (x :: l1), l2.
    repeat split; [|done]. intros y [->|Hy]%elem_of_cons; auto.
Qed.

Lemma updateFirst_split (P : Doc → bool) g l1 d l2 :
  (∀ x, x ∈ l1 → P x = false) → P d = true →
  updateFirst P g (l1 ++ d :: l2) = l1 ++ g d :: l2.
Proof.
  intros Hl1 Hd. induction l1 as [|x l1 IH]; simpl.
  - by rewrite Hd.
  - rewrite (Hl1 x) by left. f_equal. apply IH. intros y Hy. apply Hl1. by right.
Qed.

Lemma removeFirst_split (P : Doc → bool) l1 d l2 :
  (∀ x, x ∈ l1 → P x = false) → P d = true →
  removeFirst P (l1 ++ d :: l2) = l1 ++ l2.
Proof.
  intros Hl1 Hd. induction l1 as [|x l1 IH]; simpl.
  - by rewrite Hd.
  - rewrite (Hl1 x) by left. f_equal. apply IH. intros y Hy. apply Hl1. by right.
Qed.

Lemma removeFirst_none (P : Doc → bool) coll :
  (∀ x, x ∈ coll → P x = false) → removeFirst P coll = coll.
Proof.
  intros H. induction coll as [|x c IH]; simpl; [done|].
  rewrite (H x) by left. f_equal. apply IH. intros y Hy. apply H. by right.
Qed.

Lemma find_app_None (P : Doc → bool) l1 l2 :
  (∀ x, x ∈ l1 → P x = false) → List.find P (l1 ++ l2) = List.find P l2.
Proof.
  intros Hl1. induction l1 as [|x l1 IH]; simpl; [done|].
  rewrite (Hl1 x) by left. apply IH. intros y Hy. apply Hl1. by right.
Qed.

Lemma uniqueIds_eq coll d1 d2 :
  uniqueIds coll → d1 ∈ coll → d2 ∈ coll → doc_id d1 = doc_id d2 → d1 = d2.
Proof.
  unfold uniqueIds. induction coll as [|x c IH]; simpl.
  - by intros _ ?%elem_of_nil.
  - intros [Hx Hc]%NoDup_cons [->|H1]%elem_of_cons [->|H2]%elem_of_cons Heq;
      [done| | |by apply IH].
    + destruct Hx. rewrite Heq. by apply list_elem_of_fmap_2.
    + destruct Hx. rewrite <- Heq. by apply list_elem_of_fmap_2.
Qed.

(** *** Conditional update and delete *)

Lemma update_inv sch env coll r coll' res :
  ownerPath sch →
  (u ← userId r;
   findOneAndUpdate sch env coll
     [("_id", JStr (params_id r)); ("owner", JOid u)] (body r)) = Ok (coll', res) →
  ∃ u oid sets,
    user r = Some u ∧ castObjectId (JStr (params_id r)) = Some oid ∧
    castUpdate sch (body r) = Ok sets ∧
    match List.find (matches (idOwner oid u)) coll with
    | None => coll' = coll ∧ res = None
    | Some d =>
      coll' = updateFirst (matches (idOwner oid u)) (applyUpdate env sets) coll ∧
      res = Some (applyUpdate env sets d)
    end.
Proof.
  intros Hsch H. unfold userId in H.
  destruct (user r) as [u|]; simpl in H; [|done].
  unfold findOneAndUpdate in H.
  rewrite (castFilter_id_owner _ _ _ Hsch), cast_id_string in H.
  destruct (castObjectId (JStr (params_id r))) as [oid|]; simpl in H; [|done].
  destruct (castUpdate sch (body r)) as [sets|]; simpl in H; [|done].
  destruct (idUpdate (body r)) as [newid|]; simpl in H; [|done].
  exists u, oid, sets. repeat split; try done.
  fold (idOwner oid u) in H.
  destruct (List.find (matches (idOwner oid u)) coll) as [d|].
  - destruct (match newid with Some _ => _ | None => _ end); [|done].
    by injection H as <- <-.
  - by injection H as <- <-.
Qed.

Lemma update_not_found sch env coll r u oid sets newid :
  ownerPath sch →
  user r = Some u → castObjectId (JStr (params_id r)) = Some oid →
  castUpdate sch (body r) = Ok sets → idUpdate (body r) = Ok newid →
  (∀ d, d ∈ coll → ¬ ownedBy u oid d) →
  (u ← userId r;
   findOneAndUpdate sch env coll
     [("_id", JStr (params_id r)); ("owner", JOid u)] (body r)) = Ok (coll, None).
Proof.
  intros Hsch Hu Hoid Hsets Hid Hnone. unfold userId. rewrite Hu. simpl.
  unfold findOneAndUpdate.
  rewrite (castFilter_id_owner _ _ _ Hsch), cast_id_string, Hoid. simpl.
  rewrite Hsets. simpl. rewrite Hid. simpl.
  fold (idOwner oid u). by rewrite (no_owned_no_match _ _ _ Hnone).
Qed.

Lemma delete_inv sch coll r coll' res :
  ownerPath sch →
  (u ← userId r;
   findOneAndDelete sch coll
     [("_id", JStr (params_id r)); ("owner", JOid u)]) = Ok (coll', res) →
  ∃ u oid,
    user r = Some u ∧ castObjectId (JStr (params_id r)) = Some oid ∧
    coll' = removeFirst (matches (idOwner oid u)) coll ∧
    res = List.find (matches (idOwner oid u)) coll.
Proof.
  intros Hsch H. unfold userId in H.
  destruct (user r) as [u|]; simpl in H; [|done].
  unfold findOneAndDelete in H.
  rewrite (castFilter_id_owner _ _ _ Hsch), cast_id_string in H.
  destruct (castObjectId (JStr (params_id r))) as [oid|]; simpl in H; [|done].
  injection H as <- <-. by exists u, oid.
Qed.

Lemma delete_not_found sch coll r u oid :
  ownerPath sch →
  user r = Some u → castObjectId (JStr (params_id r)) = Some oid →
  (∀ d, d ∈ coll → ¬ ownedBy u oid d) →
  (u ← userId r;
   findOneAndDelete sch coll
     [("_id", JStr (params_id r)); ("owner", JOid u)]) = Ok (coll, None).
Proof.
  intros Hsch Hu Hoid Hnone. unfold userId. rewrite Hu. simpl.
  unfold findOneAndDelete.
  rewrite (castFilter_id_owner _ _ _ Hsch), cast_id_string, Hoid. simpl.
  fold (idOwner oid u). rewrite (no_owned_no_match _ _ _ Hnone).
  rewrite removeFirst_none; [done|].
  by apply find_None_iff, no_owned_no_match.
Qed.

Lemma found_owned coll r u oid d :
  user r = Some u → castObjectId (JStr (params_id r)) = Some oid →
  List.find (matches (idOwner oid u)) coll = Some d → owned coll r.
Proof.
  intros Hu Hoid [Hd Hm]%find_Some_elem. exists u, oid, d.
  by rewrite <- matches_ownedBy.
Qed.

Lemma not_owned_none coll r u oid :
  user r = Some u → castObjectId (JStr (params_id r)) = Some oid →
  ¬ owned coll r → ∀ d, d ∈ coll → ¬ ownedBy u oid d.
Proof. intros Hu Hoid Hno d Hd Hown. apply Hno. by exists u, oid, d. Qed.

Lemma update_conditional sch env coll r msg db (mk : list Doc → DB) :
  ownerPath sch → mk coll = db →
  conditional coll (plainUpdate (body r) = true) (accepted sch r) msg db r
    match
      u ← userId r;
      findOneAndUpdate sch env coll
        [("_id", JStr (params_id r)); ("owner", JOid u)] (body r)
    with
    | Ok (_, None) => (db, respond 404 (JError (Text msg)))
    | Ok (c, Some d) => (mk c, respond 200 (JDoc d))
    | Throw e => (db, internalError e)
    end.
Proof.
  intros Hsch Hmk. unfold conditional.
  split; [|split; [|split; [|split; [|split]]]].
  - destruct (_ ≫= _) as [[c [d'|]]|e] eqn:E; simpl; [|done..]. intros _.
    apply (update_inv _ _ _ _ _ _ Hsch) in E
      as (u & oid & sets & Hu & Hoid & _ & E).
    destruct (List.find _ coll) as [d|] eqn:Hfind; [|by destruct E].
    by apply (found_owned _ _ _ _ _ Hu Hoid Hfind).
  - by destruct (_ ≫= _) as [[c [d'|]]|e].
  - intros Hu. unfold userId. by rewrite Hu.
  - intros [u Hu] Hoid. unfold userId, findOneAndUpdate. rewrite Hu.
    cbn [mbind result_bind].
    by rewrite (castFilter_id_owner _ _ _ Hsch), cast_id_string, Hoid.
  - intros [u Hu] [oid Hoid] _ Hno. unfold userId, findOneAndUpdate.
    rewrite Hu. cbn [mbind result_bind].
    rewrite (castFilter_id_owner _ _ _ Hsch), cast_id_string, Hoid.
    cbn [fmap option_fmap option_map mbind result_bind].
    destruct (castUpdate sch (body r)) as [sets|e] eqn:Hsets;
      cbn [mbind result_bind]; [|by eauto].
    destruct (idUpdate (body r)) as [newid|e] eqn:Hid;
      cbn [mbind result_bind]; [|by eauto].
    destruct Hno. split; by eauto.
  - intros [u Hu] [oid Hoid] _ [[sets Hsets] [newid Hid]] Hno.
    rewrite (update_not_found _ env _ _ _ _ _ _ Hsch Hu Hoid Hsets Hid);
      [done|].
    by eapply not_owned_none.
Qed.

Lemma deleteMany_project coll s oid :
  castObjectId (JStr s) = Some oid →
  deleteMany taskSchema coll [("project", JStr s)] =
  Ok (List.filter (λ t, negb (bool_decide (refersTo oid t))) coll).
Proof.
  intros Hoid. unfold deleteMany. simpl.
  change (pathType taskSchema "project") with (Some TObjectId). simpl.
  rewrite cast_id_string, Hoid. simpl. f_equal.
  apply filter_ext. intros t. f_equal.
  unfold matches, matches1, getPath. simpl. rewrite andb_true_r.
  destruct (bool_decide (refersTo oid t)) eqn:Hb.
  - apply bool_decide_eq_true in Hb. unfold refersTo in Hb. rewrite Hb.
    by apply bool_decide_eq_true_2.
  - apply bool_decide_eq_false in Hb. unfold refersTo in Hb.
    destruct (fields t !! "project") as [x|]; [|done].
    apply bool_decide_eq_false_2. by intros ->.
Qed.

Lemma deleteProject_conditional db r :
  conditional (projects db) True True
    "Project not found or you do not own this project" db r (deleteProject db r).
Proof.
  unfold conditional, deleteProject.
  split; [|split; [|split; [|split; [|split]]]].
  - destruct (_ ≫= _) as [[c [d'|]]|e] eqn:E; simpl; [|done..]. intros _.
    apply (delete_inv _ _ _ _ _ projectSchema_owner) in E
      as (u & oid & Hu & Hoid & _ & E).
    symmetry in E. by apply (found_owned _ _ _ _ _ Hu Hoid E).
  - destruct (_ ≫= _) as [[c [d'|]]|e]; simpl; [|done..].
    by destruct (deleteMany _ _ _).
  - intros Hu. unfold userId. by rewrite Hu.
  - intros [u Hu] Hoid. unfold userId, findOneAndDelete. rewrite Hu.
    cbn [mbind result_bind].
    by rewrite (castFilter_id_owner _ _ _ projectSchema_owner),
      cast_id_string, Hoid.
  - intros _ _ _ Hno. by destruct Hno.
  - intros [u Hu] [oid Hoid] _ _ Hno.
    rewrite (delete_not_found _ _ _ _ _ projectSchema_owner Hu Hoid); [done|].
    by eapply not_owned_none.
Qed.

Lemma deleteTask_conditional db r :
  conditional (tasks db) True True
    "Task not found or you do not own this task" db r (deleteTask db r).
Proof.
  unfold conditional, deleteTask.
  split; [|split; [|split; [|split; [|split]]]].
  - destruct (_ ≫= _) as [[c [d'|]]|e] eqn:E; simpl; [|done..]. intros _.
    apply (delete_inv _ _ _ _ _ taskSchema_owner) in E
      as (u & oid & Hu & Hoid & _ & E).
    symmetry in E. by apply (found_owned _ _ _ _ _ Hu Hoid E).
  - by destruct (_ ≫= _) as [[c [d'|]]|e].
  - intros Hu. unfold userId. by rewrite Hu.
  - intros [u Hu] Hoid. unfold userId, findOneAndDelete. rewrite Hu.
    cbn [mbind result_bind].
    by rewrite (castFilter_id_owner _ _ _ taskSchema_owner),
      cast_id_string, Hoid.
  - intros _ _ _ Hno. by destruct Hno.
  - intros [u Hu] [oid Hoid] _ _ Hno.
    rewrite (delete_not_found _ _ _ _ _ taskSchema_owner Hu Hoid); [done|].
    by eapply not_owned_none.
Qed.

(** C8, amended: an Update or Delete of a Project or Task succeeds only on a
    document whose id and owner match the request. When no document
    matches, the answer is 404 and the database is as it was, provided
    that a user is attached, the identifier casts and, for an update whose
    body has no operator keys, the body passes casting and validation. The
    answer is 500, again with the database as it was, when no user is
    attached, when the identifier does not cast, and when the body of such
    an update does not pass casting and validation, whether or not a
    document matches. *)
Theorem conditional_writes env db r :
  conditional (projects db) (plainUpdate (body r) = true)
    (accepted projectSchema r)
    "Project not found or you do not own this project" db r
    (updateProject env db r) ∧
  conditional (projects db) True True
    "Project not found or you do not own this project" db r
    (deleteProject db r) ∧
  conditional (tasks db) (plainUpdate (body r) = true)
    (accepted taskSchema r)
    "Task not found or you do not own this task" db r
    (updateTask env db r) ∧
  conditional (tasks db) True True
    "Task not found or you do not own this task" db r
    (deleteTask db r).
Proof.
  split; [|split; [|split]].
  - apply (update_conditional projectSchema env (projects db) r _ db
             (λ c, {| projects := c; tasks := tasks db |}) projectSchema_owner).
    by destruct db.
  - apply deleteProject_conditional.
  - apply (update_conditional taskSchema env (tasks db) r _ db
             (λ c, {| projects := projects db; tasks := c |}) taskSchema_owner).
    by destruct db.
  - apply deleteTask_conditional.
Qed.

(** *** Partial update *)

Lemma castUpdate_Ok sch upd sets :
  castUpdate sch upd = Ok sets → castPaths sch upd = Ok sets.
Proof.
  unfold castUpdate. destruct (List.find _ _); [done|].
  destruct (castPaths sch upd) as [m|]; simpl; [|done].
  destruct (List.filter _ _); [|done]. by intros [= ->].
Qed.



Lemma uniqueIds_after l1 d l2 x :
  uniqueIds (l1 ++ d :: l2) → x ∈ l2 → doc_id x ≠ doc_id d.
Proof.
  unfold uniqueIds. rewrite fmap_app, fmap_cons.
  intros (_ & _ & [Hd _]%NoDup_cons)%NoDup_app Hx Heq.
  apply Hd. rewrite <- Heq. by apply list_elem_of_fmap_2.
Qed.



(** *** Cascading delete *)






(** *** Creating documents *)

Lemma create_without_name env coll obj :
  obj !! "name" = None →
  ∃ e, create projectSchema env coll obj = Throw e.
Proof.
  intros Hname. unfold create.
  destruct (validate_fails (projectSchema ++ timestamps) obj
              ("name", mandatory TString)) as [e He].
  - by left.
  - unfold pathFails. simpl. by rewrite Hname.
  - exists e. by rewrite He.
Qed.

(** C5, as the code has it: a [POST /projects] whose body lacks [name] is
    answered with status 500 and the message of the validation error (not
    with status 400), and the database is left as it was. *)
Theorem createProject_without_name env db r :
  body r !! "name" = None →
  ∃ e, createProject env db r = (db, respond 500 (JError (ErrMessage e))).
Proof.
  intros Hname. unfold createProject, userId.
  destruct (user r) as [u|]; simpl; [|by eauto].
  destruct (create_without_name env (projects db) (<["owner" := JOid u]> (body r)))
    as [e He].
  - by rewrite lookup_insert_ne.
  - rewrite He. by eauto.
Qed.

Lemma pick_lookup keys b k :
  pick keys b !! k = if bool_decide (k ∈ keys) then b !! k else None.
Proof.
  induction keys as [|k' keys IH]; simpl.
  - by rewrite lookup_empty.
  - destruct (decide (k = k')) as [->|Hne].
    + rewrite bool_decide_eq_true_2 by left.
      destruct (b !! k') as [v|] eqn:Hv.
      * by rewrite lookup_insert_eq.
      * rewrite IH. by case_bool_decide.
    + assert (bool_decide (k ∈ k' :: keys) = bool_decide (k ∈ keys)) as ->.
      { apply bool_decide_ext. rewrite elem_of_cons.
        split; [by intros [?|?] | by right]. }
      destruct (b !! k'); [rewrite lookup_insert_ne by done|]; apply IH.
Qed.

Lemma createProject_created env db r db' resp :
  createProject env db r = (db', resp) → status resp = 201 →
  ∃ u d, user r = Some u ∧ resp = respond 201 (JDoc d) ∧
    owner d = Some (VOid u) ∧
    db' = {| projects := projects db ++ [d]; tasks := tasks db |}.
Proof.
  unfold createProject, userId. intros H Hst.
  destruct (user r) as [u|]; simpl in H; [|by injection H as <- <-].
  destruct (create _ _ _ _) as [[ps d]|e] eqn:Hc; [|by injection H as <- <-].
  injection H as <- <-. exists u, d.
  pose proof (create_owner _ _ _ _ _ _ u projectSchema_owner
                (lookup_insert_eq _ _ _) Hc) as Ho.
  by apply create_Ok in Hc as (-> & _).
Qed.

Lemma createTask_created env db r db' resp :
  createTask env db r = (db', resp) → status resp = 201 →
  ∃ u d, user r = Some u ∧ resp = respond 201 (JDoc d) ∧
    owner d = Some (VOid u) ∧
    db' = {| projects := projects db; tasks := tasks db ++ [d] |}.
Proof.
  unfold createTask, userId. intros H Hst.
  destruct (body r !! "project") as [v|]; [|by injection H as <- <-].
  destruct (negb (isValid v)); [by injection H as <- <-|].
  destruct (user r) as [u|]; simpl in H; [|by injection H as <- <-].
  destruct (findOne _ _ _) as [[p|]|e]; simpl in H;
    [|by injection H as <- <-..].
  destruct (create _ _ _ _) as [[ts d]|e] eqn:Hc; [|by injection H as <- <-].
  injection H as <- <-. exists u, d.
  pose proof (create_owner _ _ _ _ _ _ u taskSchema_owner
                (lookup_insert_eq _ _ _) Hc) as Ho.
  by apply create_Ok in Hc as (-> & _).
Qed.

(** C10: a document created by [POST /projects] or [POST /tasks] is stored
    with the requesting user's id as its [owner], whatever the body says
    about [owner]; it is the one document the request adds. *)
Theorem created_owner_is_requester env db r db' resp :
  createProject env db r = (db', resp) ∨ createTask env db r = (db', resp) →
  status resp = 201 →
  ∃ u d, user r = Some u ∧ json resp = JDoc d ∧ owner d = Some (VOid u) ∧
    (projects db' = projects db ++ [d] ∧ tasks db' = tasks db ∨
     tasks db' = tasks db ++ [d] ∧ projects db' = projects db).
Proof.
  intros [H|H] Hst.
  - destruct (createProject_created _ _ _ _ _ H Hst) as (u & d & Hu & -> & Ho & ->).
    exists u, d. simpl. by eauto 10.
  - destruct (createTask_created _ _ _ _ _ H Hst) as (u & d & Hu & -> & Ho & ->).
    exists u, d. simpl. by eauto 10.
Qed.

(** A [POST /tasks] that is not answered with 201 leaves the database as
    it was. *)
Lemma createTask_unchanged env db r :
  status (createTask env db r).2 ≠ 201 → (createTask env db r).1 = db.
Proof.
  unfold createTask.
  destruct (body r !! "project") as [v|]; [|done].
  destruct (negb (isValid v)); [done|].
  destruct (_ ≫= _) as [[u [p|]]|e]; [|done..].
  by destruct (create _ _ _ _) as [[ts d]|e].
Qed.

(** C6, amended: [POST /tasks] answers 400 when [project] does not pass
    [ObjectId.isValid]. When it passes, the answer is 404 if a user is
    attached, the query casts the value to an identifier and the requester
    owns no project with that identifier; it is 500 if no user is attached
    or the query cannot cast the value. In all these cases the database is
    left as it was, so no task is created. *)
Theorem createTask_bad_project env db r :
  (from_option isValid false (body r !! "project") = false →
   createTask env db r = (db, respond 400 (JError (Text "Invalid project id")))) ∧
  (∀ v u oid,
     body r !! "project" = Some v → isValid v = true →
     cast TObjectId v = Some (VOid oid) → user r = Some u →
     (∀ d, d ∈ projects db → ¬ ownedBy u oid d) →
     createTask env db r =
     (db, respond 404
            (JError (Text "Parent project not found or you do not own this project")))) ∧
  (∀ v,
     body r !! "project" = Some v → isValid v = true →
     (user r = None → createTask env db r = (db, internalError TypeError)) ∧
     (is_Some (user r) → cast TObjectId v = None →
      createTask env db r = (db, internalError (CastError "_id")))) ∧
  (status (createTask env db r).2 ≠ 201 → (createTask env db r).1 = db).
Proof.
  split; [|split; [|split; [|apply createTask_unchanged]]].
  - unfold createTask. destruct (body r !! "project") as [v|]; simpl; [|done].
    by intros ->.
  - intros v u oid Hv Hvalid Hcast Hu Hnone. unfold createTask, userId.
    rewrite Hv, Hvalid, Hu. simpl.
    unfold findOne. rewrite (castFilter_id_owner _ _ _ projectSchema_owner), Hcast.
    simpl. fold (idOwner oid u). by rewrite (no_owned_no_match _ _ _ Hnone).
  - intros v Hv Hvalid. split.
    + intros Hu. unfold createTask, userId. by rewrite Hv, Hvalid, Hu.
    + intros [u Hu] Hcast. unfold createTask, userId.
      rewrite Hv, Hvalid, Hu. simpl. unfold findOne.
      by rewrite (castFilter_id_owner _ _ _ projectSchema_owner), Hcast.
Qed.

(** A value that passes [isValid] but that the query cannot cast ends in
    the [catch] block, again without a new task. *)
Lemma createTask_uncastable env db r v :
  body r !! "project" = Some v → isValid v = true → cast TObjectId v = None →
  ∃ e, createTask env db r = (db, internalError e).
Proof.
  intros Hv Hvalid Hcast. unfold createTask, userId. rewrite Hv, Hvalid. simpl.
  destruct (user r) as [u|]; simpl; [|by eauto].
  unfold findOne. rewrite (castFilter_id_owner _ _ _ projectSchema_owner), Hcast.
  by eauto.
Qed.

(** *** Owner scoping *)

Lemma matches_owner u d :
  matches [("owner", VOid u)] d = bool_decide (owner d = Some (VOid u)).
Proof.
  unfold matches, matches1, getPath, owner. simpl. rewrite andb_true_r.
  destruct (fields d !! "owner") as [x|].
  - apply bool_decide_ext. split; [by intros ->|by intros [= ->]].
  - by rewrite !bool_decide_eq_false_2.
Qed.

Lemma castFilter_owner sch r :
  ownerPath sch →
  ∃ cf, castFilter sch (ownerFilter r) = Ok cf ∧ ∀ d, matches cf d = visible r d.
Proof.
  intros Hsch. unfold ownerFilter, visible. destruct (user r) as [u|]; simpl.
  - rewrite Hsch. simpl. exists [("owner", VOid u)]. split; [done|].
    apply matches_owner.
  - by exists [].
Qed.

Lemma castFilter_tasks_visible r cf :
  castFilter taskSchema (taskFilter r) = Ok cf →
  ∀ d, matches cf d = true → visible r d = true.
Proof.
  unfold taskFilter.
  assert (∀ cf, castFilter taskSchema (ownerFilter r) = Ok cf →
            ∀ d, matches cf d = true → visible r d = true) as Hown.
  { intros cf' H d Hd.
    destruct (castFilter_owner taskSchema r taskSchema_owner) as (cf0 & H0 & Hv).
    rewrite <- Hv. congruence. }
  destruct (query_project r) as [v|]; [|by apply Hown].
  destruct (truthy v); [|by apply Hown].
  unfold ownerFilter, visible. destruct (user r) as [u|]; simpl; [|done].
  change (pathType taskSchema "project") with (Some TObjectId).
  change (pathType taskSchema "owner") with (Some TObjectId). simpl.
  destruct (cast TObjectId v) as [w|]; simpl; [|done].
  intros [= <-] d. unfold matches. simpl. rewrite andb_true_iff.
  intros [H _]. unfold matches1, getPath in H. simpl in H. unfold owner.
  destruct (fields d !! "owner") as [x|]; [|done].
  apply bool_decide_eq_true in H as ->. by apply bool_decide_eq_true_2.
Qed.

Lemma listProjects_visible db r :
  listProjects db r =
  (db, respond 200 (JDocs (List.filter (visible r) (projects db)))).
Proof.
  unfold listProjects, find.
  destruct (castFilter_owner projectSchema r projectSchema_owner) as (cf & -> & Hv).
  simpl. do 3 f_equal. by apply filter_ext.
Qed.

Lemma listTasks_all_visible db r :
  from_option truthy false (query_project r) = false →
  listTasks db r =
  (db, respond 200
         (JTasks (populate (projects db) <$> List.filter (visible r) (tasks db)))).
Proof.
  intros Hq. unfold listTasks, find.
  assert (taskFilter r = ownerFilter r) as ->.
  { unfold taskFilter. destruct (query_project r) as [v|]; [|done].
    simpl in Hq. by rewrite Hq. }
  destruct (castFilter_owner taskSchema r taskSchema_owner) as (cf & -> & Hv).
  simpl. do 4 f_equal. by apply filter_ext.
Qed.

Lemma listTasks_visible db r ts :
  json (listTasks db r).2 = JTasks ts →
  ∀ t, t ∈ ts → task t ∈ tasks db ∧ visible r (task t) = true.
Proof.
  unfold listTasks, find.
  destruct (castFilter taskSchema (taskFilter r)) as [cf|e] eqn:Hcf; simpl; [|done].
  intros [= <-] t (d & -> & Hd)%list_elem_of_fmap. simpl.
  apply list_elem_of_In, filter_In in Hd as [Hd Hm]. split.
  - by apply list_elem_of_In.
  - by eapply castFilter_tasks_visible.
Qed.

Lemma getTask_owned db r :
  status (getTask db r).2 = 200 →
  ∃ u oid t, user r = Some u ∧ castObjectId (JStr (params_id r)) = Some oid ∧
    t ∈ tasks db ∧ ownedBy u oid t ∧
    getTask db r = (db, respond 200 (JTask (populate (projects db) t))).
Proof.
  unfold getTask, userId. destruct (user r) as [u|]; simpl; [|done].
  unfold findOne.
  rewrite (castFilter_id_owner _ _ _ taskSchema_owner), cast_id_string.
  destruct (castObjectId (JStr (params_id r))) as [oid|]; simpl; [|done].
  fold (idOwner oid u).
  destruct (List.find _ _) as [t|] eqn:Hfind; simpl; [|done].
  intros _. apply find_Some_elem in Hfind as [Ht Hm%matches_ownedBy].
  by exists u, oid, t.
Qed.

(** Without an attached user the handlers that read [req.user._id] end in
    their [catch] block. *)
Lemma anonymous_rejected env db r :
  user r = None →
  createProject env db r = (db, internalError TypeError) ∧
  updateProject env db r = (db, internalError TypeError) ∧
  deleteProject db r = (db, internalError TypeError) ∧
  getTask db r = (db, internalError TypeError) ∧
  updateTask env db r = (db, internalError TypeError) ∧
  deleteTask db r = (db, internalError TypeError) ∧
  (createTask env db r = (db, internalError TypeError) ∨
   createTask env db r = (db, respond 400 (JError (Text "Invalid project id")))).
Proof.
  intros Hu.
  unfold createProject, updateProject, deleteProject, getTask, updateTask,
    deleteTask, createTask, userId.
  rewrite Hu. simpl. repeat split; try done.
  destruct (body r !! "project") as [v|]; [|by right].
  destruct (isValid v); simpl; [by left|by right].
Qed.

(** C3, amended: the two List handlers apply the owner filter (the user's
    documents when a user is attached, all documents otherwise); Get-by-id
    of a Task and Update and Delete of both entities act only on a document
    that carries the requested id and the user's id as owner; Create stamps
    the user's id as owner; without an attached user these handlers answer
    500 (Create Task: 400 when [project] is not valid) and change nothing.
    Get-by-id of a Project is not covered. *)
Theorem owner_scoping env db r :
  listProjects db r =
    (db, respond 200 (JDocs (List.filter (visible r) (projects db)))) ∧
  (from_option truthy false (query_project r) = false →
   listTasks db r =
     (db, respond 200
            (JTasks (populate (projects db) <$> List.filter (visible r) (tasks db))))) ∧
  (∀ ts, json (listTasks db r).2 = JTasks ts →
     ∀ t, t ∈ ts → task t ∈ tasks db ∧ visible r (task t) = true) ∧
  (status (getTask db r).2 = 200 →
     ∃ u oid t, user r = Some u ∧ castObjectId (JStr (params_id r)) = Some oid ∧
       t ∈ tasks db ∧ ownedBy u oid t ∧
       getTask db r = (db, respond 200 (JTask (populate (projects db) t)))) ∧
  (status (updateProject env db r).2 = 200 → owned (projects db) r) ∧
  (status (deleteProject db r).2 = 200 → owned (projects db) r) ∧
  (status (updateTask env db r).2 = 200 → owned (tasks db) r) ∧
  (status (deleteTask db r).2 = 200 → owned (tasks db) r) ∧
  (status (createProject env db r).2 = 201 →
     ∃ u d, user r = Some u ∧ json (createProject env db r).2 = JDoc d ∧
       owner d = Some (VOid u)) ∧
  (status (createTask env db r).2 = 201 →
     ∃ u d, user r = Some u ∧ json (createTask env db r).2 = JDoc d ∧
       owner d = Some (VOid u)) ∧
  (user r = None →
   createProject env db r = (db, internalError TypeError) ∧
   updateProject env db r = (db, internalError TypeError) ∧
   deleteProject db r = (db, internalError TypeError) ∧
   getTask db r = (db, internalError TypeError) ∧
   updateTask env db r = (db, internalError TypeError) ∧
   deleteTask db r = (db, internalError TypeError) ∧
   (createTask env db r = (db, internalError TypeError) ∨
    createTask env db r = (db, respond 400 (JError (Text "Invalid project id"))))).
Proof.
  split; [apply listProjects_visible|].
  split; [apply listTasks_all_visible|].
  split; [apply listTasks_visible|].
  split; [apply getTask_owned|].
  split.
  { apply (update_conditional projectSchema env (projects db) r
             "Project not found or you do not own this project" db
             (λ c, {| projects := c; tasks := tasks db |}) projectSchema_owner).
    by destruct db. }
  split; [apply deleteProject_conditional|].
  split.
  { apply (update_conditional taskSchema env (tasks db) r
             "Task not found or you do not own this task" db
             (λ c, {| projects := projects db; tasks := c |}) taskSchema_owner).
    by destruct db. }
  split; [apply deleteTask_conditional|].
  split.
  { intros Hst. destruct (createProject env db r) as [db' resp] eqn:E.
    destruct (createProject_created _ _ _ _ _ E Hst) as (u & d & Hu & -> & Ho & _).
    by exists u, d. }
  split.
  { intros Hst. destruct (createTask env db r) as [db' resp] eqn:E.
    destruct (createTask_created _ _ _ _ _ E Hst) as (u & d & Hu & -> & Ho & _).
    by exists u, d. }
  apply anonymous_rejected.
Qed.

End Facts.

(** *** The properties on the sample data *)

Import Sample.

Lemma createProject_without_name_witness :
  body missingName !! "name" = None ∧
  ∃ e, createProject (M:=plainCasts) at2000 emptyDb missingName =
       (emptyDb, respond 500 (JError (ErrMessage e))).
Proof.
  split; [reflexivity|]. apply createProject_without_name. reflexivity.
Defined.

(** The response to the body of the repository's test, in full. *)
Example missingName_response :
  createProject (M:=plainCasts) at2000 emptyDb missingName =
  (emptyDb, respond 500 (JError (ErrMessage (ValidationError ["name"])))).
Proof. vm_compute. reflexivity. Qed.

Lemma createTask_bad_project_witness :
  createTask (M:=plainCasts) at2000 db1 badProject =
    (db1, respond 400 (JError (Text "Invalid project id"))) ∧
  createTask (M:=plainCasts) at2000 db1 bobsTask =
    (db1, respond 404
            (JError (Text "Parent project not found or you do not own this project"))) ∧
  createTask (M:=plainCasts) at2000 db1 anonymousTask =
    (db1, internalError TypeError) ∧
  createTask (M:=numberCasts) at2000 db1 numberProject =
    (db1, internalError (CastError "_id")).
Proof.
  split; [|split; [|split]].
  - apply (proj1 (createTask_bad_project (M:=plainCasts) at2000 db1 badProject)).
    reflexivity.
  - apply (proj1 (proj2 (createTask_bad_project (M:=plainCasts) at2000 db1 bobsTask))
             (JStr projectId) bob projectId); try reflexivity.
    intros d Hd [_ Ho]. apply list_elem_of_singleton in Hd. subst d.
    vm_compute in Ho. discriminate Ho.
  - apply (proj1 (proj2 (proj2 (createTask_bad_project (M:=plainCasts) at2000
                                  db1 anonymousTask)))
             (JStr projectId) eq_refl eq_refl).
    reflexivity.
  - apply (proj1 (proj2 (proj2 (createTask_bad_project (M:=numberCasts) at2000
                                  db1 numberProject)))
             (JNum 5) eq_refl eq_refl);
      [exists alice; reflexivity | reflexivity].
Defined.

(** The claim as stated fails for a [project] that is well formed and
    names no project of the requester. The id of a stored project, sent by
    a request without a user, is answered 500, and so is a number, which
    passes [ObjectId.isValid] and which the query cannot cast; the claim
    has 404 for both. *)
Lemma wellformed_project_answers_500 :
  (body anonymousTask !! "project" = Some (JStr projectId) ∧
   isValid (Mongoose:=plainCasts) (JStr projectId) = true ∧
   user anonymousTask = None ∧
   createTask (M:=plainCasts) at2000 db1 anonymousTask =
     (db1, respond 500 (JError (ErrMessage TypeError)))) ∧
  (body numberProject !! "project" = Some (JNum 5) ∧
   isValid (Mongoose:=numberCasts) (JNum 5) = true ∧
   cast (M:=numberCasts) TObjectId (JNum 5) = None ∧
   createTask (M:=numberCasts) at2000 db1 numberProject =
     (db1, respond 500 (JError (ErrMessage (CastError "_id"))))).
Proof. repeat split; vm_compute; reflexivity. Qed.

Lemma created_owner_is_requester_witness :
  body claimsOwner !! "owner" = Some (JStr bob) ∧
  ∃ u d, user claimsOwner = Some u ∧
    json (respond 201 (JDoc mine)) = JDoc d ∧ owner d = Some (VOid u) ∧
    (projects {| projects := [mine]; tasks := [] |} = projects emptyDb ++ [d] ∧
     tasks {| projects := [mine]; tasks := [] |} = tasks emptyDb ∨
     tasks {| projects := [mine]; tasks := [] |} = tasks emptyDb ++ [d] ∧
     projects {| projects := [mine]; tasks := [] |} = projects emptyDb).
Proof.
  split; [reflexivity|].
  apply (created_owner_is_requester (M:=plainCasts) at2000 emptyDb claimsOwner).
  - left. vm_compute. reflexivity.
  - reflexivity.
Defined.


(** The claim as stated fails in three ways: with a malformed identifier,
    without an attached user and with an update body that does not cast,
    no document matches and the answer is 500, not 404. *)
Lemma malformed_id_is_not_masked :
  ¬ owned (M:=plainCasts) (projects db1) malformed ∧
  updateProject (M:=plainCasts) at2000 db1 malformed =
    (db1, respond 500 (JError (ErrMessage (CastError "_id")))) ∧
  ¬ owned (M:=plainCasts) (tasks db1) anonymous ∧
  deleteTask (M:=plainCasts) db1 anonymous =
    (db1, respond 500 (JError (ErrMessage TypeError))) ∧
  ¬ owned (M:=plainCasts) (projects db1) bobMisdates ∧
  updateProject (M:=plainCasts) at2000 db1 bobMisdates =
    (db1, respond 500 (JError (ErrMessage (CastError "startDate")))).
Proof.
  split; [|split; [|split; [|split; [|split]]]].
  - intros (u & oid & d & _ & Hoid & _). vm_compute in Hoid. discriminate Hoid.
  - vm_compute. reflexivity.
  - intros (u & oid & d & Hu & _). discriminate Hu.
  - vm_compute. reflexivity.
  - intros (u & oid & d & Hu & _ & Hd & _ & Ho).
    apply list_elem_of_singleton in Hd. subst d.
    injection Hu as <-. vm_compute in Ho. discriminate Ho.
  - vm_compute. reflexivity.
Qed.

Lemma conditional_writes_witness :
  updateProject (M:=plainCasts) at2000 db1 bobRenames =
    (db1, respond 404
            (JError (Text "Project not found or you do not own this project"))) ∧
  (∃ e, updateProject (M:=plainCasts) at2000 db1 bobMisdates
        = (db1, internalError e)) ∧
  deleteTask (M:=plainCasts) db1 anonymous = (db1, internalError TypeError) ∧
  updateProject (M:=plainCasts) at2000 db1 malformed
  = (db1, internalError (CastError "_id")).
Proof.
  assert (∀ r, user r = Some bob →
            ¬ owned (M:=plainCasts) (projects db1) r) as Hbob.
  { intros r Hr (u & oid & d & Hu & _ & Hd & _ & Ho).
    apply list_elem_of_singleton in Hd. subst d.
    rewrite Hr in Hu. injection Hu as <-. vm_compute in Ho. discriminate Ho. }
  split; [|split; [|split]].
  - destruct (conditional_writes (M:=plainCasts) at2000 db1 bobRenames)
      as [(_ & _ & _ & _ & _ & H) _].
    apply H.
    + exists bob. reflexivity.
    + exists projectId. reflexivity.
    + reflexivity.
    + split; eexists; vm_compute; reflexivity.
    + by apply Hbob.
  - destruct (conditional_writes (M:=plainCasts) at2000 db1 bobMisdates)
      as [(_ & _ & _ & _ & H & _) _].
    apply H.
    + exists bob. reflexivity.
    + exists projectId. reflexivity.
    + reflexivity.
    + intros [[sets Hsets] _]. vm_compute in Hsets. discriminate Hsets.
  - destruct (conditional_writes (M:=plainCasts) at2000 db1 anonymous)
      as (_ & _ & _ & (_ & _ & H & _)).
    apply H. reflexivity.
  - destruct (conditional_writes (M:=plainCasts) at2000 db1 malformed)
      as [(_ & _ & _ & H & _) _].
    apply H; [exists alice; reflexivity | reflexivity].
Defined.



(** The claim as stated fails twice: Get-by-id of a Project hands Alice's
    project to Bob where the access filter gives 404, and Delete of a Task
    without a user answers 500 where the empty filter deletes the task. *)
Lemma access_filter_not_uniform :
  getProject (M:=plainCasts) db1 bobReads = (db1, respond 200 (JDoc aliceProject)) ∧
  specGetProject (M:=plainCasts) db1 bobReads =
    (db1, respond 404 (JError (Text "Project not found"))) ∧
  deleteTask (M:=plainCasts) db1 anonymous = (db1, internalError TypeError) ∧
  specDeleteTask (M:=plainCasts) db1 anonymous =
    ({| projects := [aliceProject]; tasks := [] |},
     respond 200 (JMessage "Task deleted successfully")).
Proof. repeat split; vm_compute; reflexivity. Qed.

Lemma owner_scoping_witness :
  owned (M:=plainCasts) (projects db1) rename ∧
  getTask (M:=plainCasts) db1 anonymous = (db1, internalError TypeError).
Proof.
  destruct (owner_scoping (M:=plainCasts) at2000 db1 rename)
    as (_ & _ & _ & _ & Hup & _).
  destruct (owner_scoping (M:=plainCasts) at2000 db1 anonymous)
    as (_ & _ & _ & _ & _ & _ & _ & _ & _ & _ & Hanon).
  split.
  - apply Hup. vm_compute. reflexivity.
  - apply Hanon. reflexivity.
Defined.

End RouteFacts.

(** ** OAuth *)

Module AuthFacts.
Import Auth.

Lemma strictNeq_state_absent v : strictNeq (Some v) None = true.
Proof. by destruct v. Qed.

Lemma strictNeq_false state stored :
  strictNeq state stored = false →
  state = None ∧ stored = None ∨ ∃ s, state = Some (JStr s) ∧ stored = Some s.
Proof.
  destruct state as [[|x|n|a|o|]|], stored as [b|]; simpl; try done; [|by left].
  intros H%negb_false_iff%String.eqb_eq. subst. by eauto.
Qed.

Lemma loginFails_false env :
  loginFails env = false →
  destroyFails env = false ∧ loginSaveFails env = false.
Proof. apply orb_false_elim. Qed.

Lemma store_store sid s w : store sid s (store sid s w) = store sid s w.
Proof. unfold store. cbn. by rewrite insert_insert_eq. Qed.

Lemma store_loaded w sid s :
  sessions w !! sid = Some s → store sid (loadSession w sid) w = w.
Proof.
  intros Hs. unfold store, loadSession. rewrite Hs. simpl.
  destruct w as [ss us]. simpl in *. f_equal. by apply insert_id.
Qed.

(** A callback whose [state] differs from the stored one ends with
    [invalid_state]; neither the store nor the session object changes. *)
Lemma callback_state_mismatch env w r vs :
  from_option truthy false (q_error r) = false →
  sessions w !! sessionID r = Some vs →
  strictNeq (q_state r) (linkedInState vs) = true →
  linkedinCallback env w r = (w, loaded r, RedirectError "invalid_state").
Proof. intros He Hs Hne. unfold linkedinCallback. by rewrite He, Hs, Hne. Qed.

(** A login that does not fail: the record of the old id is destroyed and
    the new session, bound to the user, is stored under the new id. *)
Lemma login_succeeds env user sid w :
  loginFails env = false →
  login env user sid w =
  (store (newSessionID env)
     {| linkedInState := None; passport_user := Some (user_id user) |}
     (destroy sid w),
   {| live_id := newSessionID env;
      live_session :=
        {| linkedInState := None; passport_user := Some (user_id user) |};
      saved := false |},
   false).
Proof.
  intros [Hd Hs]%loginFails_false. unfold login. by rewrite Hd, Hs.
Qed.

Lemma login_failed_inv env user sid w w2 live :
  login env user sid w = (w2, live, false) → loginFails env = false.
Proof.
  unfold login, loginFails.
  destruct (destroyFails env); [done|]. by destruct (loginSaveFails env).
Qed.

(** A callback that logs in has passed the comparison; it leaves the
    regenerated session in the store. *)
Lemma callback_success_inv env w r o l :
  linkedinCallback env w r = (o, l, RedirectProfile) →
  ∃ vs profileData,
    sessions w !! sessionID r = Some vs ∧
    strictNeq (q_state r) (linkedInState vs) = false ∧
    accessToken env (q_code r) ≫= userinfo env = Some profileData ∧
    loginFails env = false ∧ saveFails env = false ∧
    o = store (newSessionID env)
          {| linkedInState := None;
             passport_user :=
               Some (user_id (linkedinUpsert env profileData (users w)).2) |}
          (destroy (sessionID r)
             {| sessions := sessions w;
                users := (linkedinUpsert env profileData (users w)).1 |}) ∧
    l = {| live_id := newSessionID env;
           live_session :=
             {| linkedInState := None;
                passport_user :=
                  Some (user_id (linkedinUpsert env profileData (users w)).2) |};
           saved := false |}.
Proof.
  unfold linkedinCallback.
  destruct (from_option truthy false (q_error r)); [done|].
  destruct (sessions w !! sessionID r) as [vs|]; [|done].
  destruct (strictNeq _ _) eqn:Hne; [done|].
  destruct (_ ≫= _) as [profileData|] eqn:Hp; [|done].
  destruct (linkedinUpsert env profileData (users w)) as [us user] eqn:Hup.
  destruct (login env user (sessionID r) _) as [[w2 live] failed] eqn:Hlog.
  destruct failed; [done|].
  pose proof (login_failed_inv _ _ _ _ _ _ Hlog) as Hl.
  rewrite (login_succeeds _ _ _ _ Hl) in Hlog. injection Hlog as <- <-.
  destruct (saveFails env) eqn:Hs; [done|].
  cbn [live_id live_session]. rewrite store_store.
  intros [= <- <-]. exists vs, profileData. rewrite Hup. by repeat split.
Qed.

(** The comparison lets a callback through in two cases only: the state
    is the stored one, or neither a state nor a stored state exists. *)
Lemma callback_passed_check env w r o l :
  linkedinCallback env w r = (o, l, RedirectProfile) →
  ∃ vs, sessions w !! sessionID r = Some vs ∧
    (q_state r = None ∧ linkedInState vs = None ∨
     ∃ st, q_state r = Some (JStr st) ∧ linkedInState vs = Some st).
Proof.
  intros (vs & _ & Hvs & Hne%strictNeq_false & _)%callback_success_inv.
  by exists vs.
Qed.

Lemma upsert_stored env profileData us :
  (linkedinUpsert env profileData us).2 ∈ (linkedinUpsert env profileData us).1 ∧
  socialId (linkedinUpsert env profileData us).2 = sub profileData.
Proof.
  unfold linkedinUpsert.
  destruct (List.find _ us) as [found|] eqn:Hfind; simpl.
  - apply find_some in Hfind as [Hin Hm].
    apply andb_true_iff in Hm as [Hs%bool_decide_eq_true _]. split; [|done].
    unfold saveUser. apply list_elem_of_fmap.
    exists found. simpl. rewrite decide_True by done.
    split; [done|by apply list_elem_of_In].
  - split; [|done]. apply elem_of_app. right. by left.
Qed.

(** C1, as the code has it: when the session has no stored state and the
    callback request carries no [state] parameter, the comparison
    [undefined !== undefined] lets the request through; with a code that
    the provider accepts, the flow ends on the profile page and the
    session that [req.login] gives the request is bound to the identity of
    that code. *)
Theorem callback_without_state env w r vs profileData :
  from_option truthy false (q_error r) = false →
  sessions w !! sessionID r = Some vs →
  linkedInState vs = None →
  q_state r = None →
  accessToken env (q_code r) ≫= userinfo env = Some profileData →
  loginFails env = false → saveFails env = false →
  ∃ w' u,
    serveCallback env w r = (w', RedirectProfile) ∧
    u ∈ users w' ∧ socialId u = sub profileData ∧
    sessions w' !! newSessionID env =
      Some {| linkedInState := None; passport_user := Some (user_id u) |}.
Proof.
  intros He Hs Hvs Hq Hp Hl Hsv.
  unfold serveCallback, linkedinCallback.
  rewrite He, Hs, Hvs, Hq, Hp. simpl.
  destruct (upsert_stored env profileData (users w)) as [Hin Hsub].
  destruct (linkedinUpsert env profileData (users w)) as [us user].
  rewrite (login_succeeds _ _ _ _ Hl), Hsv. simpl.
  eexists _, user. split; [done|]. simpl.
  split; [done|]. split; [done|]. by rewrite lookup_insert_eq.
Qed.

(** An initiated flow whose callback presents the issued state passes the
    comparison. *)
Lemma initiate_then_callback env0 w r w1 :
  serveInitiate env0 w r = (w1, RedirectLinkedIn (randomState env0)) →
  ∃ vs, sessions w1 !! sessionID r = Some vs ∧
    strictNeq (Some (JStr (randomState env0))) (linkedInState vs) = false.
Proof.
  unfold serveInitiate, linkedinInitiate, commit.
  destruct (saveFails env0); [done|]. intros [= <-].
  eexists. simpl. rewrite lookup_insert_eq. split; [done|]. simpl.
  by rewrite String.eqb_refl.
Qed.

(** *** Single use of the state *)

(** The store after a callback that logged in. *)
Lemma success_world env w r w' :
  serveCallback env w r = (w', RedirectProfile) →
  ∃ profileData,
    accessToken env (q_code r) ≫= userinfo env = Some profileData ∧
    w' = store (newSessionID env)
           {| linkedInState := None;
              passport_user :=
                Some (user_id (linkedinUpsert env profileData (users w)).2) |}
           (destroy (sessionID r)
              {| sessions := sessions w;
                 users := (linkedinUpsert env profileData (users w)).1 |}).
Proof.
  unfold serveCallback, commit.
  destruct (linkedinCallback env w r) as [[o l] resp] eqn:E.
  intros [= <- ->].
  apply callback_success_inv in E as (vs & pd & _ & _ & Hp & _ & _ & -> & ->).
  exists pd. split; [done|]. cbn [saved live_id live_session].
  by rewrite store_store.
Qed.

(** With no state stored for the session, a callback that carries a
    [state] does not log in: it stops at the session check when the store
    has no record of the session, and at the comparison otherwise. *)
Lemma consumed_rejects env w r :
  stateless w (sessionID r) → is_Some (q_state r) →
  (serveCallback env w r).2 ≠ RedirectProfile ∧
  (serveCallback env w r).1 = store (sessionID r) (session r) w ∧
  (from_option truthy false (q_error r) = false →
   (sessions w !! sessionID r = None →
    (serveCallback env w r).2 = RedirectError "no_session") ∧
   (is_Some (sessions w !! sessionID r) →
    (serveCallback env w r).2 = RedirectError "invalid_state")).
Proof.
  intros Hst [v Hv]. unfold serveCallback, linkedinCallback.
  destruct (from_option truthy false (q_error r)).
  { split; [done|]. split; [done|]. done. }
  destruct (sessions w !! sessionID r) as [s|] eqn:Hs.
  - rewrite (Hst s Hs), Hv, strictNeq_state_absent.
    split; [done|]. split; [done|]. intros _. split; [done|]. done.
  - split; [done|]. split; [done|]. intros _. split; [done|].
    by intros [? ?].
Qed.

Lemma stateless_kept env w r sid :
  stateless w (sessionID r) → is_Some (q_state r) → stateless w sid →
  stateless (serveCallback env w (arrive w r)).1 sid.
Proof.
  intros Hst Hq Hsid.
  destruct (consumed_rejects env w (arrive w r) Hst Hq) as (_ & -> & _).
  cbn [arrive sessionID session]. intros s. unfold store. cbn [sessions].
  destruct (decide (sid = sessionID r)) as [->|Hne].
  - rewrite lookup_insert_eq. intros [= <-]. unfold loadSession.
    destruct (sessions w !! sessionID r) as [s|] eqn:Hs; [|done].
    by apply Hst.
  - rewrite lookup_insert_ne by done. apply Hsid.
Qed.

Lemma callbacks_consumed w (ids : list string) attempts :
  (∀ sid, sid ∈ ids → stateless w sid) →
  Forall (λ a : Env * Request, sessionID a.2 ∈ ids ∧ is_Some (q_state a.2))
    attempts →
  Forall (λ resp, resp ≠ RedirectProfile) (callbacks w attempts).2.
Proof.
  intros Hids Hall. revert w Hids.
  induction Hall as [|[env r] rest [Hsid Hq] _ IH]; intros w Hids; simpl;
    [done|].
  simpl in Hsid, Hq.
  destruct (consumed_rejects env w (arrive w r) (Hids _ Hsid) Hq)
    as (Hno & _ & _).
  assert (∀ sid, sid ∈ ids →
            stateless (serveCallback env w (arrive w r)).1 sid) as Hnext.
  { intros sid Hin. apply stateless_kept; [by apply Hids|done|by apply Hids]. }
  destruct (serveCallback env w (arrive w r)) as [w1 resp].
  cbn [fst snd] in Hno, Hnext. specialize (IH w1 Hnext).
  destruct (callbacks w1 rest) as [w2 resps]. simpl in *. by constructor.
Qed.

(** C2, amended: a successful LinkedIn callback leaves the session
    regenerated. The new session is stored with the identity and without a
    state; the record of the old id, which held the state, is destroyed. A
    later callback that presents a state (the consumed one or any other)
    does not log in: on the new session it is rejected with invalid_state
    at the comparison; on a session id without a record, as the old id is,
    with no_session at the session check; and no sequence of such
    callbacks on the two ids contains a success. *)
Theorem state_is_single_use env w r w' :
  serveCallback env w r = (w', RedirectProfile) →
  (∃ s, sessions w' !! newSessionID env = Some s ∧
        linkedInState s = None ∧ is_Some (passport_user s)) ∧
  (newSessionID env ≠ sessionID r → sessions w' !! sessionID r = None) ∧
  (∀ env2 r2,
     is_Some (q_state r2) →
     sessionID r2 = newSessionID env ∨ sessions w' !! sessionID r2 = None →
     (serveCallback env2 w' r2).2 ≠ RedirectProfile ∧
     (from_option truthy false (q_error r2) = false →
      (sessionID r2 = newSessionID env →
       serveCallback env2 w' r2 =
       (store (sessionID r2) (session r2) w', RedirectError "invalid_state")) ∧
      (sessions w' !! sessionID r2 = None →
       serveCallback env2 w' r2 =
       (store (sessionID r2) (session r2) w', RedirectError "no_session")))) ∧
  (∀ attempts,
     Forall (λ a : Env * Request,
               sessionID a.2 ∈ [sessionID r; newSessionID env] ∧
               is_Some (q_state a.2)) attempts →
     Forall (λ resp, resp ≠ RedirectProfile) (callbacks w' attempts).2).
Proof.
  intros (pd & _ & ->)%success_world.
  set (us := (linkedinUpsert env pd (users w)).1).
  set (bound := {| linkedInState := None; passport_user := _ |}).
  set (w' := store _ bound _).
  assert (sessions w' !! newSessionID env = Some bound) as Hnew
    by (unfold w', store; cbn; by rewrite lookup_insert_eq).
  assert (newSessionID env ≠ sessionID r → sessions w' !! sessionID r = None)
    as Hold.
  { intros Hne. unfold w', store, destroy. cbn.
    rewrite lookup_insert_ne by done. by rewrite lookup_delete_eq. }
  assert (∀ sid, sid ∈ [sessionID r; newSessionID env] → stateless w' sid)
    as Hless.
  { intros sid Hin s Hs.
    destruct (decide (sid = newSessionID env)) as [->|Hne].
    - rewrite Hnew in Hs. by injection Hs as <-.
    - apply elem_of_cons in Hin as [->|Hin].
      + rewrite Hold in Hs; [done|]. congruence.
      + by apply list_elem_of_singleton in Hin. }
  split; [exists bound; split; [done|]; split; [done|by eexists]|].
  split; [done|]. split.
  - intros env2 r2 Hq Hid.
    assert (stateless w' (sessionID r2)) as Hst.
    { destruct Hid as [->|Hnone]; [apply Hless; by right; left|].
      intros s0 Hs0. by rewrite Hnone in Hs0. }
    destruct (consumed_rejects env2 w' r2 Hst Hq) as (Hno & Hw & Hresp).
    split; [done|]. intros Herr. destruct (Hresp Herr) as [Hnone Hsome].
    split.
    + intros E. rewrite (surjective_pairing (serveCallback env2 w' r2)).
      rewrite Hw, Hsome; [done|]. rewrite E, Hnew. by eexists.
    + intros E. rewrite (surjective_pairing (serveCallback env2 w' r2)).
      by rewrite Hw, Hnone.
  - intros attempts. by apply callbacks_consumed.
Qed.

(** *** Identity upsert *)

(** What the LinkedIn path does with an identity that exists. *)
Lemma linkedinUpsert_existing env profileData us found :
  List.find (λ u, bool_decide (socialId u = sub profileData)
                  && bool_decide (platform u = "linkedin")) us = Some found →
  ∃ user,
    linkedinUpsert env profileData us = (saveUser user us, user) ∧
    user_id user = user_id found ∧ platform user = "linkedin" ∧
    name user = li_name profileData ∧ email user = li_email profileData ∧
    profilePicture user = orElse (picture profileData) (profilePicture found) ∧
    lastLogin user = now env.
Proof.
  intros Hfind. unfold linkedinUpsert. rewrite Hfind. eexists. split; [done|].
  simpl. apply find_some in Hfind as [_ [_ Hp%bool_decide_eq_true]%andb_true_iff].
  by repeat split.
Qed.

(** C4, as the code has it: the Google verify callback looks the identity
    up by [socialId] alone, whatever its platform, and on a hit it changes
    [lastLogin] only: [name], [email], [profilePicture] and [platform] stay
    as stored and no identity is created. *)
Theorem googleVerify_existing env profile us found :
  List.find (λ u, bool_decide (socialId u = g_id profile)) us = Some found →
  ∃ user,
    googleVerify env profile us = Ok (saveUser user us, user) ∧
    length (saveUser user us) = length us ∧
    user_id user = user_id found ∧ platform user = platform found ∧
    name user = name found ∧ email user = email found ∧
    profilePicture user = profilePicture found ∧
    lastLogin user = now env.
Proof.
  intros Hfind. unfold googleVerify. rewrite Hfind. eexists.
  split; [done|]. split; [|done]. unfold saveUser. apply length_fmap.
Qed.

(** *** The properties on the sample data *)

Import Sample.

Lemma callback_without_state_witness :
  linkedInState emptySession = None ∧ q_state noState = None ∧
  ∃ w' u,
    serveCallback provider idle noState = (w', RedirectProfile) ∧
    u ∈ users w' ∧ socialId u = sub mallory ∧
    sessions w' !! newSessionID provider =
      Some {| linkedInState := None; passport_user := Some (user_id u) |}.
Proof.
  split; [reflexivity|]. split; [reflexivity|].
  apply (callback_without_state provider idle noState emptySession mallory);
    reflexivity.
Defined.

(** The outcome of that request, in full. *)
Example noState_outcome :
  serveCallback provider idle noState = (afterLogin, RedirectProfile).
Proof. vm_compute. reflexivity. Qed.

Lemma state_is_single_use_witness :
  serveCallback provider pending goodCallback = (afterLogin, RedirectProfile) ∧
  (∃ s, sessions afterLogin !! "session-2" = Some s ∧
        linkedInState s = None ∧ is_Some (passport_user s)) ∧
  serveCallback provider afterLogin (arrive afterLogin replayNew) =
    (afterLogin, RedirectError "invalid_state").
Proof.
  assert (serveCallback provider pending goodCallback
          = (afterLogin, RedirectProfile)) as Hfirst
    by (vm_compute; reflexivity).
  split; [exact Hfirst|].
  destruct (state_is_single_use provider pending goodCallback afterLogin Hfirst)
    as (Hnew & _ & Hreplay & _).
  split; [exact Hnew|].
  destruct (Hreplay provider (arrive afterLogin replayNew)) as [_ H].
  - exists (JStr "9f86d081884c7d65"). reflexivity.
  - left. reflexivity.
  - destruct (H eq_refl) as [-> _]; [reflexivity|]. vm_compute. reflexivity.
Defined.

(** The replay of the consumed state by the client of the first callback,
    with the session it had then, does not reach the comparison: the
    record of that session is gone, the answer is no_session. *)
Lemma replay_meets_no_session :
  serveCallback provider pending goodCallback = (afterLogin, RedirectProfile) ∧
  sessions afterLogin !! sessionID goodCallback = None ∧
  (serveCallback provider afterLogin (arrive afterLogin goodCallback)).2
  = RedirectError "no_session".
Proof. repeat split; vm_compute; reflexivity. Qed.

Lemma googleVerify_existing_witness :
  platform linkedinUser = "linkedin" ∧
  displayName googleProfile ≠ name linkedinUser ∧
  ∃ user,
    googleVerify provider googleProfile [linkedinUser] =
      Ok (saveUser user [linkedinUser], user) ∧
    length (saveUser user [linkedinUser]) = length [linkedinUser] ∧
    user_id user = user_id linkedinUser ∧ platform user = platform linkedinUser ∧
    name user = name linkedinUser ∧ email user = email linkedinUser ∧
    profilePicture user = profilePicture linkedinUser ∧
    lastLogin user = now provider.
Proof.
  split; [reflexivity|]. split; [discriminate|].
  apply (googleVerify_existing provider googleProfile [linkedinUser] linkedinUser).
  reflexivity.
Defined.

(** The outcome of that exchange, in full: the stored LinkedIn identity is
    returned with a new [lastLogin], and no Google identity exists. *)
Example google_finds_linkedin_identity :
  googleVerify provider googleProfile [linkedinUser] =
  Ok ([ {| user_id := alice; socialId := "42"; name := Some "Old Name";
           email := Some "old@example.org"; platform := "linkedin";
           profilePicture := Some ""; createdAt := 1000; lastLogin := 5000 |} ],
      {| user_id := alice; socialId := "42"; name := Some "Old Name";
         email := Some "old@example.org"; platform := "linkedin";
         profilePicture := Some ""; createdAt := 1000; lastLogin := 5000 |}).
Proof. vm_compute. reflexivity. Qed.

End AuthFacts.

(** ** More on the route handlers *)

Module RouteMore.
Import Routes RouteFacts.

Section More.
Context `{M : Mongoose}.

#[local] Arguments cast : simpl never.

(** *** Identifiers stay unique *)

Lemma updateFirst_ids (P : Doc → bool) (g : Doc → Doc) coll :
  (∀ d, doc_id (g d) = doc_id d) →
  doc_id <$> updateFirst P g coll = doc_id <$> coll.
Proof.
  intros Hg. induction coll as [|d c IH]; [done|]. cbn [updateFirst].
  destruct (P d); rewrite !fmap_cons; [by rewrite Hg|by rewrite IH].
Qed.

Lemma removeFirst_subseteq (P : Doc → bool) coll d :
  d ∈ removeFirst P coll → d ∈ coll.
Proof.
  induction coll as [|x c IH]; simpl; [done|].
  destruct (P x); [by right|]. intros [->|H]%elem_of_cons; [by left|].
  right. by apply IH.
Qed.

Lemma removeFirst_unique (P : Doc → bool) coll :
  uniqueIds coll → uniqueIds (removeFirst P coll).
Proof.
  unfold uniqueIds. induction coll as [|x c IH]; simpl; [done|].
  intros [Hx Hc]%NoDup_cons. destruct (P x); [done|]. simpl.
  apply NoDup_cons. split; [|by apply IH].
  intros (y & Hy & Hin)%list_elem_of_fmap. apply Hx.
  apply list_elem_of_fmap. exists y. split; [done|].
  by eapply removeFirst_subseteq.
Qed.

Lemma filter_unique (P : Doc → bool) coll :
  uniqueIds coll → uniqueIds (List.filter P coll).
Proof.
  unfold uniqueIds. induction coll as [|x c IH]; simpl; [done|].
  intros [Hx Hc]%NoDup_cons. destruct (P x); [|by apply IH]. simpl.
  apply NoDup_cons. split; [|by apply IH].
  intros (y & Hy & Hin)%list_elem_of_fmap. apply Hx.
  apply list_elem_of_fmap. exists y. split; [done|].
  apply list_elem_of_In, filter_In in Hin as [Hin _]. by apply list_elem_of_In.
Qed.

Lemma create_unique sch env coll obj coll' d :
  uniqueIds coll → create sch env coll obj = Ok (coll', d) → uniqueIds coll'.
Proof.
  intros Hu (-> & Hfresh & _)%create_Ok. unfold uniqueIds in *.
  rewrite fmap_app. apply NoDup_app. split; [done|]. split.
  - intros x Hx [->|[]%elem_of_nil]%elem_of_cons. done.
  - apply NoDup_singleton.
Qed.

Lemma update_unique sch env coll r coll' res :
  ownerPath sch → uniqueIds coll →
  (u ← userId r;
   findOneAndUpdate sch env coll
     [("_id", JStr (params_id r)); ("owner", JOid u)] (body r)) = Ok (coll', res) →
  uniqueIds coll'.
Proof.
  intros Hsch Hu (u & oid & sets & _ & _ & _ & H)%update_inv; [|done].
  destruct (List.find _ coll); destruct H as [-> _]; [|done].
  unfold uniqueIds. by rewrite updateFirst_ids.
Qed.

Lemma delete_unique sch coll r coll' res :
  ownerPath sch → uniqueIds coll →
  (u ← userId r;
   findOneAndDelete sch coll
     [("_id", JStr (params_id r)); ("owner", JOid u)]) = Ok (coll', res) →
  uniqueIds coll'.
Proof.
  intros Hsch Hu (u & oid & _ & _ & -> & _)%delete_inv; [|done].
  by apply removeFirst_unique.
Qed.

(** X1: every handler keeps the identifiers of both collections unique. *)
Theorem handlers_keep_unique_ids env db r :
  uniqueIds (projects db) → uniqueIds (tasks db) →
  Forall (λ out : DB * Response,
            uniqueIds (projects out.1) ∧ uniqueIds (tasks out.1))
    [ createProject env db r; listProjects db r; getProject db r;
      updateProject env db r; deleteProject db r;
      createTask env db r; listTasks db r; getTask db r;
      updateTask env db r; deleteTask db r ].
Proof.
  intros Hp Ht. repeat apply Forall_cons_2; [..|apply Forall_nil_2].
  - unfold createProject.
    destruct (_ ≫= _) as [[ps d]|e] eqn:E; simpl; [|done]. split; [|done].
    unfold userId in E. destruct (user r); simpl in E; [|done].
    exact (create_unique _ _ _ _ _ _ Hp E).
  - unfold listProjects. by destruct (find _ _ _).
  - unfold getProject. by destruct (findById _ _ _) as [[p|]|e].
  - unfold updateProject.
    destruct (_ ≫= _) as [[c [d|]]|e] eqn:E; simpl; [|done..].
    split; [|done]. exact (update_unique _ _ _ _ _ _ projectSchema_owner Hp E).
  - unfold deleteProject.
    destruct (_ ≫= _) as [[c [d|]]|e] eqn:E; simpl; [|done..].
    apply (delete_unique _ _ _ _ _ projectSchema_owner Hp) in E.
    unfold deleteMany. destruct (castFilter _ _) as [cf|e]; simpl; [|done].
    split; [done|]. by apply filter_unique.
  - unfold createTask.
    destruct (body r !! "project") as [v|]; [|done].
    destruct (negb (isValid v)); [done|].
    destruct (_ ≫= _) as [[u [p|]]|e]; [|done..].
    destruct (create _ _ _ _) as [[ts d]|e] eqn:E; simpl; [|done].
    split; [done|]. exact (create_unique _ _ _ _ _ _ Ht E).
  - unfold listTasks. by destruct (find _ _ _).
  - unfold getTask. by destruct (_ ≫= _) as [[t|]|e].
  - unfold updateTask.
    destruct (_ ≫= _) as [[c [d|]]|e] eqn:E; simpl; [|done..].
    split; [done|]. exact (update_unique _ _ _ _ _ _ taskSchema_owner Ht E).
  - unfold deleteTask.
    destruct (_ ≫= _) as [[c [d|]]|e] eqn:E; simpl; [|done..].
    split; [done|]. exact (delete_unique _ _ _ _ _ taskSchema_owner Ht E).
Qed.

(** *** What a created document holds *)

Lemma castPaths_absent sch obj m k :
  castPaths sch obj = Ok m → obj !! k = None → m !! k = None.
Proof.
  intros Hm Hk. destruct (m !! k) as [w|] eqn:Hw; [|done].
  destruct (castPaths_supplied _ _ _ _ _ Hm Hw) as [v Hv]. congruence.
Qed.

Lemma create_fields sch env coll obj coll' d k p :
  create sch env coll obj = Ok (coll', d) →
  lookupPath sch k = Some p → k ≠ "createdAt" → k ≠ "updatedAt" →
  fields d !! k = obj !! k ≫= cast (ptype p).
Proof.
  intros (_ & _ & flds & Hflds & ->)%create_Ok Hp H1 H2.
  rewrite stamp_lookup by done.
  destruct (obj !! k) as [v|] eqn:Hv; simpl.
  - apply (lookupPath_app_l _ timestamps) in Hp.
    by destruct (castPaths_lookup _ _ _ _ _ _ Hflds Hp Hv) as (w & -> & ->).
  - by eapply castPaths_absent.
Qed.

Lemma create_stamped sch env coll obj coll' d :
  create sch env coll obj = Ok (coll', d) →
  fields d !! "updatedAt" = fields d !! "createdAt" ∧
  is_Some (fields d !! "createdAt") ∧
  (obj !! "createdAt" = None → fields d !! "createdAt" = Some (VDate (now env))).
Proof.
  intros (_ & _ & flds & Hflds & ->)%create_Ok. unfold stamp.
  rewrite lookup_insert_eq, lookup_insert_ne, lookup_insert_eq by done.
  split; [done|]. split; [by eexists|].
  intros Hc. by rewrite (castPaths_absent _ _ _ _ Hflds Hc).
Qed.

Lemma projectSchema_not_timestamp k p :
  lookupPath projectSchema k = Some p → k ≠ "createdAt" ∧ k ≠ "updatedAt".
Proof. split; intros ->; vm_compute in H; discriminate H. Qed.

Lemma taskSchema_keys k p :
  lookupPath taskSchema k = Some p → k ≠ "owner" →
  k ≠ "createdAt" ∧ k ≠ "updatedAt" ∧
  k ∈ ["project"; "name"; "description"; "duration"; "startDate"; "endDate"].
Proof.
  intros H Hne. simpl in H.
  repeat (case_decide;
          [subst k; try congruence; split; [done|]; split; [done|];
           set_solver|]).
  case_decide; [subst k; by destruct Hne|done].
Qed.

Lemma createTask_inv env db r db' resp :
  createTask env db r = (db', resp) → status resp = 201 →
  ∃ u v parent ts d,
    user r = Some u ∧ body r !! "project" = Some v ∧ isValid v = true ∧
    findOne projectSchema (projects db) [("_id", v); ("owner", JOid u)]
      = Ok (Some parent) ∧
    create taskSchema env (tasks db)
      (<["owner" := JOid u]>
         (pick ["project"; "name"; "description"; "duration";
                "startDate"; "endDate"] (body r))) = Ok (ts, d) ∧
    db' = {| projects := projects db; tasks := ts |} ∧
    resp = respond 201 (JDoc d).
Proof.
  unfold createTask, userId. intros H Hst.
  destruct (body r !! "project") as [v|] eqn:Hv; [|by injection H as <- <-].
  destruct (isValid v) eqn:Hval; cbn [negb] in H; [|by injection H as <- <-].
  destruct (user r) as [u|] eqn:Hu; cbn [mbind result_bind] in H;
    [|by injection H as <- <-].
  destruct (findOne _ _ _) as [[parent|]|e] eqn:Hf; cbn [mbind result_bind] in H;
    [|by injection H as <- <-..].
  destruct (create _ _ _ _) as [[ts d]|e] eqn:Hc; [|by injection H as <- <-].
  injection H as <- <-. by exists u, v, parent, ts, d.
Qed.

(** X2: a document created by [POST /projects] or [POST /tasks] holds, for
    every schema path other than [owner], the cast of what the body
    supplied and nothing when the body supplied nothing; its identifier was
    free, and [updatedAt] equals [createdAt]. *)
Theorem created_documents_echo env db r db' resp :
  (createProject env db r = (db', resp) → status resp = 201 →
   ∃ d, resp = respond 201 (JDoc d) ∧ (doc_id d ∉ (doc_id <$> projects db)) ∧
     (∀ k p, lookupPath projectSchema k = Some p → k ≠ "owner" →
        fields d !! k = body r !! k ≫= cast (ptype p)) ∧
     fields d !! "updatedAt" = fields d !! "createdAt" ∧
     is_Some (fields d !! "createdAt")) ∧
  (createTask env db r = (db', resp) → status resp = 201 →
   ∃ d, resp = respond 201 (JDoc d) ∧ (doc_id d ∉ (doc_id <$> tasks db)) ∧
     doc_id d = newId env ∧
     (∀ k p, lookupPath taskSchema k = Some p → k ≠ "owner" →
        fields d !! k = body r !! k ≫= cast (ptype p)) ∧
     fields d !! "updatedAt" = Some (VDate (now env)) ∧
     fields d !! "createdAt" = Some (VDate (now env))).
Proof.
  split.
  - unfold createProject, userId. intros H Hst.
    destruct (user r) as [u|]; simpl in H; [|by injection H as <- <-].
    destruct (create _ _ _ _) as [[ps d]|e] eqn:Hc; [|by injection H as <- <-].
    injection H as <- <-. exists d. split; [done|].
    destruct (create_stamped _ _ _ _ _ _ Hc) as (Hup & Hcr & _).
    split; [by apply create_Ok in Hc as (_ & ? & _)|]. split; [|done].
    intros k p Hp Hne.
    destruct (projectSchema_not_timestamp _ _ Hp) as [H1 H2].
    rewrite (create_fields _ _ _ _ _ _ _ _ Hc Hp H1 H2).
    by rewrite lookup_insert_ne.
  - intros H Hst.
    destruct (createTask_inv _ _ _ _ _ H Hst)
      as (u & v & parent & ts & d & Hu & Hv & Hval & Hf & Hc & -> & ->).
    exists d. split; [done|].
    destruct (create_stamped _ _ _ _ _ _ Hc) as (Hup & _ & Hcr).
    rewrite Hup, Hcr
      by (rewrite lookup_insert_ne by done; by rewrite pick_lookup).
    split; [by apply create_Ok in Hc as (_ & ? & _)|].
    split.
    { unfold create in Hc. apply bind_Ok_inv in Hc as (flds & _ & Hc).
      unfold docId in Hc. rewrite lookup_insert_ne in Hc by done.
      rewrite pick_lookup in Hc. simpl in Hc.
      case_bool_decide; [done|]. by injection Hc as _ <-. }
    split; [|done]. intros k p Hp Hne.
    destruct (taskSchema_keys _ _ Hp Hne) as (H1 & H2 & Hin).
    rewrite (create_fields _ _ _ _ _ _ _ _ Hc Hp H1 H2).
    rewrite lookup_insert_ne by done. rewrite pick_lookup.
    by rewrite bool_decide_eq_true_2.
Qed.

(** *** Reading by identifier *)

Lemma find_ext_in (P Q : Doc → bool) coll :
  (∀ d, P d = Q d) → List.find P coll = List.find Q coll.
Proof.
  intros H. induction coll as [|d c IH]; simpl; [done|]. by rewrite H, IH.
Qed.

Lemma findById_string sch coll s :
  findById sch coll (JStr s) =
  match castObjectId (JStr s) with
  | Some oid => Ok (List.find (λ d, bool_decide (doc_id d = oid)) coll)
  | None => Throw (CastError "_id")
  end.
Proof.
  unfold findById, findOne. simpl.
  change (pathType sch "_id") with (Some TObjectId). simpl.
  rewrite cast_id_string.
  destruct (castObjectId (JStr s)) as [oid|]; simpl; [|done].
  f_equal. apply find_ext_in. intros d.
  unfold matches, matches1, getPath. simpl. rewrite andb_true_r.
  apply bool_decide_ext. split; [by intros [= ->]|by intros ->].
Qed.

(** X8: [GET /projects/:id] never changes the database; it answers 500
    when the identifier does not cast, 404 when no project carries it, and
    otherwise 200 with a stored project that carries it, whoever owns it
    and whether or not a user is attached. *)
Theorem getProject_cases db r :
  (getProject db r).1 = db ∧
  (castObjectId (JStr (params_id r)) = None →
   getProject db r = (db, internalError (CastError "_id"))) ∧
  (∀ oid, castObjectId (JStr (params_id r)) = Some oid →
     (∀ d, d ∈ projects db → doc_id d ≠ oid) →
     getProject db r = (db, respond 404 (JError (Text "Project not found")))) ∧
  (∀ oid d, castObjectId (JStr (params_id r)) = Some oid →
     d ∈ projects db → doc_id d = oid →
     ∃ d', d' ∈ projects db ∧ doc_id d' = oid ∧
       getProject db r = (db, respond 200 (JDoc d'))).
Proof.
  unfold getProject. rewrite findById_string. split; [|split; [|split]].
  - destruct (castObjectId _); [|done]. by destruct (List.find _ _).
  - by intros ->.
  - intros oid -> Hnone. rewrite (proj2 (find_None_iff _ _)); [done|].
    intros d Hd. apply bool_decide_eq_false_2. by apply Hnone.
  - intros oid d -> Hd Hid.
    destruct (List.find _ (projects db)) as [d'|] eqn:Hfind.
    + apply find_Some_elem in Hfind as [Hd' Hid'%bool_decide_eq_true].
      by exists d'.
    + apply find_None_iff with (d:=d) in Hfind; [|done].
      by apply bool_decide_eq_false in Hfind.
Qed.

(** X3: what was created can be read back: after a 201 of
    [POST /projects], Get-by-id with the new identifier answers 200 with
    the created project, for any requester; after a 201 of [POST /tasks],
    Get-by-id of the new task by its creator answers 200 with that task. *)
Theorem create_then_get env db r db' resp :
  (createProject env db r = (db', resp) → status resp = 201 →
   ∃ d, resp = respond 201 (JDoc d) ∧
     ∀ r2, castObjectId (JStr (params_id r2)) = Some (doc_id d) →
       getProject db' r2 = (db', respond 200 (JDoc d))) ∧
  (createTask env db r = (db', resp) → status resp = 201 →
   ∃ d, resp = respond 201 (JDoc d) ∧
     ∀ r2, castObjectId (JStr (params_id r2)) = Some (doc_id d) →
       user r2 = user r →
       getTask db' r2 = (db', respond 200 (JTask (populate (projects db') d)))).
Proof.
  split; intros H Hst.
  - destruct (createProject_created _ _ _ _ _ H Hst) as (u & d & _ & -> & _ & ->).
    exists d. split; [done|]. intros r2 Hid.
    unfold getProject. rewrite findById_string, Hid. simpl.
    unfold createProject, userId in H.
    destruct (user r); simpl in H; [|done].
    destruct (create _ _ _ _) as [[ps d0]|e] eqn:Hc; [|done].
    injection H as Hps <-. apply create_Ok in Hc as (_ & Hfresh & _).
    rewrite find_app_None; [simpl; by rewrite bool_decide_eq_true_2|].
    intros x Hx. apply bool_decide_eq_false_2. intros Heq. apply Hfresh.
    rewrite <- Heq. by apply list_elem_of_fmap_2.
  - destruct (createTask_inv _ _ _ _ _ H Hst)
      as (u & v & parent & ts & d & Hu & Hv & Hval & Hf & Hc & -> & ->).
    exists d. split; [done|]. intros r2 Hid Hu2.
    pose proof (create_owner _ _ _ _ _ _ u taskSchema_owner
                  (lookup_insert_eq _ _ _) Hc) as Ho.
    apply create_Ok in Hc as (-> & Hfresh & _).
    unfold getTask, userId, findOne. rewrite Hu2, Hu, bind_Ok.
    rewrite (castFilter_id_owner _ _ _ taskSchema_owner), cast_id_string, Hid.
    simpl. fold (idOwner (doc_id d) u).
    rewrite find_app_None.
    + cbn [List.find]. by rewrite (proj2 (matches_ownedBy _ _ _)).
    + intros x Hx. apply not_true_is_false. intros [Heq _]%matches_ownedBy.
      apply Hfresh. rewrite <- Heq. by apply list_elem_of_fmap_2.
Qed.

(** *** Tasks and their project *)

Lemma find_is_Some (P : Doc → bool) coll d :
  d ∈ coll → P d = true → ∃ d', List.find P coll = Some d'.
Proof.
  intros Hd HP. destruct (List.find P coll) as [d'|] eqn:Hf; [by eauto|].
  apply find_None_iff with (d:=d) in Hf; [congruence|done].
Qed.

Lemma findOne_parent coll v u parent :
  findOne projectSchema coll [("_id", v); ("owner", JOid u)] = Ok (Some parent) →
  cast TObjectId v = Some (VOid (doc_id parent)) ∧
  parent ∈ coll ∧ ownedBy u (doc_id parent) parent.
Proof.
  unfold findOne. rewrite (castFilter_id_owner _ _ _ projectSchema_owner).
  destruct (cast TObjectId v) as [w|]; simpl; [|done].
  intros [= Hf]. apply find_Some_elem in Hf as [Hin Hm].
  apply matches_id_owner in Hm as [-> Ho]. by repeat split.
Qed.

Lemma populate_found ps t oid :
  refersTo oid t → (∃ p, p ∈ ps ∧ doc_id p = oid) →
  ∃ p, p ∈ ps ∧ doc_id p = oid ∧
    project_ref (populate ps t) =
    Some {| doc_id := oid;
            fields := filter (λ kv : string * value, kv.1 = "name") (fields p) |}.
Proof.
  intros Href (p0 & Hp0 & Hid). unfold populate. simpl. rewrite Href.
  destruct (find_is_Some (λ d, bool_decide (doc_id d = oid)) ps p0 Hp0) as [p Hp].
  { by apply bool_decide_eq_true_2. }
  rewrite Hp. apply find_Some_elem in Hp as [Hin Hp%bool_decide_eq_true].
  exists p. simpl. by rewrite Hp.
Qed.

Lemma populate_missing ps t oid :
  refersTo oid t → (∀ p, p ∈ ps → doc_id p ≠ oid) →
  project_ref (populate ps t) = None.
Proof.
  intros Href Hnone. unfold populate. simpl. rewrite Href.
  rewrite (proj2 (find_None_iff _ _)); [done|].
  intros p Hp. apply bool_decide_eq_false_2. by apply Hnone.
Qed.

(** X4: a task is created only under a project that exists and belongs to
    the requester: after a 201 of [POST /tasks] the stored task refers to a
    project of the database that the requester owns, and the populated
    form of the task shows the [_id] and [name] of a project with that
    identifier (of that very project when identifiers are unique). *)
Theorem created_task_has_parent env db r db' resp :
  createTask env db r = (db', resp) → status resp = 201 →
  ∃ u d parent,
    resp = respond 201 (JDoc d) ∧ user r = Some u ∧
    parent ∈ projects db ∧ ownedBy u (doc_id parent) parent ∧
    refersTo (doc_id parent) d ∧
    (∃ p, p ∈ projects db' ∧ doc_id p = doc_id parent ∧
       project_ref (populate (projects db') d) =
       Some {| doc_id := doc_id parent;
               fields := filter (λ kv : string * value, kv.1 = "name") (fields p) |}) ∧
    (uniqueIds (projects db) →
     project_ref (populate (projects db') d) =
     Some {| doc_id := doc_id parent;
             fields := filter (λ kv : string * value, kv.1 = "name")
                         (fields parent) |}).
Proof.
  intros H Hst.
  destruct (createTask_inv _ _ _ _ _ H Hst)
    as (u & v & parent & ts & d & Hu & Hv & Hval & Hf & Hc & -> & ->).
  apply findOne_parent in Hf as (Hcast & Hin & Hown).
  assert (refersTo (doc_id parent) d) as Href.
  { unfold refersTo.
    rewrite (create_fields _ _ _ _ _ _ "project" (mandatory TObjectId) Hc)
      by done.
    rewrite lookup_insert_ne by done. rewrite pick_lookup.
    rewrite bool_decide_eq_true_2 by set_solver. by rewrite Hv. }
  exists u, d, parent. cbn [projects]. do 5 (split; [done|]).
  destruct (populate_found (projects db) d (doc_id parent) Href) as (p & Hp & Hid & Hpop);
    [by exists parent|].
  split; [by exists p|].
  intros Huniq. rewrite Hpop.
  by rewrite (uniqueIds_eq _ _ _ Huniq Hp Hin Hid).
Qed.

Lemma create_without_task_name env coll obj :
  obj !! "name" = None → ∃ e, create taskSchema env coll obj = Throw e.
Proof.
  intros Hname. unfold create.
  destruct (validate_fails (taskSchema ++ timestamps) obj
              ("name", mandatory TString)) as [e He].
  - set_solver.
  - unfold pathFails. simpl. by rewrite Hname.
  - exists e. by rewrite He.
Qed.

(** X12: a [POST /tasks] for a project the requester owns whose body has
    no [name] ends in the [catch] block, with status 500, and creates
    nothing. *)
Theorem createTask_without_name env db r v u parent :
  body r !! "project" = Some v → isValid v = true →
  cast TObjectId v = Some (VOid (doc_id parent)) → user r = Some u →
  parent ∈ projects db → ownedBy u (doc_id parent) parent →
  body r !! "name" = None →
  ∃ e, createTask env db r = (db, respond 500 (JError (ErrMessage e))).
Proof.
  intros Hv Hval Hcast Hu Hin Hown Hname. unfold createTask, userId.
  rewrite Hv, Hval, Hu. cbn [negb]. rewrite bind_Ok. unfold findOne.
  rewrite (castFilter_id_owner _ _ _ projectSchema_owner), Hcast.
  cbn [mbind result_bind]. fold (idOwner (doc_id parent) u).
  destruct (find_is_Some (matches (idOwner (doc_id parent) u)) _ _ Hin)
    as [p ->]; [by apply matches_ownedBy|].
  destruct (create_without_task_name env (tasks db)
              (<["owner" := JOid u]>
                 (pick ["project"; "name"; "description"; "duration";
                        "startDate"; "endDate"] (body r)))) as [e ->].
  - rewrite lookup_insert_ne by done. rewrite pick_lookup, Hname.
    by case_bool_decide.
  - by exists e.
Qed.

(** *** Reading after writing *)

Lemma uniqueIds_before l1 d l2 x :
  uniqueIds (l1 ++ d :: l2) → x ∈ l1 → doc_id x ≠ doc_id d.
Proof.
  unfold uniqueIds. rewrite fmap_app, fmap_cons.
  intros (_ & Hdis & _)%NoDup_app Hx Heq.
  apply (Hdis (doc_id x)); [by apply list_elem_of_fmap_2|].
  rewrite Heq. by left.
Qed.

Lemma uniqueIds_others l1 d l2 x :
  uniqueIds (l1 ++ d :: l2) → x ∈ l1 ++ l2 → doc_id x ≠ doc_id d.
Proof.
  intros Hu [Hx|Hx]%elem_of_app.
  - by eapply uniqueIds_before.
  - by eapply uniqueIds_after.
Qed.


(** The outcome of a successful conditional update, in full. *)
Lemma update_result sch env coll r coll' d' :
  ownerPath sch →
  (u ← userId r;
   findOneAndUpdate sch env coll
     [("_id", JStr (params_id r)); ("owner", JOid u)] (body r)) = Ok (coll', Some d') →
  ∃ u oid sets d l1 l2,
    user r = Some u ∧ castObjectId (JStr (params_id r)) = Some oid ∧
    castPaths sch (body r) = Ok sets ∧
    coll = l1 ++ d :: l2 ∧ ownedBy u oid d ∧
    d' = applyUpdate env sets d ∧ coll' = l1 ++ d' :: l2.
Proof.
  intros Hsch (u & oid & sets & Hu & Hoid & Hsets & H)%update_inv; [|done].
  destruct (List.find _ coll) as [d|] eqn:Hfind; [|by destruct H].
  destruct H as [-> [= ->]].
  destruct (find_split _ _ _ Hfind) as (l1 & l2 & -> & Hl1 & Hd).
  rewrite (updateFirst_split _ _ _ _ _ Hl1 Hd).
  exists u, oid, sets, d, l1, l2.
  apply castUpdate_Ok in Hsets. by apply matches_ownedBy in Hd.
Qed.

(** The outcome of a successful conditional delete, in full. *)
Lemma delete_result sch coll r coll' d :
  ownerPath sch →
  (u ← userId r;
   findOneAndDelete sch coll
     [("_id", JStr (params_id r)); ("owner", JOid u)]) = Ok (coll', Some d) →
  ∃ u oid l1 l2,
    user r = Some u ∧ castObjectId (JStr (params_id r)) = Some oid ∧
    coll = l1 ++ d :: l2 ∧ ownedBy u oid d ∧ coll' = l1 ++ l2.
Proof.
  intros Hsch (u & oid & Hu & Hoid & -> & Hfind)%delete_inv; [|done].
  symmetry in Hfind.
  destruct (find_split _ _ _ Hfind) as (l1 & l2 & -> & Hl1 & Hd).
  rewrite (removeFirst_split _ _ _ _ Hl1 Hd).
  exists u, oid, l1, l2. by apply matches_ownedBy in Hd.
Qed.

Lemma applyUpdate_lookup env sets d k :
  k ≠ "updatedAt" →
  fields (applyUpdate env sets d) !! k =
  match sets !! k with Some w => Some w | None => fields d !! k end.
Proof.
  intros Hk. unfold applyUpdate. simpl. rewrite lookup_insert_ne by done.
  rewrite lookup_union. by destruct (sets !! k), (fields d !! k).
Qed.



(** X6: what was deleted is gone: after a 200 of [DELETE /projects/:id],
    Get-by-id with that identifier and a second Delete both answer 404;
    likewise for a task and its deleting user. Identifiers are assumed
    unique. *)
Theorem delete_then_gone db r db' resp :
  (deleteProject db r = (db', resp) → status resp = 200 →
   uniqueIds (projects db) →
   getProject db' r = (db', respond 404 (JError (Text "Project not found"))) ∧
   deleteProject db' r =
     (db', respond 404
             (JError (Text "Project not found or you do not own this project")))) ∧
  (deleteTask db r = (db', resp) → status resp = 200 →
   uniqueIds (tasks db) →
   getTask db' r =
     (db', respond 404 (JError (Text "Task not found or you do not own this task"))) ∧
   deleteTask db' r =
     (db', respond 404 (JError (Text "Task not found or you do not own this task")))).
Proof.
  split.
  - unfold deleteProject at 1. intros H Hst Huniq.
    destruct (_ ≫= _) as [[c [d|]]|e] eqn:E;
      [|by injection H as <- <-; discriminate Hst..].
    destruct (delete_result _ _ _ _ _ projectSchema_owner E)
      as (u & oid & l1 & l2 & Hu & Hoid & Hc & [Hid _] & ->).
    rewrite (deleteMany_project _ _ _ Hoid) in H. injection H as <- <-.
    rewrite Hc in Huniq. subst oid.
    pose proof (λ x, uniqueIds_others _ _ _ x Huniq) as Hothers. split.
    + unfold getProject. rewrite findById_string, Hoid. cbn [projects].
      rewrite (proj2 (find_None_iff _ _)); [done|].
      intros x Hx. apply bool_decide_eq_false_2. by apply Hothers.
    + unfold deleteProject.
      rewrite (delete_not_found _ _ _ _ _ projectSchema_owner Hu Hoid); [done|].
      intros x Hx [Heq _]. by apply (Hothers x).
  - unfold deleteTask at 1. intros H Hst Huniq.
    destruct (_ ≫= _) as [[c [d|]]|e] eqn:E;
      [|by injection H as <- <-; discriminate Hst..].
    destruct (delete_result _ _ _ _ _ taskSchema_owner E)
      as (u & oid & l1 & l2 & Hu & Hoid & Hc & [Hid _] & ->).
    injection H as <- <-. rewrite Hc in Huniq. subst oid.
    pose proof (λ x, uniqueIds_others _ _ _ x Huniq) as Hothers. split.
    + unfold getTask, userId, findOne. rewrite Hu, bind_Ok.
      rewrite (castFilter_id_owner _ _ _ taskSchema_owner), cast_id_string, Hoid.
      simpl. fold (idOwner (doc_id d) u).
      rewrite (proj2 (find_None_iff _ _)); [done|].
      intros x Hx. apply not_true_is_false. intros [Heq _]%matches_ownedBy.
      by apply (Hothers x).
    + unfold deleteTask.
      rewrite (delete_not_found _ _ _ _ _ taskSchema_owner Hu Hoid); [done|].
      intros x Hx [Heq _]. by apply (Hothers x).
Qed.

(** X7: a successful Delete removes the one document it addresses, which
    the requester owns, and keeps all others in their order; deleting a
    task leaves the projects as they are, and deleting a project removes
    from the tasks exactly those that refer to it. *)
Theorem delete_removes_one db r db' resp :
  (deleteProject db r = (db', resp) → status resp = 200 →
   ∃ u d l1 l2,
     user r = Some u ∧ ownedBy u (doc_id d) d ∧
     castObjectId (JStr (params_id r)) = Some (doc_id d) ∧
     projects db = l1 ++ d :: l2 ∧ projects db' = l1 ++ l2 ∧
     tasks db' =
       List.filter (λ t, negb (bool_decide (refersTo (doc_id d) t))) (tasks db)) ∧
  (deleteTask db r = (db', resp) → status resp = 200 →
   ∃ u d l1 l2,
     user r = Some u ∧ ownedBy u (doc_id d) d ∧
     castObjectId (JStr (params_id r)) = Some (doc_id d) ∧
     tasks db = l1 ++ d :: l2 ∧ tasks db' = l1 ++ l2 ∧
     projects db' = projects db).
Proof.
  split.
  - unfold deleteProject. intros H Hst.
    destruct (_ ≫= _) as [[c [d|]]|e] eqn:E;
      [|by injection H as <- <-; discriminate Hst..].
    destruct (delete_result _ _ _ _ _ projectSchema_owner E)
      as (u & oid & l1 & l2 & Hu & Hoid & Hc & [Hid Ho] & ->).
    rewrite (deleteMany_project _ _ _ Hoid) in H. injection H as <- <-.
    subst oid. by exists u, d, l1, l2.
  - unfold deleteTask. intros H Hst.
    destruct (_ ≫= _) as [[c [d|]]|e] eqn:E;
      [|by injection H as <- <-; discriminate Hst..].
    destruct (delete_result _ _ _ _ _ taskSchema_owner E)
      as (u & oid & l1 & l2 & Hu & Hoid & Hc & [Hid Ho] & ->).
    injection H as <- <-. subst oid. by exists u, d, l1, l2.
Qed.

(** *** What an update body may change *)

Lemma castPaths_sets sch upd sets k p v w :
  castPaths sch upd = Ok sets → lookupPath sch k = Some p →
  upd !! k = Some v → cast (ptype p) v = Some w → sets !! k = Some w.
Proof.
  intros Hsets Hp Hv Hc.
  destruct (castPaths_lookup _ _ _ _ _ _ Hsets Hp Hv) as (w' & Hc' & ->).
  congruence.
Qed.

(** X9: the update body is not screened for [owner]: a successful
    [PUT /projects/:id] whose body names another user as [owner] stores the
    project under that user, and from then on the former owner's Update and
    Delete of it no longer succeed. Identifiers are assumed unique. *)
Theorem update_transfers_ownership env db r db' resp u v u2 :
  updateProject env db r = (db', resp) → status resp = 200 →
  user r = Some u → body r !! "owner" = Some v →
  cast TObjectId v = Some (VOid u2) →
  ∃ p', resp = respond 200 (JDoc p') ∧ p' ∈ projects db' ∧
    owner p' = Some (VOid u2) ∧
    (u2 ≠ u → uniqueIds (projects db) →
     ∀ env2 r2, user r2 = Some u → params_id r2 = params_id r →
       status (updateProject env2 db' r2).2 ≠ 200 ∧
       status (deleteProject db' r2).2 ≠ 200).
Proof.
  unfold updateProject at 1. intros H Hst Hu Hv Hcast.
  destruct (_ ≫= _) as [[c [p'|]]|e] eqn:E;
    [|by injection H as <- <-; discriminate Hst..].
  injection H as <- <-. exists p'. split; [done|].
  destruct (update_result _ _ _ _ _ _ projectSchema_owner E)
    as (u' & oid & sets & d & l1 & l2 & Hu' & Hoid & Hsets & Hc & [Hid Ho] & Hp' & ->).
  cbn [projects].
  assert (owner p' = Some (VOid u2)) as Hown.
  { unfold owner. rewrite Hp', applyUpdate_lookup by done.
    by rewrite (castPaths_sets _ _ _ "owner" (mandatory TObjectId) _ _
                  Hsets eq_refl Hv Hcast). }
  split; [set_solver|]. split; [done|].
  intros Hne Huniq env2 r2 Hu2 Hid2.
  assert (¬ owned (l1 ++ p' :: l2) r2) as Hno.
  { intros (u0 & oid0 & x & Hu0 & Hoid0 & Hx & Hxid & Hxo).
    rewrite Hu2 in Hu0. injection Hu0 as <-.
    rewrite Hid2, Hoid in Hoid0. injection Hoid0 as <-.
    rewrite Hc in Huniq.
    apply elem_of_app in Hx as [Hx|[->|Hx]%elem_of_cons].
    - apply (uniqueIds_before _ _ _ _ Huniq Hx). congruence.
    - rewrite Hown in Hxo. by injection Hxo as ->.
    - apply (uniqueIds_after _ _ _ _ Huniq Hx). congruence. }
  split; intros H200.
  - apply Hno.
    pose proof (update_conditional projectSchema env2 (l1 ++ p' :: l2) r2
                  "Project not found or you do not own this project"
                  {| projects := l1 ++ p' :: l2; tasks := tasks db |}
                  (λ c, {| projects := c; tasks := tasks db |})
                  projectSchema_owner eq_refl) as (Hc200 & _).
    by apply Hc200.
  - apply Hno.
    by apply (deleteProject_conditional
                {| projects := l1 ++ p' :: l2; tasks := tasks db |} r2).
Qed.

(** X10: an Update of a task does not look at the projects: a successful
    [PUT /tasks/:id] whose body names a [project] stores that reference
    whether or not such a project exists; when none exists the populated
    form of the task has no project. *)
Theorem updateTask_keeps_no_reference env db r db' resp v oid :
  updateTask env db r = (db', resp) → status resp = 200 →
  body r !! "project" = Some v → cast TObjectId v = Some (VOid oid) →
  ∃ t', resp = respond 200 (JDoc t') ∧ t' ∈ tasks db' ∧ refersTo oid t' ∧
    projects db' = projects db ∧
    ((∀ p, p ∈ projects db → doc_id p ≠ oid) →
     project_ref (populate (projects db') t') = None).
Proof.
  unfold updateTask. intros H Hst Hv Hcast.
  destruct (_ ≫= _) as [[c [t'|]]|e] eqn:E;
    [|by injection H as <- <-; discriminate Hst..].
  injection H as <- <-. exists t'. split; [done|].
  destruct (update_result _ _ _ _ _ _ taskSchema_owner E)
    as (u & oid' & sets & d & l1 & l2 & Hu & Hoid & Hsets & Hc & _ & Ht' & ->).
  cbn [projects tasks].
  assert (refersTo oid t') as Href.
  { unfold refersTo. rewrite Ht', applyUpdate_lookup by done.
    by rewrite (castPaths_sets _ _ _ "project" (mandatory TObjectId) _ _
                  Hsets eq_refl Hv Hcast). }
  split; [set_solver|]. split; [done|]. split; [done|].
  by apply populate_missing.
Qed.

(** *** Listing the tasks of a project *)

Lemma matches1_project oid d :
  matches1 d ("project", VOid oid) = bool_decide (refersTo oid d).
Proof.
  unfold matches1, getPath. simpl.
  destruct (bool_decide (refersTo oid d)) eqn:Hb.
  - apply bool_decide_eq_true in Hb. unfold refersTo in Hb. rewrite Hb.
    by apply bool_decide_eq_true_2.
  - apply bool_decide_eq_false in Hb. unfold refersTo in Hb.
    destruct (fields d !! "project") as [x|]; [|done].
    apply bool_decide_eq_false_2. by intros ->.
Qed.

Lemma matches_owner_project u oid d :
  matches [("owner", VOid u); ("project", VOid oid)] d =
  bool_decide (owner d = Some (VOid u)) && bool_decide (refersTo oid d).
Proof.
  unfold matches. cbn [forallb]. rewrite matches1_project, andb_true_r.
  f_equal. rewrite <- matches_owner. unfold matches. cbn [forallb].
  by rewrite andb_true_r.
Qed.

Lemma matches_project_only oid d :
  matches [("project", VOid oid)] d = bool_decide (refersTo oid d).
Proof.
  unfold matches. cbn [forallb]. by rewrite matches1_project, andb_true_r.
Qed.

(** X11: [GET /tasks?project=s], for a query parameter that is one
    non-empty string [s], lists, populated and in stored order, exactly the
    tasks that pass the owner filter and refer to the project that [s]
    denotes; when [s] does not cast to an identifier the answer is 500. *)
Theorem listTasks_of_project db r s :
  query_project r = Some (JStr s) → s ≠ "" →
  (∀ oid, castObjectId (JStr s) = Some oid →
     listTasks db r =
     (db, respond 200
            (JTasks (populate (projects db) <$>
                       List.filter (λ t, visible r t && bool_decide (refersTo oid t))
                         (tasks db))))) ∧
  (castObjectId (JStr s) = None →
   listTasks db r = (db, internalError (CastError "project"))).
Proof.
  intros Hq Hne.
  assert (truthy (JStr s) = true) as Htr.
  { cbn [truthy]. apply negb_true_iff. by apply String.eqb_neq. }
  assert (∀ o, castObjectId (JStr s) = o →
            cast TObjectId (JStr s) = VOid <$> o) as Hc.
  { by intros o <-. }
  unfold listTasks, find, taskFilter, ownerFilter, visible.
  rewrite Hq, Htr. split.
  - intros oid Hcast%Hc. cbn [fmap option_fmap option_map] in Hcast.
    destruct (user r) as [u|]; simpl;
      change (pathType taskSchema "project") with (Some TObjectId);
      cbn [mbind result_bind]; rewrite Hcast; cbn [mbind result_bind].
    + change (pathType taskSchema "owner") with (Some TObjectId). simpl.
      do 4 f_equal. apply filter_ext. intros t. apply matches_owner_project.
    + do 4 f_equal. apply filter_ext. intros t. apply matches_project_only.
  - intros Hcast%Hc. cbn [fmap option_fmap option_map] in Hcast.
    destruct (user r) as [u|]; simpl;
      change (pathType taskSchema "project") with (Some TObjectId);
      cbn [mbind result_bind]; by rewrite Hcast.
Qed.

End More.

(** *** Instances *)

Import Sample Cases.

Lemma handlers_keep_unique_ids_witness :
  Forall (λ out : DB * Response,
            uniqueIds (projects out.1) ∧ uniqueIds (tasks out.1))
    [ createProject (M:=plainCasts) at2000 db1 rename;
      listProjects (M:=plainCasts) db1 rename;
      getProject (M:=plainCasts) db1 rename;
      updateProject (M:=plainCasts) at2000 db1 rename;
      deleteProject (M:=plainCasts) db1 rename;
      createTask (M:=plainCasts) at2000 db1 rename;
      listTasks (M:=plainCasts) db1 rename;
      getTask (M:=plainCasts) db1 rename;
      updateTask (M:=plainCasts) at2000 db1 rename;
      deleteTask (M:=plainCasts) db1 rename ].
Proof.
  apply (handlers_keep_unique_ids (M:=plainCasts) at2000 db1 rename);
    apply NoDup_singleton.
Defined.

Lemma created_documents_echo_witness :
  createProject (M:=plainCasts) at2000 db1 claimsOwner =
    ({| projects := [aliceProject; mine]; tasks := [aliceTask] |},
     respond 201 (JDoc mine)) ∧
  createTask (M:=plainCasts) at2000 db1 aliceAddsTask =
    ({| projects := [aliceProject]; tasks := [aliceTask; review] |},
     respond 201 (JDoc review)) ∧
  fields mine !! "name" = Some (VStr "Mine") ∧
  fields mine !! "description" = None ∧
  fields review !! "duration" = Some (VNum 3) ∧
  fields review !! "endDate" = None.
Proof.
  assert (createProject (M:=plainCasts) at2000 db1 claimsOwner =
          ({| projects := [aliceProject; mine]; tasks := [aliceTask] |},
           respond 201 (JDoc mine))) as Hp by (vm_compute; reflexivity).
  assert (createTask (M:=plainCasts) at2000 db1 aliceAddsTask =
          ({| projects := [aliceProject]; tasks := [aliceTask; review] |},
           respond 201 (JDoc review))) as Ht by (vm_compute; reflexivity).
  split; [exact Hp|]. split; [exact Ht|].
  destruct (proj1 (created_documents_echo (M:=plainCasts) at2000 db1 claimsOwner
                     _ _) Hp eq_refl) as (d & Hd & _ & Hecho & _).
  injection Hd as <-.
  destruct (proj2 (created_documents_echo (M:=plainCasts) at2000 db1 aliceAddsTask
                     _ _) Ht eq_refl) as (t & Hd & _ & _ & Htecho & _).
  injection Hd as <-.
  split; [|split; [|split]].
  - rewrite (Hecho "name" {| ptype := TString; required := true |});
      [reflexivity|reflexivity|discriminate].
  - rewrite (Hecho "description" {| ptype := TString; required := false |});
      [reflexivity|reflexivity|discriminate].
  - rewrite (Htecho "duration" {| ptype := TNumber; required := false |});
      [reflexivity|reflexivity|discriminate].
  - rewrite (Htecho "endDate" {| ptype := TDate; required := false |});
      [reflexivity|reflexivity|discriminate].
Defined.

Lemma getProject_cases_witness :
  getProject (M:=plainCasts) db1 malformed = (db1, internalError (CastError "_id")) ∧
  getProject (M:=plainCasts) db1 aliceReadsFresh =
    (db1, respond 404 (JError (Text "Project not found"))) ∧
  ∃ d', d' ∈ projects db1 ∧ doc_id d' = projectId ∧
    getProject (M:=plainCasts) db1 bobReads = (db1, respond 200 (JDoc d')).
Proof.
  split; [|split].
  - apply (proj1 (proj2 (getProject_cases (M:=plainCasts) db1 malformed))).
    reflexivity.
  - apply (proj1 (proj2 (proj2 (getProject_cases (M:=plainCasts) db1 aliceReadsFresh)))
             freshId); [reflexivity|].
    intros d Hd. apply list_elem_of_singleton in Hd. subst d. discriminate.
  - apply (proj2 (proj2 (proj2 (getProject_cases (M:=plainCasts) db1 bobReads)))
             projectId aliceProject); [reflexivity| |reflexivity].
    apply list_elem_of_singleton. reflexivity.
Defined.

Lemma create_then_get_witness :
  (∃ d, (createProject (M:=plainCasts) at2000 db1 claimsOwner).2
        = respond 201 (JDoc d) ∧
     getProject (M:=plainCasts)
       (createProject (M:=plainCasts) at2000 db1 claimsOwner).1 aliceReadsFresh =
     ((createProject (M:=plainCasts) at2000 db1 claimsOwner).1,
      respond 200 (JDoc d))) ∧
  (∃ d, (createTask (M:=plainCasts) at2000 db1 aliceAddsTask).2
        = respond 201 (JDoc d) ∧
     getTask (M:=plainCasts)
       (createTask (M:=plainCasts) at2000 db1 aliceAddsTask).1 aliceReadsFresh =
     ((createTask (M:=plainCasts) at2000 db1 aliceAddsTask).1,
      respond 200
        (JTask (populate (projects (createTask (M:=plainCasts) at2000 db1
                                      aliceAddsTask).1) d)))).
Proof.
  split.
  - destruct (proj1 (create_then_get (M:=plainCasts) at2000 db1 claimsOwner
                       _ _) (surjective_pairing _) eq_refl) as (d & Hd & Hget).
    exists d. split; [exact Hd|]. apply Hget.
    vm_compute in Hd. injection Hd as <-. reflexivity.
  - destruct (proj2 (create_then_get (M:=plainCasts) at2000 db1 aliceAddsTask
                       _ _) (surjective_pairing _) eq_refl) as (d & Hd & Hget).
    exists d. split; [exact Hd|]. apply Hget; [|reflexivity].
    vm_compute in Hd. injection Hd as <-. reflexivity.
Defined.

Lemma created_task_has_parent_witness :
  ∃ d, (createTask (M:=plainCasts) at2000 db1 aliceAddsTask).2
       = respond 201 (JDoc d) ∧
    refersTo projectId d ∧
    project_ref
      (populate (projects (createTask (M:=plainCasts) at2000 db1 aliceAddsTask).1) d)
    = Some {| doc_id := projectId; fields := {[ "name" := VStr "Site" ]} |}.
Proof.
  destruct (created_task_has_parent (M:=plainCasts) at2000 db1 aliceAddsTask
              _ _ (surjective_pairing _) eq_refl)
    as (u & d & parent & Hd & _ & Hin & _ & Href & _ & Hpop).
  apply list_elem_of_singleton in Hin. subst parent.
  exists d. split; [exact Hd|]. split; [exact Href|].
  rewrite (Hpop (NoDup_singleton _)). vm_compute. reflexivity.
Defined.

Lemma createTask_without_name_witness :
  ∃ e, createTask (M:=plainCasts) at2000 db1 namelessTask
       = (db1, respond 500 (JError (ErrMessage e))).
Proof.
  apply (createTask_without_name (M:=plainCasts) at2000 db1 namelessTask
           (JStr projectId) alice aliceProject); try reflexivity.
  - apply list_elem_of_singleton. reflexivity.
  - split; reflexivity.
Defined.


Lemma delete_then_gone_witness :
  status (deleteProject (M:=plainCasts) db1 aliceDeletes).2 = 200 ∧
  status (getProject (M:=plainCasts)
            (deleteProject (M:=plainCasts) db1 aliceDeletes).1 aliceDeletes).2 = 404 ∧
  status (deleteTask (M:=plainCasts) db1 aliceReadsTask).2 = 200 ∧
  status (deleteTask (M:=plainCasts)
            (deleteTask (M:=plainCasts) db1 aliceReadsTask).1 aliceReadsTask).2 = 404.
Proof.
  split; [reflexivity|]. split; [|split; [reflexivity|]].
  - destruct (proj1 (delete_then_gone (M:=plainCasts) db1 aliceDeletes _ _)
                (surjective_pairing _) eq_refl (NoDup_singleton _)) as [-> _].
    reflexivity.
  - destruct (proj2 (delete_then_gone (M:=plainCasts) db1 aliceReadsTask _ _)
                (surjective_pairing _) eq_refl (NoDup_singleton _)) as [_ ->].
    reflexivity.
Defined.

Lemma delete_removes_one_witness :
  (∃ d l1 l2, projects db1 = l1 ++ d :: l2 ∧
     projects (deleteProject (M:=plainCasts) db1 aliceDeletes).1 = l1 ++ l2 ∧
     tasks (deleteProject (M:=plainCasts) db1 aliceDeletes).1 =
       List.filter (λ t, negb (bool_decide (refersTo (doc_id d) t))) (tasks db1)) ∧
  (∃ d l1 l2, tasks db1 = l1 ++ d :: l2 ∧
     tasks (deleteTask (M:=plainCasts) db1 aliceReadsTask).1 = l1 ++ l2 ∧
     projects (deleteTask (M:=plainCasts) db1 aliceReadsTask).1 = projects db1).
Proof.
  split.
  - destruct (proj1 (delete_removes_one (M:=plainCasts) db1 aliceDeletes _ _)
                (surjective_pairing _) eq_refl)
      as (u & d & l1 & l2 & _ & _ & _ & H1 & H2 & H3).
    by exists d, l1, l2.
  - destruct (proj2 (delete_removes_one (M:=plainCasts) db1 aliceReadsTask _ _)
                (surjective_pairing _) eq_refl)
      as (u & d & l1 & l2 & _ & _ & _ & H1 & H2 & H3).
    by exists d, l1, l2.
Defined.

Lemma update_transfers_ownership_witness :
  ∃ p', (updateProject (M:=plainCasts) at2000 db1 aliceGivesAway).2
        = respond 200 (JDoc p') ∧
    owner p' = Some (VOid bob) ∧
    status (updateProject (M:=plainCasts) at3000
              (updateProject (M:=plainCasts) at2000 db1 aliceGivesAway).1 rename).2
      ≠ 200 ∧
    status (deleteProject (M:=plainCasts)
              (updateProject (M:=plainCasts) at2000 db1 aliceGivesAway).1
              aliceDeletes).2 ≠ 200.
Proof.
  destruct (update_transfers_ownership (M:=plainCasts) at2000 db1 aliceGivesAway
              _ _ alice (JStr bob) bob (surjective_pairing _)
              eq_refl eq_refl eq_refl eq_refl)
    as (p' & Hp & _ & Ho & Hlater).
  exists p'. split; [exact Hp|]. split; [exact Ho|].
  assert (bob ≠ alice) as Hne by discriminate.
  split.
  - apply (Hlater Hne (NoDup_singleton _) at3000 rename); reflexivity.
  - apply (Hlater Hne (NoDup_singleton _) at3000 aliceDeletes); reflexivity.
Defined.

Lemma updateTask_keeps_no_reference_witness :
  ∃ t', (updateTask (M:=plainCasts) at2000 db1 aliceMovesTask).2
        = respond 200 (JDoc t') ∧
    refersTo freshId t' ∧
    project_ref
      (populate (projects (updateTask (M:=plainCasts) at2000 db1 aliceMovesTask).1) t')
    = None.
Proof.
  destruct (updateTask_keeps_no_reference (M:=plainCasts) at2000 db1 aliceMovesTask
              _ _ (JStr freshId) freshId (surjective_pairing _)
              eq_refl eq_refl eq_refl)
    as (t' & Ht & _ & Href & _ & Hnone).
  exists t'. split; [exact Ht|]. split; [exact Href|].
  apply Hnone. intros d Hd. apply list_elem_of_singleton in Hd. subst d.
  discriminate.
Defined.

Lemma listTasks_of_project_witness :
  listTasks (M:=plainCasts) db1 aliceLists =
    (db1, respond 200
            (JTasks (populate (projects db1) <$>
                       List.filter (λ t, visible aliceLists t
                                         && bool_decide (refersTo projectId t))
                         (tasks db1)))) ∧
  listTasks (M:=plainCasts) db1 listsBadProject =
    (db1, internalError (CastError "project")).
Proof.
  split.
  - apply (proj1 (listTasks_of_project (M:=plainCasts) db1 aliceLists
                    projectId eq_refl ltac:(discriminate))).
    reflexivity.
  - apply (proj2 (listTasks_of_project (M:=plainCasts) db1 listsBadProject
                    "nope" eq_refl ltac:(discriminate))).
    reflexivity.
Defined.

End RouteMore.

(** ** Identities, sessions and the remaining routes of [index.js] *)

Module AuthMore.
Import Auth Account AuthFacts.

(** *** Lists of identities *)

Lemma find_elem {A} (p : A → bool) (l : list A) (x : A) :
  List.find p l = Some x → x ∈ l ∧ p x = true.
Proof.
  intros H. apply find_some in H as [H1 H2].
  split; [by apply list_elem_of_In | done].
Qed.

Lemma find_none_elem {A} (p : A → bool) (l : list A) (x : A) :
  List.find p l = None → x ∈ l → p x = false.
Proof.
  intros H Hx. apply list_elem_of_In in Hx. exact (find_none p l H x Hx).
Qed.

Lemma find_app_l {A} (p : A → bool) (l1 l2 : list A) :
  List.find p l1 = None → List.find p (l1 ++ l2) = List.find p l2.
Proof.
  induction l1 as [|a l1 IH]; [done|].
  cbn [List.find app]. destruct (p a); [discriminate | exact IH].
Qed.

Lemma distinct_inj us x y :
  distinctIds us → x ∈ us → y ∈ us → user_id x = user_id y → x = y.
Proof.
  unfold distinctIds. induction us as [|a us IH]; intros Hn Hx Hy E.
  - by apply elem_of_nil in Hx.
  - rewrite fmap_cons in Hn. apply NoDup_cons in Hn as [Ha Hn].
    apply elem_of_cons in Hx as [->|Hx]; apply elem_of_cons in Hy as [->|Hy].
    + done.
    + destruct Ha. rewrite E. apply list_elem_of_fmap. by exists y.
    + destruct Ha. rewrite <- E. apply list_elem_of_fmap. by exists x.
    + by apply IH.
Qed.

Lemma deserialize_None us id :
  deserializeUser us id = None ↔ id ∉ (user_id <$> us).
Proof.
  unfold deserializeUser. split.
  - intros H Hin. apply list_elem_of_fmap in Hin as (x & -> & Hx).
    pose proof (find_none_elem _ _ _ H Hx) as Hf.
    by rewrite bool_decide_eq_false in Hf.
  - intros Hn. destruct (List.find _ us) as [x|] eqn:E; [|done].
    apply find_elem in E as [Hx Hp]. apply bool_decide_eq_true in Hp.
    destruct Hn. apply list_elem_of_fmap. by exists x.
Qed.

Lemma deserialize_Some us id u :
  deserializeUser us id = Some u → u ∈ us ∧ user_id u = id.
Proof.
  unfold deserializeUser. intros H. apply find_elem in H as [Hx Hp].
  by apply bool_decide_eq_true in Hp.
Qed.

Lemma deserialize_found us u :
  distinctIds us → u ∈ us → deserializeUser us (user_id u) = Some u.
Proof.
  intros Hn Hu. destruct (deserializeUser us (user_id u)) as [x|] eqn:E.
  - apply deserialize_Some in E as [Hx Hid].
    f_equal. by apply (distinct_inj us).
  - apply deserialize_None in E. destruct E.
    apply list_elem_of_fmap. by exists u.
Qed.

(** *** [user.save()] on a stored identity *)

Lemma saveUser_ids u us : user_id <$> saveUser u us = user_id <$> us.
Proof.
  unfold saveUser. rewrite <- list_fmap_compose.
  apply list_fmap_ext. intros i x _. cbn. by case_decide.
Qed.

Lemma saveUser_length u us : length (saveUser u us) = length us.
Proof. unfold saveUser. by rewrite length_fmap. Qed.

Lemma saveUser_keys u found us :
  distinctIds us → found ∈ us →
  user_id u = user_id found → identityKey u = identityKey found →
  identityKey <$> saveUser u us = identityKey <$> us.
Proof.
  intros Hn Hf Hid Hk. unfold saveUser. rewrite <- list_fmap_compose.
  apply list_fmap_ext. intros i x Hx. cbn. case_decide as E; [|done].
  rewrite Hk. f_equal. symmetry. apply (distinct_inj us); [done| |done|congruence].
  by eapply list_elem_of_lookup_2.
Qed.

Lemma saveUser_elem u us x :
  x ∈ saveUser u us → x = u ∨ x ∈ us ∧ user_id x ≠ user_id u.
Proof.
  unfold saveUser. intros H. apply list_elem_of_fmap in H as (y & -> & Hy).
  case_decide; [by left | by right].
Qed.

Lemma saveUser_other u us x :
  x ∈ us → user_id x ≠ user_id u → x ∈ saveUser u us.
Proof.
  intros Hx Hne. unfold saveUser. apply list_elem_of_fmap.
  exists x. split; [|done]. by case_decide.
Qed.

Lemma saveUser_self u us found :
  found ∈ us → user_id found = user_id u → u ∈ saveUser u us.
Proof.
  intros Hx E. unfold saveUser. apply list_elem_of_fmap.
  exists found. split; [|done]. by case_decide.
Qed.

(** A query that selected [found] selects the saved document when the
    document still satisfies it. *)
Lemma find_saveUser (q : User → bool) u us found :
  List.find q us = Some found → q u = true → user_id u = user_id found →
  List.find q (saveUser u us) = Some u.
Proof.
  intros Hf Hq Hid. unfold saveUser.
  induction us as [|a us IH]; [discriminate|].
  rewrite fmap_cons. cbn [List.find] in Hf |- *.
  case_decide as E.
  - by rewrite Hq.
  - destruct (q a) eqn:Ha.
    + injection Hf as ->. by destruct E.
    + by apply IH.
Qed.

Lemma find_saveUser_id u us :
  user_id u ∈ (user_id <$> us) →
  deserializeUser (saveUser u us) (user_id u) = Some u.
Proof.
  unfold deserializeUser, saveUser.
  induction us as [|a us IH]; intros Hin.
  - by apply elem_of_nil in Hin.
  - rewrite !fmap_cons in *. cbn [List.find].
    case_decide as E.
    + by rewrite bool_decide_eq_true_2.
    + rewrite bool_decide_eq_false_2 by done.
      apply elem_of_cons in Hin as [Hin|Hin]; [by destruct E|by apply IH].
Qed.

(** *** The two create-or-update steps *)

Lemma linkedin_key_absent p us :
  List.find (λ u, bool_decide (socialId u = sub p)
                  && bool_decide (platform u = "linkedin")) us = None →
  (sub p, "linkedin") ∉ (identityKey <$> us).
Proof.
  intros H Hin. apply list_elem_of_fmap in Hin as (x & Hk & Hx).
  pose proof (find_none_elem _ _ _ H Hx) as Hf. cbn in Hf.
  unfold identityKey in Hk. injection Hk as Hs Hp.
  by rewrite !bool_decide_eq_true_2 in Hf.
Qed.

Lemma linkedin_key_found p us found :
  List.find (λ u, bool_decide (socialId u = sub p)
                  && bool_decide (platform u = "linkedin")) us = Some found →
  found ∈ us ∧ identityKey found = (sub p, "linkedin").
Proof.
  intros H. apply find_elem in H as [Hx Hp]. split; [done|].
  apply andb_true_iff in Hp as [H1 H2].
  apply bool_decide_eq_true in H1, H2. unfold identityKey. by rewrite H1, H2.
Qed.

Lemma distinct_snoc {A} (l : list A) (x : A) :
  NoDup l → x ∉ l → NoDup (l ++ [x]).
Proof.
  intros Hl Hx. apply NoDup_app. split; [done|]. split.
  - intros y Hy Hy'. apply list_elem_of_singleton in Hy' as ->. done.
  - apply NoDup_singleton.
Qed.

Lemma linkedinUpsert_distinct env p us :
  distinctIds us → distinctIdentities us → newId env ∉ (user_id <$> us) →
  distinctIds (linkedinUpsert env p us).1 ∧
  distinctIdentities (linkedinUpsert env p us).1.
Proof.
  intros Hi Hk Hnew. unfold linkedinUpsert.
  destruct (List.find _ us) as [found|] eqn:E; cbn [fst].
  - apply linkedin_key_found in E as [Hf Hkey]. split.
    + unfold distinctIds. by rewrite saveUser_ids.
    + unfold distinctIdentities. by rewrite (saveUser_keys _ found).
  - apply linkedin_key_absent in E. split.
    + unfold distinctIds. rewrite fmap_app. by apply distinct_snoc.
    + unfold distinctIdentities. rewrite fmap_app. by apply distinct_snoc.
Qed.

Lemma googleVerify_distinct env g us us' u :
  distinctIds us → distinctIdentities us → newId env ∉ (user_id <$> us) →
  googleVerify env g us = Ok (us', u) →
  distinctIds us' ∧ distinctIdentities us'.
Proof.
  intros Hi Hk Hnew. unfold googleVerify.
  destruct (List.find _ us) as [found|] eqn:E.
  - intros [= <- <-]. apply find_elem in E as [Hf _]. split.
    + unfold distinctIds. by rewrite saveUser_ids.
    + unfold distinctIdentities. by rewrite (saveUser_keys _ found).
  - destruct (emails g) as [|e es]; [discriminate|]. intros [= <- <-]. split.
    + unfold distinctIds. rewrite fmap_app. by apply distinct_snoc.
    + unfold distinctIdentities. rewrite fmap_app. apply distinct_snoc; [done|].
      intros Hin. apply list_elem_of_fmap in Hin as (x & Hx & Hin).
      pose proof (find_none_elem _ _ _ E Hin) as Hf. cbn in Hf.
      unfold identityKey in Hx. injection Hx as Hs Hp.
      by rewrite bool_decide_eq_true_2 in Hf.
Qed.

Lemma deserialize_upserted env p us :
  newId env ∉ (user_id <$> us) →
  deserializeUser (linkedinUpsert env p us).1
    (user_id (linkedinUpsert env p us).2) = Some (linkedinUpsert env p us).2.
Proof.
  intros Hnew. unfold linkedinUpsert.
  destruct (List.find _ us) as [found|] eqn:E; cbn [fst snd].
  - apply find_elem in E as [Hf _].
    match goal with |- deserializeUser (saveUser ?u _) _ = _ =>
      apply (find_saveUser_id u) end.
    cbn. apply list_elem_of_fmap. by exists found.
  - unfold deserializeUser. rewrite find_app_l.
    + cbn. by rewrite bool_decide_eq_true_2.
    + by apply deserialize_None.
Qed.

Lemma deserialize_verified env g us us' u :
  newId env ∉ (user_id <$> us) →
  googleVerify env g us = Ok (us', u) →
  deserializeUser us' (user_id u) = Some u ∧
  u ∈ us' ∧ socialId u = g_id g ∧ lastLogin u = now env.
Proof.
  intros Hnew. unfold googleVerify.
  destruct (List.find _ us) as [found|] eqn:E.
  - intros [= <- <-]. apply find_elem in E as [Hf Hp].
    apply bool_decide_eq_true in Hp.
    split; [|split; [|done]].
    + match goal with |- deserializeUser (saveUser ?u _) _ = _ =>
        apply (find_saveUser_id u) end.
      cbn. apply list_elem_of_fmap. by exists found.
    + by apply (saveUser_self _ _ found).
  - destruct (emails g) as [|e es]; [discriminate|]. intros [= <- <-].
    split; [|split; [|done]].
    + unfold deserializeUser. rewrite find_app_l.
      * cbn. by rewrite bool_decide_eq_true_2.
      * by apply deserialize_None.
    + apply elem_of_app. right. by apply list_elem_of_singleton.
Qed.

(** *** Sessions *)

Lemma arrive_session w r :
  session (arrive w r) = loadSession w (sessionID r).
Proof. done. Qed.

Lemma loadSession_store sid s w : loadSession (store sid s w) sid = s.
Proof. unfold loadSession, store. cbn. by rewrite lookup_insert_eq. Qed.

(** *** Properties of the identity collection *)

(** X13: over identities with distinct ids, [deserializeUser] undoes
    [serializeUser]: the id stored in a session leads back to the identity
    it was taken from, a found identity carries the id asked for, and the
    lookup is empty exactly for the ids no identity has. *)
Theorem serialize_round_trip us :
  distinctIds us →
  (∀ u, u ∈ us → deserializeUser us (serializeUser u) = Some u) ∧
  (∀ id u, deserializeUser us id = Some u → u ∈ us ∧ serializeUser u = id) ∧
  (∀ id, deserializeUser us id = None ↔ id ∉ (user_id <$> us)).
Proof.
  intros Hn. split; [|split].
  - intros u Hu. by apply deserialize_found.
  - intros id u. apply deserialize_Some.
  - intros id. apply deserialize_None.
Qed.

(** X14: both create-or-update steps keep the identity collection well
    formed: when the ids and the (socialId, platform) pairs of the stored
    identities are distinct and the generated id is new, they are distinct
    after a LinkedIn upsert and after a Google verify callback that
    returns. *)
Theorem identities_stay_distinct env us :
  distinctIds us → distinctIdentities us → newId env ∉ (user_id <$> us) →
  (∀ p, distinctIds (linkedinUpsert env p us).1 ∧
        distinctIdentities (linkedinUpsert env p us).1) ∧
  (∀ g us' u, googleVerify env g us = Ok (us', u) →
              distinctIds us' ∧ distinctIdentities us').
Proof.
  intros Hi Hk Hnew. split.
  - intros p. by apply linkedinUpsert_distinct.
  - intros g us' u. by apply googleVerify_distinct.
Qed.

(** X15: the LinkedIn upsert touches one identity only. The identity it
    returns is stored, has the profile's subject and the platform
    linkedin and the current time as lastLogin; every stored identity with
    another (socialId, platform) pair is still stored as it was, nothing
    else appears, and the collection grows by one exactly when no identity
    had that pair. *)
Theorem linkedinUpsert_frame env p us us' u :
  distinctIds us →
  linkedinUpsert env p us = (us', u) →
  u ∈ us' ∧ identityKey u = (sub p, "linkedin") ∧ lastLogin u = now env ∧
  (∀ x, x ∈ us → identityKey x ≠ (sub p, "linkedin") → x ∈ us') ∧
  (∀ x, x ∈ us' → x = u ∨ x ∈ us) ∧
  (((sub p, "linkedin") ∈ (identityKey <$> us)) ∧ length us' = length us ∨
   ((sub p, "linkedin") ∉ (identityKey <$> us)) ∧ length us' = S (length us)).
Proof.
  intros Hn. unfold linkedinUpsert.
  destruct (List.find _ us) as [found|] eqn:E; intros [= <- <-].
  - apply linkedin_key_found in E as [Hf Hkey].
    split; [by apply (saveUser_self _ _ found)|].
    split; [exact Hkey|]. split; [done|]. split; [|split].
    + intros x Hx Hne. apply saveUser_other; [done|]. cbn.
      intros Hid. apply Hne. by rewrite (distinct_inj us x found).
    + intros x Hx. apply saveUser_elem in Hx as [->|[Hx _]]; auto.
    + left. split; [|apply saveUser_length].
      apply list_elem_of_fmap. by exists found.
  - apply linkedin_key_absent in E.
    split; [apply elem_of_app; right; by apply list_elem_of_singleton|].
    split; [done|]. split; [done|]. split; [|split].
    + intros x Hx _. apply elem_of_app. by left.
    + intros x Hx. apply elem_of_app in Hx as [Hx|Hx]; [by right|].
      left. by apply list_elem_of_singleton in Hx.
    + right. split; [done|]. rewrite length_app. cbn. lia.
Qed.

(** X16: a returning user is recognised. A second LinkedIn upsert with the
    same profile returns the identity of the first (same id, same
    createdAt) with the new lastLogin and adds nothing; a second Google
    verify callback after one that returned also returns, with the same
    id, and adds nothing. *)
Theorem returning_user_recognised env1 env2 us :
  (∀ p,
     let first := linkedinUpsert env1 p us in
     let second := linkedinUpsert env2 p first.1 in
     user_id second.2 = user_id first.2 ∧
     createdAt second.2 = createdAt first.2 ∧
     lastLogin second.2 = now env2 ∧
     length second.1 = length first.1) ∧
  (∀ g us1 u1,
     googleVerify env1 g us = Ok (us1, u1) →
     ∃ us2 u2,
       googleVerify env2 g us1 = Ok (us2, u2) ∧
       user_id u2 = user_id u1 ∧ createdAt u2 = createdAt u1 ∧
       lastLogin u2 = now env2 ∧ length us2 = length us1).
Proof.
  split.
  - intros p first second.
    assert (List.find (λ u, bool_decide (socialId u = sub p)
                            && bool_decide (platform u = "linkedin")) first.1
            = Some first.2) as Hfind.
    { subst first. unfold linkedinUpsert.
      destruct (List.find _ us) as [found|] eqn:E; cbn [fst snd].
      - pose proof (linkedin_key_found _ _ _ E) as [_ Hkey].
        unfold identityKey in Hkey. injection Hkey as Hs Hp.
        apply (find_saveUser _ _ _ found); [done| |done].
        cbn. by rewrite !bool_decide_eq_true_2.
      - rewrite find_app_l by done. cbn.
        by rewrite !bool_decide_eq_true_2. }
    subst second. unfold linkedinUpsert at 1 2 3 4.
    rewrite Hfind. cbn [fst snd]. rewrite saveUser_length. done.
  - intros g us1 u1 H.
    assert (List.find (λ u, bool_decide (socialId u = g_id g)) us1 = Some u1)
      as Hfind.
    { revert H. unfold googleVerify.
      destruct (List.find _ us) as [found|] eqn:E.
      - intros [= <- <-]. pose proof (find_elem _ _ _ E) as [_ Hp].
        apply (find_saveUser _ _ _ found); [done|exact Hp|done].
      - destruct (emails g) as [|e es]; [discriminate|]. intros [= <- <-].
        rewrite find_app_l by done. cbn. by rewrite bool_decide_eq_true_2. }
    unfold googleVerify. rewrite Hfind. eexists _, _. split; [reflexivity|].
    cbn. by rewrite saveUser_length.
Qed.

(** *** The LinkedIn routes *)

(** X17: where a LinkedIn callback that does not log in stops. A provider
    error is passed on before anything else is looked at. After every
    answer other than the redirect to the profile, login_failed and
    session_error, the route has changed neither the store nor the
    session. After login_failed or session_error the upsert of the fetched
    profile is stored and the request has the regenerated session: empty,
    with the old record kept, when the destroy failed; bound to the
    identity, with the old record destroyed, otherwise (and stored already
    after session_error). The session middleware then stores that session
    under the new id, so that after a failing save inside [req.login] the
    store holds a session bound to the identity although the answer was
    login_failed. *)
Theorem callback_failure_effects env w r w' l resp :
  linkedinCallback env w r = (w', l, resp) →
  (from_option truthy false (q_error r) = true →
   w' = w ∧ l = loaded r ∧
   resp = RedirectProviderError (default JNull (q_error r))
            (q_error_description r)) ∧
  (resp ≠ RedirectProfile → resp ≠ RedirectError "login_failed" →
   resp ≠ RedirectError "session_error" → w' = w ∧ l = loaded r) ∧
  (resp = RedirectError "login_failed" ∨ resp = RedirectError "session_error" →
   ∃ p,
     let u := (linkedinUpsert env p (users w)).2 in
     let bound :=
       {| linkedInState := None; passport_user := Some (user_id u) |} in
     accessToken env (q_code r) ≫= userinfo env = Some p ∧
     users w' = (linkedinUpsert env p (users w)).1 ∧
     live_id l = newSessionID env ∧ saved l = false ∧
     (destroyFails env = true →
      resp = RedirectError "login_failed" ∧
      sessions w' = sessions w ∧ live_session l = emptySession) ∧
     (destroyFails env = false → loginSaveFails env = true →
      resp = RedirectError "login_failed" ∧
      sessions w' = delete (sessionID r) (sessions w) ∧
      live_session l = bound ∧
      sessions (serveCallback env w r).1 !! newSessionID env = Some bound) ∧
     (loginFails env = false →
      resp = RedirectError "session_error" ∧
      sessions w' =
        <[newSessionID env := bound]> (delete (sessionID r) (sessions w)) ∧
      live_session l = bound)).
Proof.
  intros H. pose proof H as Hrun. revert H. unfold linkedinCallback.
  destruct (from_option truthy false (q_error r)) eqn:Eerr.
  { intros [= <- <- <-]. split; [done|]. split; [done|].
    intros [?|?]; discriminate. }
  split; [discriminate|]. revert H.
  destruct (sessions w !! sessionID r) as [vs|];
    [|intros [= <- <- <-]; split; [done|]; intros [?|?]; discriminate].
  destruct (strictNeq _ _);
    [intros [= <- <- <-]; split; [done|]; intros [?|?]; discriminate|].
  destruct (accessToken env (q_code r) ≫= userinfo env) as [p|];
    [|intros [= <- <- <-]; split; [done|]; intros [?|?]; discriminate].
  destruct (linkedinUpsert env p (users w)) as [us u] eqn:Eu.
  unfold login, loginFails.
  destruct (destroyFails env) eqn:Ed.
  { intros [= <- <- <-]. split; [done|]. intros _. exists p. rewrite Eu.
    cbn. repeat split; try done. }
  destruct (loginSaveFails env) eqn:El.
  { intros [= <- <- <-]. split; [done|]. intros _. exists p. rewrite Eu.
    cbn. split; [done|]. split; [done|]. split; [done|]. split; [done|].
    split; [done|]. split; [|done]. intros _ _.
    split; [done|]. split; [done|]. split; [done|].
    unfold serveCallback. rewrite Hrun. cbn. by rewrite lookup_insert_eq. }
  destruct (saveFails env).
  { intros [= <- <- <-]. split; [done|]. intros _. exists p. rewrite Eu.
    cbn. repeat split; try done. }
  intros [= <- <- <-]. split; [done|]. intros [?|?]; discriminate.
Qed.

(** X18: after the LinkedIn flow has been started, the session holds the
    issued state and nothing else changed: the identities, the user bound
    to the session and all other sessions are as before. A callback of
    that session presenting any other state is answered invalid_state and
    changes nothing, so an earlier state is no longer accepted; a callback
    presenting the issued state, with the provider accepting the code,
    logs in. *)
Theorem initiate_replaces_state env w r w' st :
  serveInitiate env w r = (w', RedirectLinkedIn st) →
  st = randomState env ∧ users w' = users w ∧
  sessions w' !! sessionID r = Some (setState (Some st) (session r)) ∧
  (∀ other, other ≠ sessionID r → sessions w' !! other = sessions w !! other) ∧
  (∀ env2 r2 v,
     sessionID r2 = sessionID r →
     from_option truthy false (q_error r2) = false →
     q_state r2 = Some v → v ≠ JStr st →
     serveCallback env2 w' (arrive w' r2) = (w', RedirectError "invalid_state")) ∧
  (∀ env2 r2 p,
     sessionID r2 = sessionID r →
     from_option truthy false (q_error r2) = false →
     q_state r2 = Some (JStr st) →
     accessToken env2 (q_code r2) ≫= userinfo env2 = Some p →
     loginFails env2 = false → saveFails env2 = false →
     (serveCallback env2 w' (arrive w' r2)).2 = RedirectProfile).
Proof.
  unfold serveInitiate, linkedinInitiate, commit.
  destruct (saveFails env); [discriminate|].
  cbn [saved]. intros [= <- <-].
  set (s := setState (Some (randomState env)) (session r)).
  set (w' := store (sessionID r) s w).
  assert (sessions w' !! sessionID r = Some s) as Hs
    by (cbn; by rewrite lookup_insert_eq).
  split; [done|]. split; [done|]. split; [exact Hs|]. split; [|split].
  - intros other Hne. cbn. by rewrite !lookup_insert_ne.
  - intros env2 r2 v Hid Herr Hv Hne.
    assert (strictNeq (q_state (arrive w' r2)) (linkedInState s) = true)
      as Hneq.
    { cbn [arrive q_state]. rewrite Hv. cbn.
      destruct v as [| | |a| |]; try done.
      destruct (String.eqb_spec a (randomState env)); [|done].
      subst a. by destruct Hne. }
    assert (sessions w' !! sessionID (arrive w' r2) = Some s) as Hs2
      by (cbn [arrive sessionID]; by rewrite Hid).
    unfold serveCallback.
    rewrite (callback_state_mismatch env2 w' (arrive w' r2) s Herr Hs2 Hneq).
    unfold commit, loaded. cbn [arrive sessionID session saved live_id live_session].
    rewrite Hid. by rewrite (store_loaded _ _ _ Hs).
  - intros env2 r2 p Hid Herr Hv Hp Hl Hsv.
    unfold serveCallback, linkedinCallback.
    cbn [arrive sessionID session q_error q_state q_code].
    rewrite Herr, Hid, Hs, Hv. unfold s at 1.
    cbn [strictNeq setState linkedInState].
    rewrite String.eqb_refl. cbn [negb]. rewrite Hp.
    destruct (linkedinUpsert env2 p _) as [us u].
    by rewrite (login_succeeds _ _ _ _ Hl), Hsv.
Qed.

(** *** Profile, logout and the Google callback *)

(** X19: after a LinkedIn callback that logged in, GET /profile on the
    session that the login gave the request answers 200 with the data of
    the fetched profile: its name and email, the platform linkedin and the
    time of this login. The generated id must not be the id of a stored
    identity. *)
Theorem login_then_profile env w r w' p :
  newId env ∉ (user_id <$> users w) →
  serveCallback env w r = (w', RedirectProfile) →
  accessToken env (q_code r) ≫= userinfo env = Some p →
  ∀ r2, sessionID r2 = newSessionID env →
    ∃ j, getProfile w' (arrive w' r2) = ProfileOf j ∧
         pj_name j = li_name p ∧ pj_email j = li_email p ∧
         pj_platform j = "linkedin" ∧ pj_lastLogin j = now env.
Proof.
  intros Hnew H Hp r2 Hid.
  apply success_world in H as (p' & Hp' & ->).
  rewrite Hp in Hp'. injection Hp' as <-.
  unfold getProfile, requestUser.
  rewrite arrive_session, Hid, loadSession_store.
  cbn [passport_user store destroy users mbind option_bind].
  rewrite (deserialize_upserted _ _ _ Hnew).
  eexists. split; [reflexivity|]. cbn.
  unfold linkedinUpsert.
  destruct (List.find _ (users w)) as [found|] eqn:E; cbn; [|done].
  apply linkedin_key_found in E as [_ Hkey].
  unfold identityKey in Hkey. by injection Hkey as _ ->.
Qed.

(** X20: GET /logout never changes the identities. When both calls
    succeed, the session is gone from the store and every other session is
    as before: GET /profile on the session answers 401, on other sessions
    what it answered before, and a LinkedIn callback on the session is
    answered no_session, whatever state was pending. *)
Theorem logout_ends_session w r :
  (∀ run, users (logout run w r).1 = users w) ∧
  (∀ run, (logout run w r).2 = LoggedOut ↔ run = Destroyed) ∧
  let w' := (logout Destroyed w r).1 in
  sessions w' !! sessionID r = None ∧
  (∀ r2, sessionID r2 = sessionID r →
     getProfile w' (arrive w' r2) = Unauthorized ∧
     ∀ env, from_option truthy false (q_error r2) = false →
       linkedinCallback env w' (arrive w' r2) =
       (w', {| live_id := sessionID r2; live_session := emptySession;
               saved := false |}, RedirectError "no_session")) ∧
  (∀ r2, sessionID r2 ≠ sessionID r →
     getProfile w' (arrive w' r2) = getProfile w (arrive w r2)).
Proof.
  split; [by intros []|]. split.
  { intros []; cbn; split; intros; done. }
  cbn [logout fst].
  assert (∀ r2, sessionID r2 = sessionID r →
            loadSession {| sessions := delete (sessionID r) (sessions w);
                           users := users w |} (sessionID r2) = emptySession)
    as Hload.
  { intros r2 ->. unfold loadSession. cbn. by rewrite lookup_delete_eq. }
  split; [cbn; by rewrite lookup_delete_eq|]. split.
  - intros r2 Hid. split.
    + unfold getProfile, requestUser. by rewrite arrive_session, Hload.
    + intros env Herr. unfold linkedinCallback, loaded.
      cbn [arrive sessionID session q_error]. rewrite Herr, Hload by done.
      cbn [sessions]. by rewrite Hid, lookup_delete_eq.
  - intros r2 Hne. unfold getProfile, requestUser.
    rewrite !arrive_session. unfold loadSession. cbn [sessions users].
    by rewrite lookup_delete_ne.
Qed.

(** X21: a Google callback that ends with the redirect to the profile has
    regenerated the session: the store holds, under the new id, a session
    bound to a stored identity whose socialId is the id of the Google
    profile and whose lastLogin is the time of the request, the record of
    the old id is destroyed, and GET /profile on the new session answers
    with the data of that identity. The generated id must not be the id of
    a stored identity. *)
Theorem google_callback_binds env ex w r w' :
  newId env ∉ (user_id <$> users w) →
  serveGoogle env ex w r = (w', Frontend RedirectProfile) →
  ∃ g u,
    ex = Granted g ∧ u ∈ users w' ∧
    socialId u = g_id g ∧ lastLogin u = now env ∧
    sessions w' !! newSessionID env =
      Some {| linkedInState := None; passport_user := Some (user_id u) |} ∧
    (newSessionID env ≠ sessionID r → sessions w' !! sessionID r = None) ∧
    ∀ r2, sessionID r2 = newSessionID env →
      getProfile w' (arrive w' r2) =
      ProfileOf {| pj_name := name u; pj_email := email u;
                   pj_profilePicture := profilePicture u;
                   pj_platform := platform u; pj_lastLogin := now env |}.
Proof.
  intros Hnew. unfold serveGoogle, googleCallback.
  destruct ex as [| |g]; [discriminate..|].
  destruct (googleVerify env g (users w)) as [[us u]|e] eqn:Ev; [|discriminate].
  destruct (login env u (sessionID r) _) as [[w2 live] failed] eqn:Hlog.
  destruct failed; [discriminate|].
  pose proof (login_failed_inv _ _ _ _ _ _ Hlog) as Hl.
  rewrite (login_succeeds _ _ _ _ Hl) in Hlog. injection Hlog as <- <-.
  destruct (saveFails env); [discriminate|].
  cbn [commit saved live_id live_session]. rewrite !store_store.
  intros [= <-].
  apply (deserialize_verified _ _ _ _ _ Hnew) in Ev as (Hd & Hu & Hs & Hlast).
  exists g, u. split; [done|]. split; [exact Hu|]. split; [done|].
  split; [done|]. split; [cbn; by rewrite lookup_insert_eq|]. split.
  - intros Hne. cbn. rewrite lookup_insert_ne by done.
    by rewrite lookup_delete_eq.
  - intros r2 Hid. unfold getProfile, requestUser.
    rewrite arrive_session, Hid, loadSession_store.
    cbn [passport_user store destroy users mbind option_bind].
    rewrite Hd. by rewrite Hlast.
Qed.

(** X22: a Google callback that does not log in. When the exchange gives
    no profile the session is stored as the request carried it and no
    identity changes; a new user's profile without an email makes the
    verify callback fail before anything is saved. When the save that
    ends [req.login] fails, the answer is the 500 of the error middleware,
    but the session is regenerated already: when the response ends the
    store holds, under the new id, a session bound to the identity, and
    the record of the old id is destroyed. *)
Theorem google_callback_failure env w r :
  serveGoogle env Denied w r = (store (sessionID r) (session r) w, Home) ∧
  serveGoogle env Broken w r = (store (sessionID r) (session r) w, ServerError) ∧
  (∀ g, emails g = [] → g_id g ∉ (socialId <$> users w) →
     serveGoogle env (Granted g) w r
     = (store (sessionID r) (session r) w, ServerError)) ∧
  (∀ g us u,
     googleVerify env g (users w) = Ok (us, u) →
     destroyFails env = false → loginSaveFails env = true →
     serveGoogle env (Granted g) w r
     = (store (newSessionID env)
          {| linkedInState := None; passport_user := Some (user_id u) |}
          (destroy (sessionID r) {| sessions := sessions w; users := us |}),
        ServerError)).
Proof.
  split; [done|]. split; [done|]. split.
  - intros g He Hnew. unfold serveGoogle, googleCallback, googleVerify.
    destruct (List.find _ (users w)) as [found|] eqn:E.
    + apply find_elem in E as [Hf Hp]. apply bool_decide_eq_true in Hp.
      destruct Hnew. apply list_elem_of_fmap. by exists found.
    + by rewrite He.
  - intros g us u Hv Hd Hs. unfold serveGoogle, googleCallback, login.
    by rewrite Hv, Hd, Hs.
Qed.

(** X25: the check for an existing session stops a client once. A
    callback on a session id that the store does not hold is answered
    no_session, and the session middleware then stores the new, empty
    session. The same callback sent again finds that session: without a
    state parameter it passes the state check and, with the provider
    accepting the code, logs in; with a state parameter it is answered
    invalid_state. *)
Theorem no_session_is_transient env w r :
  sessions w !! sessionID r = None →
  from_option truthy false (q_error r) = false →
  let w1 := store (sessionID r) emptySession w in
  serveCallback env w (arrive w r) = (w1, RedirectError "no_session") ∧
  users w1 = users w ∧
  (∀ env2 p,
     q_state r = None →
     accessToken env2 (q_code r) ≫= userinfo env2 = Some p →
     loginFails env2 = false → saveFails env2 = false →
     (serveCallback env2 w1 (arrive w1 r)).2 = RedirectProfile) ∧
  (∀ env2,
     is_Some (q_state r) →
     serveCallback env2 w1 (arrive w1 r) = (w1, RedirectError "invalid_state")).
Proof.
  intros Hs Herr w1.
  assert (sessions w1 !! sessionID r = Some emptySession) as Hs1
    by (unfold w1; cbn; by rewrite lookup_insert_eq).
  split; [|split; [done|split]].
  - unfold serveCallback, linkedinCallback, commit, loaded.
    cbn [arrive sessionID session q_error]. rewrite Herr, Hs.
    cbn [saved live_id live_session]. unfold loadSession. by rewrite Hs.
  - intros env2 p Hst Hp Hl Hsv. unfold serveCallback, linkedinCallback.
    cbn [arrive sessionID session q_error q_state q_code].
    rewrite Herr, Hs1, Hst. cbn [strictNeq emptySession linkedInState].
    rewrite Hp. destruct (linkedinUpsert env2 p _) as [us u].
    by rewrite (login_succeeds _ _ _ _ Hl), Hsv.
  - intros env2 Hst.
    assert (stateless w1 (sessionID (arrive w1 r))) as Hless.
    { intros s. cbn [arrive sessionID]. rewrite Hs1. by intros [= <-]. }
    destruct (consumed_rejects env2 w1 (arrive w1 r) Hless Hst)
      as (_ & Hw & Hresp).
    destruct (Hresp Herr) as [_ Hinv].
    rewrite (surjective_pairing (serveCallback env2 w1 (arrive w1 r))).
    rewrite Hw, Hinv by (cbn [arrive sessionID]; rewrite Hs1; by eexists).
    cbn [arrive sessionID session].
    by rewrite (store_loaded _ _ _ Hs1).
Qed.

(** *** Instances *)

Import Sample Cases.

Lemma serialize_round_trip_witness :
  deserializeUser [linkedinUser; malloryUser] (serializeUser malloryUser)
  = Some malloryUser ∧
  deserializeUser [linkedinUser; malloryUser] bob = None.
Proof.
  destruct (serialize_round_trip [linkedinUser; malloryUser]) as (H1 & _ & H3).
  - unfold distinctIds. compute_done.
  - split.
    + apply H1. right. left.
    + apply H3. compute_done.
Defined.

Lemma identities_stay_distinct_witness :
  (distinctIds (linkedinUpsert provider mallory [linkedinUser]).1 ∧
   distinctIdentities (linkedinUpsert provider mallory [linkedinUser]).1) ∧
  ∃ us' u, googleVerify provider googleProfile [linkedinUser] = Ok (us', u) ∧
    distinctIds us' ∧ distinctIdentities us'.
Proof.
  destruct (identities_stay_distinct provider [linkedinUser]) as [Hl Hg].
  - unfold distinctIds. compute_done.
  - unfold distinctIdentities. compute_done.
  - compute_done.
  - split; [apply Hl|].
    eexists _, _. split; [reflexivity|]. by eapply (Hg googleProfile).
Defined.

Lemma linkedinUpsert_frame_witness :
  linkedinUpsert provider mallory [linkedinUser]
  = ([linkedinUser; malloryUser], malloryUser) ∧
  identityKey malloryUser = ("li-7", "linkedin") ∧
  linkedinUser ∈ [linkedinUser; malloryUser].
Proof.
  assert (linkedinUpsert provider mallory [linkedinUser]
          = ([linkedinUser; malloryUser], malloryUser)) as E by reflexivity.
  destruct (linkedinUpsert_frame provider mallory [linkedinUser] _ _
              (NoDup_singleton _) E) as (_ & Hk & _ & Hkeep & _).
  split; [exact E|]. split; [exact Hk|].
  apply Hkeep; [left | discriminate].
Defined.

Lemma returning_user_recognised_witness :
  user_id (linkedinUpsert failingLogin mallory
             (linkedinUpsert provider mallory []).1).2 = freshId ∧
  ∃ us2 u2,
    googleVerify failingLogin googleProfile [googleUser] = Ok (us2, u2) ∧
    user_id u2 = freshId ∧ length us2 = 1%nat.
Proof.
  destruct (returning_user_recognised provider failingLogin []) as [Hl Hg].
  split.
  - apply (Hl mallory).
  - destruct (Hg googleProfile [googleUser] googleUser eq_refl)
      as (us2 & u2 & E & Hid & _ & _ & Hlen).
    by exists us2, u2.
Defined.

Lemma callback_failure_effects_witness :
  linkedinCallback provider pending staleCallback
  = (pending, loaded staleCallback, RedirectError "invalid_state") ∧
  ∃ w' l,
    linkedinCallback failingLogin pending goodCallback
    = (w', l, RedirectError "login_failed") ∧
    users w' = [malloryUser] ∧ sessions w' = ∅ ∧
    sessions (serveCallback failingLogin pending goodCallback).1 !! "session-2"
    = Some {| linkedInState := None; passport_user := Some freshId |}.
Proof.
  split.
  - destruct (linkedinCallback provider pending staleCallback)
      as [[w' l] resp] eqn:E.
    assert (resp = RedirectError "invalid_state") as ->
      by (vm_compute in E; by injection E as _ _ <-).
    destruct (callback_failure_effects _ _ _ _ _ _ E) as (_ & H & _).
    by destruct H as [-> ->].
  - destruct (linkedinCallback failingLogin pending goodCallback)
      as [[w' l] resp] eqn:E.
    assert (resp = RedirectError "login_failed") as ->
      by (vm_compute in E; by injection E as _ _ <-).
    destruct (callback_failure_effects _ _ _ _ _ _ E) as (_ & _ & Hu).
    exists w', l. split; [done|].
    destruct Hu as (p & Hp & Hus & _ & _ & _ & Hsave & _); [by left|].
    vm_compute in Hp. injection Hp as <-.
    destruct (Hsave eq_refl eq_refl) as (_ & Hss & _ & Hbound).
    split; [rewrite Hus; reflexivity|].
    split; [rewrite Hss; vm_compute; reflexivity|].
    exact Hbound.
Defined.

Lemma initiate_replaces_state_witness :
  serveInitiate provider idle startFlow
  = (pending, RedirectLinkedIn "9f86d081884c7d65") ∧
  serveCallback provider pending (arrive pending staleCallback)
  = (pending, RedirectError "invalid_state") ∧
  (serveCallback provider pending (arrive pending goodCallback)).2
  = RedirectProfile.
Proof.
  assert (serveInitiate provider idle startFlow
          = (pending, RedirectLinkedIn "9f86d081884c7d65")) as E
    by (vm_compute; reflexivity).
  destruct (initiate_replaces_state provider idle startFlow _ _ E)
    as (_ & _ & _ & _ & Hstale & Hgood).
  split; [exact E|]. split.
  - apply (Hstale provider staleCallback (JStr "0123456789abcdef"));
      [reflexivity..|discriminate].
  - apply (Hgood provider goodCallback mallory); reflexivity.
Defined.

Lemma login_then_profile_witness :
  serveCallback provider pending goodCallback = (afterLogin, RedirectProfile) ∧
  ∃ j, getProfile afterLogin (arrive afterLogin replayNew) = ProfileOf j ∧
       pj_name j = Some "Mallory" ∧ pj_email j = Some "m@example.org" ∧
       pj_platform j = "linkedin" ∧ pj_lastLogin j = 5000.
Proof.
  assert (serveCallback provider pending goodCallback
          = (afterLogin, RedirectProfile)) as E by (vm_compute; reflexivity).
  split; [exact E|].
  apply (login_then_profile provider pending goodCallback afterLogin mallory);
    [compute_done | exact E | reflexivity | reflexivity].
Defined.

Lemma logout_ends_session_witness :
  getProfile loggedIn (arrive loggedIn goodCallback) ≠ Unauthorized ∧
  getProfile (logout Destroyed loggedIn goodCallback).1
    (arrive (logout Destroyed loggedIn goodCallback).1 goodCallback)
  = Unauthorized.
Proof.
  split; [discriminate|].
  destruct (logout_ends_session loggedIn goodCallback) as (_ & _ & _ & H & _).
  apply (H goodCallback eq_refl).
Defined.

Lemma google_callback_binds_witness :
  ∃ w' u,
    serveGoogle provider (Granted googleProfile) idle noState
    = (w', Frontend RedirectProfile) ∧
    u ∈ users w' ∧ socialId u = "42" ∧
    sessions w' !! sessionID noState = None ∧
    getProfile w' (arrive w' replayNew) =
      ProfileOf {| pj_name := name u; pj_email := email u;
                   pj_profilePicture := profilePicture u;
                   pj_platform := platform u; pj_lastLogin := 5000 |}.
Proof.
  destruct (serveGoogle provider (Granted googleProfile) idle noState)
    as [w' reply] eqn:E.
  assert (reply = Frontend RedirectProfile) as ->
    by (vm_compute in E; by injection E as _ <-).
  destruct (google_callback_binds provider _ idle noState w'
              ltac:(compute_done) E)
    as (g & u & Hg & Hin & Hs & _ & _ & Hold & Hprof).
  injection Hg as <-.
  exists w', u. split; [done|]. split; [exact Hin|]. split; [exact Hs|].
  split; [apply Hold; discriminate|].
  apply Hprof. reflexivity.
Defined.

Lemma google_callback_failure_witness :
  serveGoogle provider (Granted bareProfile) idle noState
  = (store sid emptySession idle, ServerError) ∧
  serveGoogle failingLogin (Granted googleProfile) idle noState
  = ({| sessions :=
          {[ "session-2" :=
               {| linkedInState := None; passport_user := Some freshId |} ]};
        users := [googleUser] |}, ServerError).
Proof.
  destruct (google_callback_failure provider idle noState)
    as (_ & _ & Hbare & _).
  destruct (google_callback_failure failingLogin idle noState)
    as (_ & _ & _ & Hsave).
  split.
  - apply (Hbare bareProfile eq_refl). compute_done.
  - rewrite (Hsave googleProfile [googleUser] googleUser eq_refl eq_refl eq_refl).
    vm_compute. reflexivity.
Defined.

Lemma no_session_is_transient_witness :
  serveCallback provider {| sessions := ∅; users := [] |}
    (arrive {| sessions := ∅; users := [] |} noState)
  = (idle, RedirectError "no_session") ∧
  (serveCallback provider idle (arrive idle noState)).2 = RedirectProfile.
Proof.
  destruct (no_session_is_transient provider {| sessions := ∅; users := [] |}
              noState (lookup_empty _) eq_refl) as (H1 & _ & H2 & _).
  split; [exact H1|].
  apply (H2 provider mallory); reflexivity.
Defined.

End AuthMore.

(** ** The routes before and after ownership *)

Module Revisions.
Import Routes RouteFacts RouteMore Unscoped.

Section Simulation.
Context `{M : Mongoose}.
#[local] Arguments cast : simpl never.

(** *** Documents without their owner *)


Lemma getPath_disown d k : k ≠ "owner" → getPath (disown d) k = getPath d k.
Proof.
  intros Hk. unfold getPath. case_decide; [done|].
  cbn [disown fields]. by rewrite lookup_delete_ne.
Qed.

Lemma matches1_disown d kw :
  kw.1 ≠ "owner" → matches1 (disown d) kw = matches1 d kw.
Proof. intros Hk. unfold matches1. by rewrite getPath_disown. Qed.

Lemma matches1_owned u d :
  owner d = Some (VOid u) → matches1 d ("owner", VOid u) = true.
Proof.
  intros H. unfold matches1, getPath. cbn [fst snd].
  rewrite decide_False by done. unfold owner in H. rewrite H.
  by apply bool_decide_eq_true_2.
Qed.


Lemma matches_project_disown w u d :
  owner d = Some (VOid u) →
  matches [("project", w)] (disown d)
  = matches [("owner", VOid u); ("project", w)] d.
Proof.
  intros H. unfold matches. cbn [forallb].
  rewrite matches1_disown by done. by rewrite (matches1_owned u d H).
Qed.

Lemma matches_nil_disown u d :
  owner d = Some (VOid u) →
  matches [] (disown d) = matches [("owner", VOid u)] d.
Proof.
  intros H. unfold matches. cbn [forallb]. by rewrite (matches1_owned u d H).
Qed.

Lemma find_sim (P1 P0 : Doc → bool) (coll : list Doc) :
  (∀ d, d ∈ coll → P0 (disown d) = P1 d) →
  List.find P0 (disown <$> coll) = disown <$> List.find P1 coll.
Proof.
  induction coll as [|a coll IH]; intros H; [done|].
  rewrite fmap_cons. cbn [List.find].
  rewrite (H a) by left. destruct (P1 a); [done|].
  apply IH. intros d Hd. apply H. by right.
Qed.

Lemma filter_sim (P1 P0 : Doc → bool) (coll : list Doc) :
  (∀ d, d ∈ coll → P0 (disown d) = P1 d) →
  List.filter P0 (disown <$> coll) = disown <$> List.filter P1 coll.
Proof.
  induction coll as [|a coll IH]; intros H; [done|].
  rewrite fmap_cons. cbn [List.filter].
  rewrite (H a) by left.
  rewrite IH by (intros d Hd; apply H; by right).
  by destruct (P1 a).
Qed.



Lemma allOwnedBy_cons u d coll :
  allOwnedBy u (d :: coll) ↔ owner d = Some (VOid u) ∧ allOwnedBy u coll.
Proof.
  unfold allOwnedBy. split.
  - intros H. split; [apply H; by left|]. intros x Hx. apply H. by right.
  - intros [Hd H] x Hx. apply elem_of_cons in Hx as [->|Hx]; auto.
Qed.

(** *** Casting against the two schemas *)

Lemma castFilter_id sch v :
  castFilter sch [("_id", v)] =
  match cast TObjectId v with
  | Some w => Ok [("_id", w)]
  | None => Throw (CastError "_id")
  end.
Proof.
  simpl. change (pathType sch "_id") with (Some TObjectId).
  by destruct (cast TObjectId v).
Qed.







(** *** The model calls *)


Lemma findById_sim sch1 sch0 (coll : list Doc) v :
  findById sch0 (disown <$> coll) v =
  match findById sch1 coll v with
  | Ok res => Ok (disown <$> res)
  | Throw e => Throw e
  end.
Proof.
  unfold findById, findOne. rewrite !castFilter_id.
  destruct (cast TObjectId v) as [w|]; [|done]. cbn [mbind result_bind].
  f_equal. apply find_sim. intros d Hd. unfold matches. cbn [forallb].
  by rewrite matches1_disown.
Qed.




Lemma populate_disown ps t :
  populate (disown <$> ps) (disown t) = erasePopulated (populate ps t).
Proof.
  unfold populate, erasePopulated. cbn [task project_ref disown fields].
  f_equal. rewrite lookup_delete_ne by done.
  destruct (fields t !! "project") as [[| | | |p]|]; try done.
  rewrite (find_sim (λ d, bool_decide (doc_id d = p))) by done.
  destruct (List.find _ ps) as [d|]; [|done].
  cbn [fmap option_fmap option_map disown doc_id fields]. do 2 f_equal.
  apply map_filter_delete_not. intros y _. cbn. discriminate.
Qed.

Lemma populate_disown_all ps (ts : list Doc) :
  populate (disown <$> ps) <$> (disown <$> ts)
  = erasePopulated <$> (populate ps <$> ts).
Proof.
  rewrite <- !list_fmap_compose. apply list_fmap_ext. intros i t _.
  apply populate_disown.
Qed.

(** *** Creating a document with and without the owner path *)










(** *** The handlers, one by one *)

Lemma getProject_sim db r :
  simulates (Routes.getProject db r) (Unscoped.getProject (erase db) r).
Proof.
  unfold Routes.getProject, Unscoped.getProject. cbn [erase projects].
  rewrite (findById_sim Routes.projectSchema).
  destruct (findById Routes.projectSchema (projects db) _) as [[p|]|e];
    (split; [done|by left]).
Qed.

Lemma listProjects_sim db r :
  (∀ u, user r = Some u → allOwnedBy u (projects db)) →
  simulates (Routes.listProjects db r) (Unscoped.listProjects (erase db) r).
Proof.
  intros Ho. unfold Routes.listProjects, Unscoped.listProjects, find, ownerFilter.
  cbn [erase projects]. destruct (user r) as [u|]; simpl.
  - rewrite (filter_sim (matches [("owner", VOid u)]) (matches []))
      by (intros d Hd; apply matches_nil_disown; by apply (Ho u)).
    split; [done|by left].
  - rewrite (filter_sim (matches []) (matches [])) by done.
    split; [done|by left].
Qed.

Lemma listTasks_sim db r :
  (∀ u, user r = Some u → allOwnedBy u (tasks db)) →
  simulates (Routes.listTasks db r) (Unscoped.listTasks (erase db) r).
Proof.
  intros Ho.
  unfold Routes.listTasks, Unscoped.listTasks, find,
    Routes.taskFilter, Unscoped.taskFilter, ownerFilter.
  cbn [erase projects tasks].
  assert (∀ w (d : Doc), matches [("project", w)] (disown d)
                         = matches [("project", w)] d) as Hp.
  { intros w d. unfold matches. cbn [forallb]. by rewrite matches1_disown. }
  destruct (query_project r) as [v|]; [destruct (truthy v)|];
    destruct (user r) as [u|]; simpl;
    try change (pathType Routes.taskSchema "owner") with (Some TObjectId);
    try change (pathType Routes.taskSchema "project") with (Some TObjectId);
    try change (pathType Unscoped.taskSchema "project") with (Some TObjectId);
    cbn [mbind result_bind];
    try rewrite (cast_oid TObjectId u eq_refl);
    try (destruct (cast TObjectId v) as [w|]; [|split; [done|by left]]);
    cbn [mbind result_bind].
  - rewrite (filter_sim (matches [("owner", VOid u); ("project", w)])
               (matches [("project", w)]))
      by (intros d Hd; apply matches_project_disown; by apply (Ho u)).
    rewrite populate_disown_all. split; [done|by left].
  - rewrite (filter_sim (matches [("project", w)]) (matches [("project", w)]))
      by (intros; apply Hp).
    rewrite populate_disown_all. split; [done|by left].
  - rewrite (filter_sim (matches [("owner", VOid u)]) (matches []))
      by (intros d Hd; apply matches_nil_disown; by apply (Ho u)).
    rewrite populate_disown_all. split; [done|by left].
  - rewrite (filter_sim (matches []) (matches [])) by done.
    rewrite populate_disown_all. split; [done|by left].
  - rewrite (filter_sim (matches [("owner", VOid u)]) (matches []))
      by (intros d Hd; apply matches_nil_disown; by apply (Ho u)).
    rewrite populate_disown_all. split; [done|by left].
  - rewrite (filter_sim (matches []) (matches [])) by done.
    rewrite populate_disown_all. split; [done|by left].
Qed.









(** *** Ownership is kept *)







(** *** The two revisions compared *)


(** X24: reading a project by id was not changed when ownership was
    introduced: for every database and every requester, with or without a
    user, [GET /projects/:id] answers as the route before ownership does on
    the database without the [owner] paths. For a request without a user
    the same holds of the two list routes. *)
Theorem reads_predate_ownership db r :
  simulates (Routes.getProject db r) (Unscoped.getProject (erase db) r) ∧
  (user r = None →
   simulates (Routes.listProjects db r) (Unscoped.listProjects (erase db) r) ∧
   simulates (Routes.listTasks db r) (Unscoped.listTasks (erase db) r)).
Proof.
  split; [apply getProject_sim|]. intros Hu. split.
  - apply listProjects_sim. intros u Hu'. by rewrite Hu in Hu'.
  - apply listTasks_sim. intros u Hu'. by rewrite Hu in Hu'.
Qed.

End Simulation.

(** *** Instances *)

Import Sample Cases.


Lemma reads_predate_ownership_witness :
  simulates (Routes.getProject (M:=plainCasts) db1 bobReads)
    (Unscoped.getProject (M:=plainCasts) (erase db1) bobReads) ∧
  simulates (Routes.listTasks (M:=plainCasts) db1 anonymous)
    (Unscoped.listTasks (M:=plainCasts) (erase db1) anonymous).
Proof.
  destruct (reads_predate_ownership (M:=plainCasts) db1 bobReads) as [Hget _].
  destruct (reads_predate_ownership (M:=plainCasts) db1 anonymous) as [_ Hlist].
  split; [exact Hget|]. by apply Hlist.
Defined.

End Revisions.
